(** * HDRI browser panel: a shallow embedding of [Houdini_HDRI_UI.py]

    The development follows the source file top to bottom:

    - [PyStr]     Python [str] values and the few string operations the
                  panel uses ([lower], [endswith], slicing, f-strings,
                  [os.path.join]);
    - [Float32]   the numpy float32 pipeline of the decoder
                  ([nan_to_num], [clip], [* 255], [astype(uint8)]) over the
                  IEEE-754 model of the standard library ([SpecFloat]);
    - [Decoder]   [ThumbnailWorker.run];
    - [Hou]       the part of the Houdini scene the panel touches and the
                  three handlers that talk to it;
    - [Pool]      [QThreadPool]: running and queued workers;
    - [Browser]   the state of [EXRBrowser] and its methods;
    - [Runtime]   worker threads finishing and the main thread handling
                  their queued signals;
    - [Examples]  concrete folders, images and scenes.

    Definitions come first, the lemmas and theorems about them follow. *)

From Stdlib Require Import ZArith NArith Lia Ascii String.
From Stdlib Require Import SpecFloat.
From stdpp Require Import gmap list.

Set Warnings "-clear-no-such-hyp".

(** A Python [str] is a sequence of Unicode code points. *)
Abbreviation pystr := (list N).

(* ================================================================== *)
(** ** Python strings *)
(* ================================================================== *)
Module PyStr.

(** An ASCII literal of the source. *)
Definition py (s : string) : pystr :=
  (λ a, N.of_nat (nat_of_ascii a)) <$> list_ascii_of_string s.

(** [str.lower] on one code point.  Only the ASCII capitals are mapped:
    no other code point has a lowercase form containing an ASCII
    character of [".exr"] or [".hdr"], which is all the panel asks of
    [lower]. *)
Definition lower_cp (c : N) : N :=
  if ((65 <=? c) && (c <=? 90))%N then (c + 32)%N else c.

Definition lower (s : pystr) : pystr := lower_cp <$> s.

Definition startswith (s pre : pystr) : bool := bool_decide (pre `prefix_of` s).
Definition endswith (s suf : pystr) : bool := bool_decide (suf `suffix_of` s).

(** [s.endswith((a, b, ...))] with a tuple argument. *)
Definition endswith_any (s : pystr) (sufs : list pystr) : bool :=
  existsb (endswith s) sufs.

(** [str(n)] for a non-negative [int]. *)
Fixpoint digits (d : Decimal.uint) : pystr :=
  match d with
  | Decimal.Nil => []
  | Decimal.D0 d => 48%N :: digits d
  | Decimal.D1 d => 49%N :: digits d
  | Decimal.D2 d => 50%N :: digits d
  | Decimal.D3 d => 51%N :: digits d
  | Decimal.D4 d => 52%N :: digits d
  | Decimal.D5 d => 53%N :: digits d
  | Decimal.D6 d => 54%N :: digits d
  | Decimal.D7 d => 55%N :: digits d
  | Decimal.D8 d => 56%N :: digits d
  | Decimal.D9 d => 57%N :: digits d
  end.

Definition str_of_nat (n : nat) : pystr := digits (Nat.to_uint n).

(** [str(z)] for an [int]. *)
Definition str_of_Z (z : Z) : pystr :=
  match z with
  | Z0 => py "0"
  | Zpos p => digits (Pos.to_uint p)
  | Zneg p => py "-" ++ digits (Pos.to_uint p)
  end.

(** [posixpath.join(a, b)]. *)
Definition sep : N := 47%N.

Definition join (a b : pystr) : pystr :=
  if startswith b [sep] then b
  else if bool_decide (a = []) || endswith a [sep] then a ++ b
  else a ++ [sep] ++ b.

End PyStr.

(* ================================================================== *)
(** ** numpy float32 arithmetic of the decoder *)
(* ================================================================== *)
Module Float32.

Definition prec : Z := 24.
Definition emax : Z := 128.

(** A float32 datum is a [spec_float] that is valid for binary32. *)
Definition valid (x : spec_float) : bool := valid_binary prec emax x.

Definition of_Z (z : Z) : spec_float := binary_normalize prec emax z 0 false.

Definition zero : spec_float := S754_zero false.
Definition one : spec_float := of_Z 1.

(** [np.finfo(np.float32).max]. *)
Definition finfo_max : spec_float := SFmax_float prec emax.

Definition isnan (x : spec_float) : bool :=
  match x with S754_nan => true | _ => false end.

(** [np.nan_to_num(x)] with its default arguments: NaN becomes 0.0,
    +inf the largest finite value, -inf the most negative one. *)
Definition nan_to_num (x : spec_float) : spec_float :=
  match x with
  | S754_nan => zero
  | S754_infinity false => finfo_max
  | S754_infinity true => SFopp finfo_max
  | _ => x
  end.

(** The element loop of [np.clip] for floating types:
    [min(max(x, lo), hi)] where a NaN first argument wins. *)
Definition npy_max (a b : spec_float) : spec_float :=
  if isnan a then a else if SFltb b a then a else b.

Definition npy_min (a b : spec_float) : spec_float :=
  if isnan a then a else if SFltb a b then a else b.

Definition clip (x lo hi : spec_float) : spec_float :=
  npy_min (npy_max x lo) hi.

(** [x * 255] in float32 (the Python int is converted to the array type). *)
Definition mul255 (x : spec_float) : spec_float :=
  SFmul prec emax x (of_Z 255).

(** The integer a C cast to an integer type starts from: the value
    truncated toward zero.  NaN and the infinities have none. *)
Definition trunc (x : spec_float) : option Z :=
  match x with
  | S754_zero _ => Some 0%Z
  | S754_finite s m e =>
      let a := match e with
               | Zneg p => (Zpos m / 2 ^ Zpos p)%Z
               | _ => (Zpos m * 2 ^ e)%Z
               end in
      Some (if s then (- a)%Z else a)
  | _ => None
  end.

(** [astype(np.uint8)].  C leaves the cast of an out-of-range value
    undefined; the model wraps modulo 256 and sends NaN and the
    infinities to 0.  [mul255_trunc] below shows the decoder never gets
    there. *)
Definition astype_uint8 (x : spec_float) : Z :=
  match trunc x with
  | Some z => (z mod 256)%Z
  | None => 0%Z
  end.

(** Lines 139-141 of the source on one array element. *)
Definition sanitized (x : spec_float) : spec_float :=
  clip (nan_to_num x) zero one.

Definition quantize (x : spec_float) : Z :=
  astype_uint8 (mul255 (sanitized x)).

(** The same three lines as the specification words them: NaN and both
    infinities are replaced by 0, then clamp, then quantize. *)
Definition spec_nan_inf_to_zero (x : spec_float) : spec_float :=
  match x with
  | S754_nan | S754_infinity _ => zero
  | _ => x
  end.

Definition spec_quantize (x : spec_float) : Z :=
  astype_uint8 (mul255 (clip (spec_nan_inf_to_zero x) zero one)).

(** The shift register of [SpecFloat.shr] after [k] right shifts of the
    mantissa [M]: it holds the quotient, and its round and sticky bits
    are both clear exactly when nothing was shifted out. *)
Definition shifted (M k : Z) (r : shr_record) : Prop :=
  shr_m r = (M / 2 ^ k)%Z
  ∧ (orb (shr_r r) (shr_s r) = false ↔ (M mod 2 ^ k)%Z = 0%Z).

End Float32.

(** Python [float] (binary64), used by the intensity slider. *)
Module Float64.

Definition prec : Z := 53.
Definition emax : Z := 1024.

(** [float(z)] for an [int] that fits the mantissa. *)
Definition of_Z (z : Z) : spec_float := binary_normalize prec emax z 0 false.

(** [a / b] on two floats. *)
Definition truediv (a b : spec_float) : spec_float := SFdiv prec emax a b.

Definition leb (a b : spec_float) : bool := SFleb a b.

End Float64.

(* ================================================================== *)
(** ** ThumbnailWorker *)
(* ================================================================== *)
Module Decoder.
Import PyStr.

(** [inp.spec()]: the three fields the worker reads. *)
Record ImageSpec := { width : nat; height : nat; nchannels : nat }.

(** What the four OpenImageIO lines (134-137) leave behind: either an
    exception [e], of which the worker only uses [str(e)], or the spec
    and the pixel data as float32, flattened in row-major order. *)
Inductive opened :=
| raises (e : pystr)
| image (spec : ImageSpec) (img : list spec_float).

Inductive Format := Format_Grayscale8 | Format_RGB888.

(** The pixel data of a [QImage] built over a caller's buffer and then
    copied: [bits] are the bytes taken from the buffer, [overread] is
    the number of further bytes [copy] took from the memory behind the
    buffer's end, whose values the image data does not determine. *)
Record QImage := {
  format : Format;
  qwidth : nat;
  qheight : nat;
  bits : list Z;
  overread : nat
}.

(** [QPixmap.fromImage(qimg).scaled(220, 220, KeepAspectRatio,
    SmoothTransformation)]; the resampling itself is Qt's. *)
Inductive QPixmap := scaled_220 (qimg : QImage).

(** The two signals of [ThumbnailWorker.Signals]. *)
Inductive signal :=
| finished (path : pystr) (pixmap : QPixmap) (info_text : pystr)
| error (path : pystr) (error_msg : pystr).

Inductive signal_kind := is_finished | is_error.

Definition kind_of (s : signal) : signal_kind :=
  match s with
  | finished _ _ _ => is_finished
  | error _ _ => is_error
  end.

Fixpoint comma_separated (ns : list nat) : pystr :=
  match ns with
  | [] => []
  | [n] => str_of_nat n
  | n :: rest => str_of_nat n ++ py "," ++ comma_separated rest
  end.

(** [img.reshape(shape)]: the data is kept, the element count must
    agree; otherwise numpy raises [ValueError] with this text. *)
Definition reshape {A} (img : list A) (shape : list nat) : pystr + list A :=
  if length img =? foldr Nat.mul 1 shape then inr img
  else inl (py "cannot reshape array of size " ++ str_of_nat (length img)
            ++ py " into shape (" ++ comma_separated shape ++ py ")").

(** [img[:, :, :3]] followed by [np.ascontiguousarray], on the flat data
    of [npix] pixels with [nch] channels each. *)
Fixpoint first3 (nch npix : nat) (data : list Z) : list Z :=
  match npix with
  | 0 => []
  | S k => take 3 data ++ first3 nch k (drop nch data)
  end.

(** [QImage(data, w, h, bytesPerLine, fmt).copy()].  The constructor
    trusts the caller that [data] holds [h * bytesPerLine] bytes and
    [copy] reads that many: where [data] is shorter, the read runs on
    behind its end; no exception is raised and an image is returned. *)
Definition QImage_copy (data : list Z) (w h bytesPerLine : nat) (fmt : Format)
  : QImage :=
  {| format := fmt; qwidth := w; qheight := h;
     bits := take (h * bytesPerLine) data;
     overread := h * bytesPerLine - length data |}.

(** [f"{spec.width}×{spec.height} · {spec.nchannels}ch"];
    U+00D7 is the multiplication sign, U+00B7 the middle dot. *)
Definition info_text_of (spec : ImageSpec) : pystr :=
  str_of_nat (width spec) ++ [215%N] ++ str_of_nat (height spec)
  ++ py " " ++ [183%N] ++ py " " ++ str_of_nat (nchannels spec) ++ py "ch".

(** Lines 165-177: the pixmap is made and scaled, the info text is
    formatted, [finished] is emitted. *)
Definition to_pixmap (path : pystr) (spec : ImageSpec) (qimg : QImage) : signal :=
  finished path (scaled_220 qimg) (info_text_of spec).

(** [ThumbnailWorker.run] (lines 129-184), given what OpenImageIO
    returned for [self.path]: the signal it emits.  Every exception
    ends in the [error] signal with [str(e)[:30]]. *)
Definition run (path : pystr) (o : opened) : signal :=
  match o with
  | raises e => error path (take 30 e)
  | image spec img =>
      let img := Float32.quantize <$> img in
      if nchannels spec =? 1 then
        match reshape img [height spec; width spec] with
        | inl e => error path (take 30 e)
        | inr img =>
            to_pixmap path spec
              (QImage_copy img (width spec) (height spec) (width spec)
                 Format_Grayscale8)
        end
      else
        match reshape img [height spec; width spec; nchannels spec] with
        | inl e => error path (take 30 e)
        | inr img =>
            let img := if 3 <=? nchannels spec
                       then first3 (nchannels spec) (height spec * width spec) img
                       else img in
            to_pixmap path spec
              (QImage_copy img (width spec) (height spec) (width spec * 3)
                 Format_RGB888)
        end
  end.

End Decoder.

(* ================================================================== *)
(** ** The Houdini scene *)
(* ================================================================== *)
Module Hou.
Import PyStr.

Inductive parm_value :=
| parm_str (s : pystr)
| parm_int (z : Z)
| parm_float (f : spec_float).

Record node := {
  type_name : pystr;
  node_name : pystr;
  parms : gmap pystr parm_value
}.

(** [obj] holds the children of [hou.node("/obj")], [None] when that
    node does not exist.  [envlight_parms] is the parameter set Houdini
    gives a freshly created [envlight]. *)
Record scene := {
  obj : option (list node);
  envlight_parms : gmap pystr parm_value
}.

Definition with_children (sc : scene) (children : list node) : scene :=
  {| obj := Some children; envlight_parms := envlight_parms sc |}.

(** [next((n for n in obj.children() if n.type().name() == "envlight"), None)] *)
Definition find_envlight (children : list node) : option (nat * node) :=
  list_find (λ n, type_name n = py "envlight") children.

Definition count_envlight (sc : scene) : nat :=
  match obj sc with
  | Some children => length (filter (λ n, type_name n = py "envlight") children)
  | None => 0
  end.

(** [p = node.parm(name); if p: p.set(v)] *)
Definition set_parm (n : node) (name : pystr) (v : parm_value) : node :=
  match parms n !! name with
  | Some _ => {| type_name := type_name n; node_name := node_name n;
                 parms := <[name := v]> (parms n) |}
  | None => n
  end.

(** [obj.createNode(type, name)] for the envlight type. *)
Definition createNode (sc : scene) (ty name : pystr) : node :=
  {| type_name := ty; node_name := name; parms := envlight_parms sc |}.

(** [ClickableLabel._apply_env_light] (lines 329-351); the tooltip and
    [moveToGoodPosition] do not change what is modelled here. *)
Definition _apply_env_light (path : pystr) (sc : scene) : scene :=
  match obj sc with
  | None => sc
  | Some children =>
      match find_envlight children with
      | Some (i, env) =>
          with_children sc (<[i := set_parm env (py "env_map") (parm_str path)]> children)
      | None =>
          let env := createNode sc (py "envlight") (py "HDRI_Environment_Light") in
          with_children sc (children ++ [set_parm env (py "env_map") (parm_str path)])
      end
  end.

Inductive MouseButton := LeftButton | RightButton | MiddleButton.

#[global] Instance MouseButton_eq_dec : EqDecision MouseButton.
Proof. solve_decision. Defined.

Definition ENABLE_ENV_LIGHT_CLICK : bool := true.

(** [ClickableLabel.mousePressEvent] (lines 318-326).  [ENABLE_HOUDINI]
    is the flag after the optional import: false when [hou] is absent. *)
Definition mousePressEvent (ENABLE_HOUDINI : bool) (button : MouseButton)
    (path : pystr) (sc : scene) : scene :=
  if negb (ENABLE_HOUDINI && ENABLE_ENV_LIGHT_CLICK
           && bool_decide (button = LeftButton))
  then sc
  else _apply_env_light path sc.

(** The scene side of [on_intensity_changed] (lines 785-801) and of
    [on_location_changed] (lines 809-824): look the light up, set one
    parameter if both exist. *)
Definition set_on_envlight (name : pystr) (v : parm_value) (sc : scene) : scene :=
  match obj sc with
  | None => sc
  | Some children =>
      match find_envlight children with
      | Some (i, env) => with_children sc (<[i := set_parm env name v]> children)
      | None => sc
      end
  end.

(** [intensity_value = value / 5.0] *)
Definition intensity_value (value : Z) : spec_float :=
  Float64.truediv (Float64.of_Z value) (Float64.of_Z 5).

(** [0.0 <= f <= 20.0] on Python floats. *)
Definition in_intensity_range (f : spec_float) : bool :=
  Float64.leb (Float64.of_Z 0) f && Float64.leb f (Float64.of_Z 20).

Definition apply_intensity (ENABLE_HOUDINI : bool) (value : Z) (sc : scene) : scene :=
  if ENABLE_HOUDINI
  then set_on_envlight (py "light_intensity") (parm_float (intensity_value value)) sc
  else sc.

Definition apply_rotation (ENABLE_HOUDINI : bool) (value : Z) (sc : scene) : scene :=
  if ENABLE_HOUDINI
  then set_on_envlight (py "ry") (parm_int value) sc
  else sc.

(** The three ways the panel reaches the scene. *)
Inductive host_op :=
| select_image (button : MouseButton) (path : pystr)
| change_rotation (value : Z)
| change_intensity (value : Z).

Definition apply_op (ENABLE_HOUDINI : bool) (sc : scene) (op : host_op) : scene :=
  match op with
  | select_image button path => mousePressEvent ENABLE_HOUDINI button path sc
  | change_rotation value => apply_rotation ENABLE_HOUDINI value sc
  | change_intensity value => apply_intensity ENABLE_HOUDINI value sc
  end.

(** The value of a parameter of the environment light, if both exist. *)
Definition envlight_parm (name : pystr) (sc : scene) : option parm_value :=
  match obj sc with
  | Some children =>
      match find_envlight children with
      | Some (_, env) => parms env !! name
      | None => None
      end
  | None => None
  end.

End Hou.

(* ================================================================== *)
(** ** QThreadPool *)
(* ================================================================== *)
Module Pool.

(** A [ThumbnailWorker] object: its [path] and its identity (the
    number of workers constructed before it). *)
Record worker := { worker_id : nat; worker_path : pystr }.

(** [active] are the runnables a thread is executing, [queued] the ones
    waiting for a free thread. *)
Record QThreadPool := {
  maxThreadCount : nat;
  active : list worker;
  queued : list worker
}.

(** [pool.start(runnable)]: run it now if a thread is free, queue it
    otherwise. *)
Definition start (w : worker) (p : QThreadPool) : QThreadPool :=
  if length (active p) <? maxThreadCount p
  then {| maxThreadCount := maxThreadCount p;
          active := active p ++ [w]; queued := queued p |}
  else {| maxThreadCount := maxThreadCount p;
          active := active p; queued := queued p ++ [w] |}.

(** [pool.clear()]: drops the runnables that have not started yet. *)
Definition clear (p : QThreadPool) : QThreadPool :=
  {| maxThreadCount := maxThreadCount p; active := active p; queued := [] |}.

(** The thread of the [i]-th active runnable returns and takes the
    oldest queued runnable, if any. *)
Definition release (i : nat) (p : QThreadPool) : QThreadPool :=
  match queued p with
  | [] => {| maxThreadCount := maxThreadCount p;
             active := delete i (active p); queued := [] |}
  | w :: rest => {| maxThreadCount := maxThreadCount p;
                    active := delete i (active p) ++ [w]; queued := rest |}
  end.

End Pool.

(* ================================================================== *)
(** ** EXRBrowser *)
(* ================================================================== *)
Module Browser.
Import PyStr Decoder.

(** What the panel reads from its environment: the file system, what
    OpenImageIO makes of each file, and the number of cores.
    [listdir] is only consulted on directories. *)
Record world := {
  isdir : pystr → bool;
  listdir : pystr → list pystr;
  open_image : pystr → opened;
  cpu_count : nat
}.

(** [MAX_THREAD_COUNT = max(1, os.cpu_count() // 2)] *)
Definition MAX_THREAD_COUNT (w : world) : nat := Nat.max 1 (cpu_count w / 2).

(** What a [QLabel] shows: [setPixmap] and [setText] replace each other. *)
Inductive thumb_content :=
| thumb_empty
| thumb_pixmap (pixmap : QPixmap)
| thumb_text (text : pystr).

Inductive thumb_style := thumb_plain | thumb_failed.
Inductive info_style := info_grey | info_green | info_red.

(** The style sheets of [count_label], named after their colour. *)
Inductive count_style :=
| count_idle        (* #888 *)
| count_invalid     (* #ff4444 *)
| count_empty       (* #ff9800 *)
| count_loading     (* #ffa500 bold *)
| count_done.       (* #4caf50 bold *)

(** One entry of [card_data]: the widgets of a card.
    [loading_label] is true while the pulsing placeholder is alive,
    [animated] once [start_animation] was called on the card. *)
Record card := {
  name_label : pystr;
  loading_label : bool;
  label : thumb_content;
  label_style : thumb_style;
  info : pystr;
  info_css : info_style;
  animated : bool
}.

(** The lifecycle state of an item, read off its widgets. *)
Inductive item_state := Loading | Loaded | Failed.

Definition state_of (c : card) : item_state :=
  match label c with
  | thumb_empty => Loading
  | thumb_pixmap _ => Loaded
  | thumb_text _ => Failed
  end.

(** [Loaded] and [Failed] are the terminal states. *)
Definition terminal (c : card) : Prop := state_of c = Loaded ∨ state_of c = Failed.

(** A cell of the grid layout: the card of [cell_path] at a position. *)
Record grid_item := { cell_path : pystr; cell_row : nat; cell_col : nat }.

Record EXRBrowser := {
  thread_pool : Pool.QThreadPool;
  worker_serial : nat;
  card_data : gmap pystr card;
  loaded_count : nat;
  total_count : nat;
  count_label : pystr;
  count_label_style : count_style;
  grid : list grid_item;
  intensity_value_label : pystr;
  location_value_label : pystr
}.

Definition set_count_label (t : pystr) (st : count_style) (s : EXRBrowser) : EXRBrowser :=
  {| thread_pool := thread_pool s; worker_serial := worker_serial s;
     card_data := card_data s; loaded_count := loaded_count s;
     total_count := total_count s;
     count_label := t; count_label_style := st;
     grid := grid s;
     intensity_value_label := intensity_value_label s;
     location_value_label := location_value_label s |}.

Definition set_counts (loaded total : nat) (s : EXRBrowser) : EXRBrowser :=
  {| thread_pool := thread_pool s; worker_serial := worker_serial s;
     card_data := card_data s; loaded_count := loaded;
     total_count := total;
     count_label := count_label s; count_label_style := count_label_style s;
     grid := grid s;
     intensity_value_label := intensity_value_label s;
     location_value_label := location_value_label s |}.

Definition set_card_data (m : gmap pystr card) (s : EXRBrowser) : EXRBrowser :=
  {| thread_pool := thread_pool s; worker_serial := worker_serial s;
     card_data := m; loaded_count := loaded_count s;
     total_count := total_count s;
     count_label := count_label s; count_label_style := count_label_style s;
     grid := grid s;
     intensity_value_label := intensity_value_label s;
     location_value_label := location_value_label s |}.

Definition set_grid (g : list grid_item) (s : EXRBrowser) : EXRBrowser :=
  {| thread_pool := thread_pool s; worker_serial := worker_serial s;
     card_data := card_data s; loaded_count := loaded_count s;
     total_count := total_count s;
     count_label := count_label s; count_label_style := count_label_style s;
     grid := g;
     intensity_value_label := intensity_value_label s;
     location_value_label := location_value_label s |}.

Definition set_pool (p : Pool.QThreadPool) (serial : nat) (s : EXRBrowser) : EXRBrowser :=
  {| thread_pool := p; worker_serial := serial;
     card_data := card_data s; loaded_count := loaded_count s;
     total_count := total_count s;
     count_label := count_label s; count_label_style := count_label_style s;
     grid := grid s;
     intensity_value_label := intensity_value_label s;
     location_value_label := location_value_label s |}.

Definition set_slider_labels (intensity location : pystr) (s : EXRBrowser) : EXRBrowser :=
  {| thread_pool := thread_pool s; worker_serial := worker_serial s;
     card_data := card_data s; loaded_count := loaded_count s;
     total_count := total_count s;
     count_label := count_label s; count_label_style := count_label_style s;
     grid := grid s;
     intensity_value_label := intensity;
     location_value_label := location |}.

(** The panel as [__init__] and [_build_ui] leave it, before the last
    folder is reloaded.  U+00B0 is the degree sign. *)
Definition init (w : world) : EXRBrowser :=
  {| thread_pool := {| Pool.maxThreadCount := MAX_THREAD_COUNT w;
                       Pool.active := []; Pool.queued := [] |};
     worker_serial := 0;
     card_data := ∅; loaded_count := 0; total_count := 0;
     count_label := py "No files loaded"; count_label_style := count_idle;
     grid := [];
     intensity_value_label := py "1.0";
     location_value_label := py "0" ++ [176%N] |}.

(** Effects a method has outside the panel's own fields;
    [image_open] is an image file opened and read by the calling
    thread. *)
Inductive effect :=
| fs_isdir (folder : pystr)
| fs_listdir (folder : pystr)
| pool_clear
| pool_start (path : pystr)
| image_open (path : pystr).

Definition is_start (e : effect) : bool :=
  match e with pool_start _ => true | _ => false end.

(** [EXRBrowser.clear] (lines 855-867). *)
Definition clear (s : EXRBrowser) : list effect * EXRBrowser :=
  let s := set_pool (Pool.clear (thread_pool s)) (worker_serial s) s in
  let s := set_card_data ∅ s in
  let s := set_counts 0 0 s in
  ([pool_clear], set_grid [] s).

(** [_load_thumbnail_async] (lines 1012-1017). *)
Definition _load_thumbnail_async (path : pystr) (s : EXRBrowser)
  : list effect * EXRBrowser :=
  let worker := {| Pool.worker_id := worker_serial s; Pool.worker_path := path |} in
  ([pool_start path],
   set_pool (Pool.start worker (thread_pool s)) (S (worker_serial s)) s).

Definition new_card (filename : pystr) : card :=
  {| name_label := filename;
     loading_label := true;
     label := thumb_empty; label_style := thumb_plain;
     info := py "Loading..."; info_css := info_grey;
     animated := false |}.

(** [_build_card] (lines 932-1000) with [ENABLE_MULTITHREADING = True]. *)
Definition _build_card (path filename : pystr) (s : EXRBrowser)
  : list effect * EXRBrowser :=
  let s := set_card_data (<[path := new_card filename]> (card_data s)) s in
  _load_thumbnail_async path s.

(** The [for f in files] loop of [load_exrs] (lines 911-920). *)
Fixpoint place_cards (folder : pystr) (files : list pystr) (row col : nat)
    (s : EXRBrowser) : list effect * EXRBrowser :=
  match files with
  | [] => ([], s)
  | f :: rest =>
      let full_path := join folder f in
      let '(e1, s) := _build_card full_path f s in
      let s := set_grid (grid s ++ [{| cell_path := full_path;
                                       cell_row := row; cell_col := col |}]) s in
      let col := col + 1 in
      let '(row, col) := if col =? 4 then (row + 1, 0) else (row, col) in
      let '(e2, s) := place_cards folder rest row col s in
      (e1 ++ e2, s)
  end.

Definition is_hdri_name (f : pystr) : bool :=
  endswith_any (lower f) [py ".exr"; py ".hdr"].

(** The paths [load_exrs] builds cards for, in listing order. *)
Definition listed_paths (w : world) (folder : pystr) : list pystr :=
  join folder <$> List.filter is_hdri_name (listdir w folder).

(** [f"Loading {loaded}/{total} HDRI files..."] *)
Definition loading_text (loaded total : nat) : pystr :=
  py "Loading " ++ str_of_nat loaded ++ py "/" ++ str_of_nat total
  ++ py " HDRI files...".

(** [f"✓ Loaded {total} HDRI file{'s' if total != 1 else ''}"];
    U+2713 is the check mark. *)
Definition loaded_text (total : nat) : pystr :=
  [10003%N] ++ py " Loaded " ++ str_of_nat total ++ py " HDRI file"
  ++ (if total =? 1 then [] else py "s").

(** The text [_update_progress] puts in [count_label]. *)
Definition progress_text (loaded total : nat) : pystr :=
  if total <=? loaded then loaded_text total else loading_text loaded total.

(** [load_exrs] (lines 887-920). *)
Definition load_exrs (w : world) (folder : pystr) (s : EXRBrowser)
  : list effect * EXRBrowser :=
  if negb (isdir w folder) then
    ([fs_isdir folder], set_count_label (py "Invalid folder path") count_invalid s)
  else
    let '(e1, s) := clear s in
    let files := List.filter is_hdri_name (listdir w folder) in
    match files with
    | [] =>
        ([fs_isdir folder] ++ e1 ++ [fs_listdir folder],
         set_count_label (py "No HDRI files found") count_empty s)
    | _ :: _ =>
        let s := set_counts 0 (length files) s in
        let s := set_count_label (loading_text 0 (total_count s)) count_loading s in
        let '(e2, s) := place_cards folder files 0 0 s in
        ([fs_isdir folder] ++ e1 ++ [fs_listdir folder] ++ e2, s)
    end.

(** [_update_progress] (lines 1080-1092). *)
Definition _update_progress (s : EXRBrowser) : EXRBrowser :=
  if total_count s <=? loaded_count s
  then set_count_label (loaded_text (total_count s)) count_done s
  else set_count_label (loading_text (loaded_count s) (total_count s))
         (count_label_style s) s.

(** [_on_thumbnail_loaded] (lines 1020-1049). *)
Definition _on_thumbnail_loaded (path : pystr) (pixmap : QPixmap)
    (info_text : pystr) (s : EXRBrowser) : EXRBrowser :=
  match card_data s !! path with
  | Some card =>
      let card := {| name_label := name_label card;
                     loading_label := false;
                     label := thumb_pixmap pixmap; label_style := thumb_plain;
                     info := info_text; info_css := info_green;
                     animated := true |} in
      let s := set_card_data (<[path := card]> (card_data s)) s in
      let s := set_counts (loaded_count s + 1) (total_count s) s in
      _update_progress s
  | None => s
  end.

(** [_on_thumbnail_error] (lines 1052-1078); U+26A0 is the warning sign. *)
Definition _on_thumbnail_error (path error_msg : pystr) (s : EXRBrowser)
  : EXRBrowser :=
  match card_data s !! path with
  | Some card =>
      let card := {| name_label := name_label card;
                     loading_label := false;
                     label := thumb_text ([9888%N] ++ py " Failed to load");
                     label_style := thumb_failed;
                     info := error_msg; info_css := info_red;
                     animated := true |} in
      let s := set_card_data (<[path := card]> (card_data s)) s in
      let s := set_counts (loaded_count s + 1) (total_count s) s in
      _update_progress s
  | None => s
  end.

(** The slot a queued signal is connected to. *)
Definition deliver (sig : signal) (s : EXRBrowser) : EXRBrowser :=
  match sig with
  | finished path pixmap info_text => _on_thumbnail_loaded path pixmap info_text s
  | error path error_msg => _on_thumbnail_error path error_msg s
  end.

Definition signal_path (sig : signal) : pystr :=
  match sig with
  | finished path _ _ => path
  | error path _ => path
  end.

Definition item (path : pystr) (s : EXRBrowser) : option item_state :=
  state_of <$> card_data s !! path.

(** The main thread handling a sequence of signals, oldest first. *)
Definition deliver_all (sigs : list signal) (s : EXRBrowser) : EXRBrowser :=
  foldl (λ s sig, deliver sig s) s sigs.

(** [on_intensity_changed] (lines 779-801) and [on_location_changed]
    (lines 803-824) on the panel and the scene. *)
Definition on_intensity_changed (ENABLE_HOUDINI : bool) (value : Z)
    (st : EXRBrowser * Hou.scene) : EXRBrowser * Hou.scene :=
  (set_slider_labels (str_of_Z value ++ py ".0") (location_value_label st.1) st.1,
   Hou.apply_intensity ENABLE_HOUDINI value st.2).

Definition on_location_changed (ENABLE_HOUDINI : bool) (value : Z)
    (st : EXRBrowser * Hou.scene) : EXRBrowser * Hou.scene :=
  (set_slider_labels (intensity_value_label st.1) (str_of_Z value ++ [176%N]) st.1,
   Hou.apply_rotation ENABLE_HOUDINI value st.2).

End Browser.

(* ================================================================== *)
(** ** Worker threads and queued signals *)
(* ================================================================== *)
Module Runtime.
Import PyStr Decoder Browser.

(** The panel, the signals emitted by workers and not yet handled by the
    main thread (each with the identity of its sender), and [epoch]: the
    value of [worker_serial] when the current folder load began.  A
    worker, and a signal it sent, belongs to an earlier load exactly
    when its identity is below [epoch]. *)
Record system := {
  ui : EXRBrowser;
  mailbox : list (nat * signal);
  epoch : nat
}.

Inductive event :=
| user_load (folder : pystr)      (* Browse, Enter in the path bar *)
| worker_done (i : nat)           (* the i-th active worker finishes [run] *)
| deliver_next.                   (* the main thread handles the oldest signal *)

Definition boot (w : world) : system :=
  {| ui := init w; mailbox := []; epoch := 0 |}.

Definition stale (sys : system) (sender : nat) : Prop := sender < epoch sys.

Definition step (w : world) (ev : event) (sys : system) : option system :=
  match ev with
  | user_load folder =>
      Some {| ui := (load_exrs w folder (ui sys)).2;
              mailbox := mailbox sys;
              epoch := if isdir w folder then worker_serial (ui sys)
                       else epoch sys |}
  | worker_done i =>
      match Pool.active (thread_pool (ui sys)) !! i with
      | Some wk =>
          let sig := run (Pool.worker_path wk) (open_image w (Pool.worker_path wk)) in
          Some {| ui := set_pool (Pool.release i (thread_pool (ui sys)))
                          (worker_serial (ui sys)) (ui sys);
                  mailbox := mailbox sys ++ [(Pool.worker_id wk, sig)];
                  epoch := epoch sys |}
      | None => None
      end
  | deliver_next =>
      match mailbox sys with
      | (_, sig) :: rest =>
          Some {| ui := deliver sig (ui sys); mailbox := rest; epoch := epoch sys |}
      | [] => None
      end
  end.

Fixpoint steps (w : world) (evs : list event) (sys : system) : option system :=
  match evs with
  | [] => Some sys
  | ev :: rest =>
      match step w ev sys with
      | Some sys' => steps w rest sys'
      | None => None
      end
  end.

End Runtime.

(* ================================================================== *)
(** ** Concrete folders, images and scenes used below *)
(* ================================================================== *)
Module Examples.
Import PyStr Decoder Browser Runtime.

(** 0.5 as binary32. *)
Definition half : spec_float := S754_finite false 8388608 (-24).

Definition grey_1x1 : opened :=
  image {| width := 1; height := 1; nchannels := 1 |} [half].


(** A 1x1 image with four channels. *)
Definition rgba_1x1 : opened :=
  image {| width := 1; height := 1; nchannels := 4 |}
    [half; Float32.one; Float32.zero; half].

(** One folder [d] holding [a.exr]; one worker thread. *)
Definition reopen_world : world :=
  {| isdir := λ p, bool_decide (p = py "d");
     listdir := λ _, [py "a.exr"];
     open_image := λ _, grey_1x1;
     cpu_count := 2 |}.

(** Two folders: [d1] holds [a.exr], [d2] holds [b.exr]. *)
Definition two_folders : world :=
  {| isdir := λ p, bool_decide (p = py "d1") || bool_decide (p = py "d2");
     listdir := λ p, if bool_decide (p = py "d1") then [py "a.exr"] else [py "b.exr"];
     open_image := λ _, grey_1x1;
     cpu_count := 2 |}.

(** The scenario of the specification: [a.exr] decodes, [b.hdr] is
    corrupt; a text file lies next to them. *)
Definition corrupt_message : pystr :=
  py "OpenImageIO could not open the file: not a Radiance HDR image".

Definition mixed_folder : world :=
  {| isdir := λ p, bool_decide (p = py "d");
     listdir := λ _, [py "a.exr"; py "notes.txt"; py "b.hdr"];
     open_image := λ p, if bool_decide (p = py "d/a.exr") then grey_1x1
                        else raises corrupt_message;
     cpu_count := 8 |}.

Definition mixed_results : list signal :=
  [finished (py "d/a.exr")
     (scaled_220 {| format := Format_Grayscale8; qwidth := 1; qheight := 1;
                    bits := [127%Z]; overread := 0 |})
     (info_text_of {| width := 1; height := 1; nchannels := 1 |});
   error (py "d/b.hdr") (take 30 corrupt_message)].

(** A folder without any HDRI file, and a path that is no folder. *)
Definition text_folder : world :=
  {| isdir := λ p, bool_decide (p = py "docs");
     listdir := λ _, [py "notes.txt"; py "exr"; py "a.exr.bak"];
     open_image := λ _, raises (py "not an image");
     cpu_count := 4 |}.

(** The panel after [mixed_folder]'s folder [d] was loaded. *)
Definition loaded_panel : EXRBrowser :=
  (load_exrs mixed_folder (py "d") (init mixed_folder)).2.

Definition default_parms : gmap pystr Hou.parm_value :=
  <[py "env_map" := Hou.parm_str []]>
    (<[py "light_intensity" := Hou.parm_float (Float64.of_Z 1)]>
       (<[py "ry" := Hou.parm_int 0]> ∅)).

Definition geo : Hou.node :=
  {| Hou.type_name := py "geo"; Hou.node_name := py "geo1"; Hou.parms := ∅ |}.

Definition light : Hou.node :=
  {| Hou.type_name := py "envlight"; Hou.node_name := py "envlight1";
     Hou.parms := default_parms |}.

Definition lit_scene : Hou.scene :=
  {| Hou.obj := Some [geo; light]; Hou.envlight_parms := default_parms |}.

Definition unlit_scene : Hou.scene :=
  {| Hou.obj := Some [geo]; Hou.envlight_parms := default_parms |}.

End Examples.

(* ================================================================== *)
(** ** The last-folder file, Browse and start-up *)
(* ================================================================== *)
Module Persist.
Import PyStr Decoder Browser.

(** [str.isspace] on one code point: the characters [str.strip()]
    removes. *)
Definition isspace (c : N) : bool :=
  (((9 <=? c) && (c <=? 13)) || ((28 <=? c) && (c <=? 32))
   || (c =? 133) || (c =? 160) || (c =? 5760)
   || ((8192 <=? c) && (c <=? 8202))
   || (c =? 8232) || (c =? 8233) || (c =? 8239) || (c =? 8287)
   || (c =? 12288))%N.

Fixpoint lstrip (s : pystr) : pystr :=
  match s with
  | [] => []
  | c :: rest => if isspace c then lstrip rest else s
  end.

Definition rstrip (s : pystr) : pystr := reverse (lstrip (reverse s)).

(** [s.strip()] *)
Definition strip (s : pystr) : pystr := rstrip (lstrip s).

(** What a text-mode [read()] does to line ends: CR LF and a lone CR
    both become LF. *)
Fixpoint universal_newlines (s : pystr) : pystr :=
  match s with
  | [] => []
  | c :: rest =>
      if (c =? 13)%N
      then 10%N :: universal_newlines (match rest with
                                       | 10%N :: rest' => rest'
                                       | _ => rest
                                       end)
      else c :: universal_newlines rest
  end.

(** [~/last_folder.txt]: absent, present but failing to open or decode,
    or present with some text. *)
Inductive last_folder_file :=
| file_missing
| file_unreadable
| file_text (content : pystr).

(** The part of the disk the panel keeps its own state on, with
    [os.path.exists]; [writable] says whether [open(file, 'w')]
    succeeds, [encodable] whether the locale encoding can encode a
    string. *)
Record disk := {
  last_folder_txt : last_folder_file;
  writable : bool;
  encodable : pystr → bool;
  path_exists : pystr → bool
}.

Definition with_file (f : last_folder_file) (d : disk) : disk :=
  {| last_folder_txt := f; writable := writable d;
     encodable := encodable d; path_exists := path_exists d |}.

(** [_load_last_folder] (lines 869-877). *)
Definition _load_last_folder (d : disk) : pystr :=
  match last_folder_txt d with
  | file_missing => []
  | file_unreadable => []
  | file_text content => strip (universal_newlines content)
  end.

(** [_save_last_folder] (lines 879-884).  [open(file, 'w')] truncates the
    file before [write] encodes the text; every exception is printed
    and dropped. *)
Definition _save_last_folder (folder : pystr) (d : disk) : disk :=
  if negb (writable d) then d
  else if encodable d folder then with_file (file_text folder) d
  else with_file (file_text []) d.

(** The window: the panel, the text of the path field and the disk. *)
Record window := {
  panel : EXRBrowser;
  path_le : pystr;
  home : disk
}.

(** [__init__] (lines 398-464): read the last folder, build the widgets,
    and reload that folder if it still exists. *)
Definition startup (w : world) (d : disk) : window :=
  let last_folder := _load_last_folder d in
  let s := init w in
  {| panel := if negb (bool_decide (last_folder = [])) && path_exists d last_folder
              then (load_exrs w last_folder s).2
              else s;
     path_le := last_folder;
     home := d |}.

(** [browse] (lines 842-852); [folder] is what the directory dialog
    returned, empty when it was cancelled. *)
Definition browse (w : world) (folder : pystr) (win : window) : window :=
  if bool_decide (folder = []) then win
  else {| panel := (load_exrs w folder (panel win)).2;
          path_le := folder;
          home := _save_last_folder folder (home win) |}.

(** The user editing the path field, and Enter in it (line 588). *)
Definition edit_path (text : pystr) (win : window) : window :=
  {| panel := panel win; path_le := text; home := home win |}.

Definition return_pressed (w : world) (win : window) : window :=
  {| panel := (load_exrs w (path_le win) (panel win)).2;
     path_le := path_le win;
     home := home win |}.

End Persist.

(* ================================================================== *)
(** ** Hover preview of a thumbnail *)
(* ================================================================== *)
Module Hover.
Import PyStr Decoder.

(** The preview label created on first use: what it shows and whether
    it is visible. *)
Record zoom_widget := { zoom_source : QPixmap; zoom_visible : bool }.

(** The fields of [ClickableLabel] that the hover code reads and
    writes. *)
Record ClickableLabel := {
  label_path : pystr;
  zoomed : bool;
  original_pixmap : option QPixmap;
  zoom_label : option zoom_widget
}.

(** [ClickableLabel.__init__] (lines 251-255). *)
Definition new_label (path : pystr) : ClickableLabel :=
  {| label_path := path; zoomed := false;
     original_pixmap := None; zoom_label := None |}.

(** [_show_zoom_preview] (lines 283-311); without a pixmap the call
    would raise on [None.scaled], which [enterEvent] rules out. *)
Definition _show_zoom_preview (l : ClickableLabel) : ClickableLabel :=
  match original_pixmap l with
  | Some pix =>
      {| label_path := label_path l; zoomed := zoomed l;
         original_pixmap := original_pixmap l;
         zoom_label := Some {| zoom_source := pix; zoom_visible := true |} |}
  | None => l
  end.

(** [_hide_zoom_preview] (lines 313-316). *)
Definition _hide_zoom_preview (l : ClickableLabel) : ClickableLabel :=
  match zoom_label l with
  | Some z =>
      {| label_path := label_path l; zoomed := zoomed l;
         original_pixmap := original_pixmap l;
         zoom_label := Some {| zoom_source := zoom_source z; zoom_visible := false |} |}
  | None => l
  end.

Definition set_zoomed (b : bool) (l : ClickableLabel) : ClickableLabel :=
  {| label_path := label_path l; zoomed := b;
     original_pixmap := original_pixmap l; zoom_label := zoom_label l |}.

(** [enterEvent] (lines 269-274); [truthy] is Python's truth value of a
    [QPixmap] object. *)
Definition enterEvent (truthy : QPixmap → bool) (l : ClickableLabel) : ClickableLabel :=
  match original_pixmap l with
  | Some pix =>
      if truthy pix && negb (zoomed l)
      then _show_zoom_preview (set_zoomed true l)
      else l
  | None => l
  end.

(** [leaveEvent] (lines 276-281). *)
Definition leaveEvent (l : ClickableLabel) : ClickableLabel :=
  if zoomed l then _hide_zoom_preview (set_zoomed false l) else l.

Inductive hover_event := mouse_enter | mouse_leave.

Definition hover (truthy : QPixmap → bool) (l : ClickableLabel) (ev : hover_event)
  : ClickableLabel :=
  match ev with
  | mouse_enter => enterEvent truthy l
  | mouse_leave => leaveEvent l
  end.

Definition preview_visible (l : ClickableLabel) : bool :=
  match zoom_label l with
  | Some z => zoom_visible z
  | None => false
  end.

End Hover.

(* ================================================================== *)
(** ** The fade-in of a card *)
(* ================================================================== *)
Module Fade.

(** The Python float literals of [AnimatedCard]. *)
Definition opacity_0 : spec_float := S754_zero false.
Definition opacity_1 : spec_float := Float64.of_Z 1.

(** [0.05]: the binary64 number nearest to 1/20. *)
Definition opacity_step : spec_float := S754_finite false 7205759403792794 (-57).

Definition add (a b : spec_float) : spec_float := SFadd Float64.prec Float64.emax a b.

Record AnimatedCard := {
  current_opacity : spec_float;
  target_opacity : spec_float;
  animation_active : bool;
  timer_running : bool
}.

(** [AnimatedCard.__init__] (lines 198-208). *)
Definition new_card : AnimatedCard :=
  {| current_opacity := opacity_0; target_opacity := opacity_1;
     animation_active := false; timer_running := false |}.

(** [_start_fade] (lines 217-220). *)
Definition _start_fade (c : AnimatedCard) : AnimatedCard :=
  {| current_opacity := current_opacity c; target_opacity := target_opacity c;
     animation_active := true; timer_running := true |}.

(** [start_animation(delay)] (lines 210-215): the card, and the delay of
    the single-shot timer that will call [_start_fade] when one was
    set up. *)
Definition start_animation (delay : Z) (c : AnimatedCard) : AnimatedCard * option Z :=
  if (0 <? delay)%Z then (c, Some delay) else (_start_fade c, None).

(** [_animate_step] (lines 222-230). *)
Definition _animate_step (c : AnimatedCard) : AnimatedCard :=
  if SFltb (current_opacity c) (target_opacity c) then
    let opacity := add (current_opacity c) opacity_step in
    if SFleb (target_opacity c) opacity
    then {| current_opacity := target_opacity c; target_opacity := target_opacity c;
            animation_active := false; timer_running := false |}
    else {| current_opacity := opacity; target_opacity := target_opacity c;
            animation_active := animation_active c; timer_running := timer_running c |}
  else c.

(** One period of the 16 ms timer: the slot runs while the timer does. *)
Definition tick (c : AnimatedCard) : AnimatedCard :=
  if timer_running c then _animate_step c else c.

Definition ticks (n : nat) (c : AnimatedCard) : AnimatedCard := Nat.iter n tick c.

(** [paintEvent] (lines 232-238): whether the translucent overlay is
    painted. *)
Definition paints_overlay (c : AnimatedCard) : bool :=
  animation_active c || SFltb (current_opacity c) opacity_1.

End Fade.

(* ================================================================== *)
(** ** Loading without the thread pool *)
(* ================================================================== *)
Module SyncLoad.
Import PyStr Decoder Browser.

(** The widgets [_build_card] hands to [_load_thumbnail_sync] are the
    ones it has just stored under [card_data[path]]; writing to them is
    rewriting that entry. *)
Definition show_pixmap (pix : QPixmap) (info_text : pystr) (c : card) : card :=
  {| name_label := name_label c;
     loading_label := false;
     label := thumb_pixmap pix; label_style := thumb_plain;
     info := info_text; info_css := info_green;
     animated := true |}.

Definition show_failure (msg : pystr) (c : card) : card :=
  {| name_label := name_label c;
     loading_label := false;
     label := thumb_text ([9888%N] ++ py " Failed to load");
     label_style := thumb_failed;
     info := msg; info_css := info_red;
     animated := true |}.

(** The tail both branches of [_load_thumbnail_sync] share:
    [self.loaded_count += 1] and [self._update_progress()]. *)
Definition count_one (s : EXRBrowser) : EXRBrowser :=
  _update_progress (set_counts (loaded_count s + 1) (total_count s) s).

Definition sync_success (path : pystr) (spec : ImageSpec) (qimg : QImage)
    (s : EXRBrowser) : EXRBrowser :=
  count_one
    (set_card_data
       (alter (show_pixmap (scaled_220 qimg) (info_text_of spec)) path
          (card_data s)) s).

Definition sync_failure (path e : pystr) (s : EXRBrowser) : EXRBrowser :=
  count_one
    (set_card_data (alter (show_failure (take 30 e)) path (card_data s)) s).

(** [_load_thumbnail_sync] (lines 1095-1183): the image file is opened
    and read by the caller, and the widgets are written on the spot. *)
Definition _load_thumbnail_sync (w : world) (path : pystr) (s : EXRBrowser)
  : list effect * EXRBrowser :=
  ([image_open path],
   match open_image w path with
   | raises e => sync_failure path e s
   | image spec img =>
       let img := Float32.quantize <$> img in
       if nchannels spec =? 1 then
         match reshape img [height spec; width spec] with
         | inl e => sync_failure path e s
         | inr img =>
             sync_success path spec
               (QImage_copy img (width spec) (height spec) (width spec)
                  Format_Grayscale8) s
         end
       else
         match reshape img [height spec; width spec; nchannels spec] with
         | inl e => sync_failure path e s
         | inr img =>
             let img := if 3 <=? nchannels spec
                        then first3 (nchannels spec) (height spec * width spec) img
                        else img in
             sync_success path spec
               (QImage_copy img (width spec) (height spec) (width spec * 3)
                  Format_RGB888) s
         end
   end).

(** [_build_card] (lines 932-1000) for either value of
    [ENABLE_MULTITHREADING]. *)
Definition _build_card (ENABLE_MULTITHREADING : bool) (w : world)
    (path filename : pystr) (s : EXRBrowser) : list effect * EXRBrowser :=
  let s := set_card_data (<[path := new_card filename]> (card_data s)) s in
  if ENABLE_MULTITHREADING then _load_thumbnail_async path s
  else _load_thumbnail_sync w path s.

(** The [for f in files] loop of [load_exrs]. *)
Fixpoint place_cards (ENABLE_MULTITHREADING : bool) (w : world) (folder : pystr)
    (files : list pystr) (row col : nat) (s : EXRBrowser)
  : list effect * EXRBrowser :=
  match files with
  | [] => ([], s)
  | f :: rest =>
      let full_path := join folder f in
      let '(e1, s) := _build_card ENABLE_MULTITHREADING w full_path f s in
      let s := set_grid (grid s ++ [{| cell_path := full_path;
                                       cell_row := row; cell_col := col |}]) s in
      let col := col + 1 in
      let '(row, col) := if col =? 4 then (row + 1, 0) else (row, col) in
      let '(e2, s) := place_cards ENABLE_MULTITHREADING w folder rest row col s in
      (e1 ++ e2, s)
  end.

(** [clear] (lines 855-867): without multithreading [self.thread_pool]
    is [None] and is skipped. *)
Definition clear (ENABLE_MULTITHREADING : bool) (s : EXRBrowser)
  : list effect * EXRBrowser :=
  if ENABLE_MULTITHREADING then Browser.clear s
  else ([], set_grid [] (set_counts 0 0 (set_card_data ∅ s))).

(** [load_exrs] (lines 887-920) for either value of
    [ENABLE_MULTITHREADING]. *)
Definition load_exrs (ENABLE_MULTITHREADING : bool) (w : world) (folder : pystr)
    (s : EXRBrowser) : list effect * EXRBrowser :=
  if negb (isdir w folder) then
    ([fs_isdir folder],
     set_count_label (py "Invalid folder path") count_invalid s)
  else
    let '(e1, s) := clear ENABLE_MULTITHREADING s in
    let files := List.filter is_hdri_name (listdir w folder) in
    match files with
    | [] =>
        ([fs_isdir folder] ++ e1 ++ [fs_listdir folder],
         set_count_label (py "No HDRI files found") count_empty s)
    | _ :: _ =>
        let s := set_counts 0 (length files) s in
        let s := set_count_label (loading_text 0 (total_count s)) count_loading s in
        let '(e2, s) := place_cards ENABLE_MULTITHREADING w folder files 0 0 s in
        ([fs_isdir folder] ++ e1 ++ [fs_listdir folder] ++ e2, s)
    end.

End SyncLoad.

(* ================================================================== *)
(** ** What a folder load submits, and draining the pool *)
(* ================================================================== *)
Module Submission.
Import PyStr Decoder Browser Runtime.

(** The workers [load_exrs] constructs for a list of paths when
    [serial] workers existed before. *)
Definition workers_for (serial : nat) (paths : list pystr) : list Pool.worker :=
  imap (λ k path, {| Pool.worker_id := serial + k; Pool.worker_path := path |}) paths.

(** The cells [load_exrs] fills: four columns, row by row. *)
Definition cells_for (paths : list pystr) : list grid_item :=
  imap (λ k path, {| cell_path := path; cell_row := k / 4; cell_col := k mod 4 |}) paths.

(** A pool that never runs more than its thread count and lets a worker
    wait only when every thread is busy. *)
Definition pool_ok (p : Pool.QThreadPool) : Prop :=
  length (Pool.active p) ≤ Pool.maxThreadCount p
  ∧ (Pool.queued p ≠ [] → length (Pool.active p) = Pool.maxThreadCount p).



End Submission.

(* ================================================================== *)
(** ** More concrete inputs *)
(* ================================================================== *)
Module Samples.
Import PyStr Decoder Browser Runtime Examples.

(** A 1x2 image with four channels and a 2x1 image with three. *)
Definition rgba_1x2 : list spec_float :=
  [half; Float32.one; Float32.zero; half;
   Float32.zero; half; Float32.one; Float32.one].

Definition rgba_1x2_spec : ImageSpec := {| width := 2; height := 1; nchannels := 4 |}.

(** Six files in one folder, all decodable. *)
Definition six_files : world :=
  {| isdir := λ p, bool_decide (p = py "hdris");
     listdir := λ _, [py "a.exr"; py "b.exr"; py "c.hdr"; py "d.exr"; py "e.hdr";
                      py "f.exr"];
     open_image := λ p, if bool_decide (p = py "hdris/c.hdr")
                        then raises (py "bad header") else grey_1x1;
     cpu_count := 4 |}.

(** A home directory whose last-folder file names [d]. *)
Definition home_disk : Persist.disk :=
  {| Persist.last_folder_txt := Persist.file_text (py "  d" ++ [13%N; 10%N]);
     Persist.writable := true;
     Persist.encodable := λ _, true;
     Persist.path_exists := λ p, bool_decide (p = py "d") || bool_decide (p = py "hdris") |}.

Definition fresh_window : Persist.window :=
  {| Persist.panel := init mixed_folder; Persist.path_le := [];
     Persist.home := home_disk |}.


(** A scene with two environment lights. *)
Definition second_light : Hou.node :=
  {| Hou.type_name := py "envlight"; Hou.node_name := py "envlight2";
     Hou.parms := default_parms |}.

Definition two_lights : Hou.scene :=
  {| Hou.obj := Some [geo; light; second_light]; Hou.envlight_parms := default_parms |}.

End Samples.

(* ================================================================== *)
(** ** What a sequence of scene operations keeps *)
(* ================================================================== *)
Module SceneFrame.
Import PyStr Hou.

(** [kept c c'] relates the children of [/obj] before and after: no
    node is removed, moved, renamed or retyped; every node other than
    the first environment light is identical; the first environment
    light stays the first; and where there was none, a new one can only
    sit behind the old nodes. *)
Definition kept (c c' : list node) : Prop :=
  length c ≤ length c'
  ∧ (∀ j n, c !! j = Some n →
       ∃ n', c' !! j = Some n' ∧ type_name n' = type_name n
             ∧ node_name n' = node_name n)
  ∧ (∀ j n, c !! j = Some n → (∀ env, find_envlight c ≠ Some (j, env)) →
       c' !! j = Some n)
  ∧ (∀ i env, find_envlight c = Some (i, env) →
       ∃ env', find_envlight c' = Some (i, env'))
  ∧ (find_envlight c = None →
     ∀ i env', find_envlight c' = Some (i, env') → length c ≤ i).

End SceneFrame.

(* ================================================================== *)
(** ** States of the event loop *)
(* ================================================================== *)
Module Reachable.
Import PyStr Decoder Browser Runtime Submission.






End Reachable.

(* ================================================================== *)
(** * Properties *)
(* ================================================================== *)

(** ** Rounding to binary32 stays within [0, 255] *)

Section Float32Facts.
Import Float32.
Local Open Scope Z_scope.

Lemma digits2_pos_bounds (m : positive) :
  2 ^ (Zpos (digits2_pos m) - 1) <= Zpos m < 2 ^ Zpos (digits2_pos m).
Proof.
  induction m as [m IH|m IH|]; simpl digits2_pos.
  - rewrite Pos2Z.inj_succ.
    replace (Z.succ (Zpos (digits2_pos m)) - 1) with (Z.succ (Zpos (digits2_pos m) - 1)) by lia.
    rewrite !Z.pow_succ_r by lia. lia.
  - rewrite Pos2Z.inj_succ.
    replace (Z.succ (Zpos (digits2_pos m)) - 1) with (Z.succ (Zpos (digits2_pos m) - 1)) by lia.
    rewrite !Z.pow_succ_r by lia. lia.
  - simpl. lia.
Qed.

Lemma shr_1_fields (r : shr_record) :
  0 <= shr_m r →
  shr_m (shr_1 r) = shr_m r / 2
  ∧ shr_r (shr_1 r) = Z.odd (shr_m r)
  ∧ shr_s (shr_1 r) = orb (shr_r r) (shr_s r).
Proof.
  destruct r as [m r s]; simpl. intros Hm.
  destruct m as [|[p|p|]|]; try lia; simpl; repeat split; try reflexivity.
  - rewrite Pos2Z.inj_xI. Z.div_mod_to_equations. lia.
  - rewrite Pos2Z.inj_xO. Z.div_mod_to_equations. lia.
Qed.

Lemma shifted_step (M k : Z) (r : shr_record) :
  0 <= M → 0 <= k → shifted M k r → shifted M (k + 1) (shr_1 r).
Proof.
  intros HM Hk [Hm Hrs].
  assert (Hpow : 0 < 2 ^ k) by (apply Z.pow_pos_nonneg; lia).
  assert (H0 : 0 <= shr_m r) by (rewrite Hm; apply Z.div_pos; lia).
  destruct (shr_1_fields r H0) as (Em & Er & Es).
  unfold shifted. replace (k + 1) with (Z.succ k) by lia. rewrite Z.pow_succ_r by lia.
  rewrite (Z.mul_comm 2). split.
  - rewrite Em, Hm. rewrite Z.div_div by lia. reflexivity.
  - rewrite Er, Es. rewrite Z.rem_mul_r by lia.
    rewrite <- Hm.
    assert (Hodd : Z.odd (shr_m r) = false ↔ shr_m r mod 2 = 0).
    { rewrite Zmod_odd. destruct (Z.odd (shr_m r)); split; intros; try reflexivity; discriminate. }
    assert (0 <= M mod 2 ^ k) by (apply Z.mod_pos_bound; lia).
    assert (0 <= shr_m r mod 2 < 2) by (apply Z.mod_pos_bound; lia).
    rewrite orb_false_iff, Hodd, Hrs. split.
    + intros [-> ->]. lia.
    + intros Hs. split; nia.
Qed.

Lemma shifted_iter (M : Z) (p : positive) :
  0 <= M → ∀ k r, 0 <= k → shifted M k r → shifted M (k + Zpos p) (SpecFloat.iter_pos shr_1 p r).
Proof.
  intros HM. induction p as [p IH|p IH|]; intros k r Hk Hr; simpl.
  - rewrite Pos2Z.inj_xI.
    replace (k + (2 * Zpos p + 1)) with (k + 1 + Zpos p + Zpos p) by lia.
    apply IH; [lia|]. apply IH; [lia|]. by apply shifted_step.
  - rewrite Pos2Z.inj_xO.
    replace (k + 2 * Zpos p) with (k + Zpos p + Zpos p) by lia.
    apply IH; [lia|]. by apply IH.
  - by apply shifted_step.
Qed.

Lemma shifted_start (m : Z) :
  shifted m 0 {| shr_m := m; shr_r := false; shr_s := false |}.
Proof.
  split; simpl.
  - by rewrite Z.div_1_r.
  - split; [intros _; apply Z.mod_1_r | done].
Qed.

Lemma shr_fexp_exact (m e : Z) :
  0 <= m →
  ∃ r n, shr_fexp prec emax m e loc_Exact = (r, e + n)
         ∧ 0 <= n ∧ shifted m n r
         ∧ (n = 0 ∨ e + n = fexp prec emax (Zdigits2 m + e)).
Proof.
  intros Hm. unfold shr_fexp, shr. simpl shr_record_of_loc.
  destruct (fexp prec emax (Zdigits2 m + e) - e) as [|p|p] eqn:Hd.
  - eexists _, 0. rewrite Z.add_0_r.
    split; [done|]. split; [lia|]. split; [apply shifted_start | by left].
  - eexists _, (Zpos p).
    split; [done|]. split; [lia|]. split; [|right; lia].
    apply (shifted_iter m p Hm 0); [lia | apply shifted_start].
  - eexists _, 0. rewrite Z.add_0_r.
    split; [done|]. split; [lia|]. split; [apply shifted_start | by left].
Qed.

Lemma fexp_nonpos (m e : Z) :
  0 <= m → e <= 0 → m <= 255 * 2 ^ (- e) →
  fexp prec emax (Zdigits2 m + e) <= 0.
Proof.
  intros Hm He Hb. unfold fexp, emin, prec, emax.
  destruct m as [|p|p]; simpl Zdigits2; [lia| |lia].
  pose proof (digits2_pos_bounds p) as [Hlo _].
  assert (H8 : 255 * 2 ^ (- e) < 2 ^ (8 - e)).
  { replace (8 - e) with (8 + - e) by lia. rewrite Z.pow_add_r by lia.
    assert (0 < 2 ^ (- e)) by (apply Z.pow_pos_nonneg; lia).
    change (2 ^ 8) with 256. lia. }
  assert (Hlt : Zpos (digits2_pos p) - 1 < 8 - e).
  { apply (Z.pow_lt_mono_r_iff 2); lia. }
  lia.
Qed.

(** One normalisation step keeps a value that is at most 255 at most
    255, and strictly below when bits were shifted out. *)
Lemma shr_fexp_le (m e : Z) :
  0 <= m → e <= 0 → m <= 255 * 2 ^ (- e) →
  ∃ r e', shr_fexp prec emax m e loc_Exact = (r, e')
          ∧ e' <= 0
          ∧ 0 <= shr_m r <= 255 * 2 ^ (- e')
          ∧ (orb (shr_r r) (shr_s r) = true → shr_m r < 255 * 2 ^ (- e'))
          ∧ (orb (shr_r r) (shr_s r) = false → m = 0 → shr_m r = 0).
Proof.
  intros Hm He Hb.
  destruct (shr_fexp_exact m e Hm) as (r & n & Heq & Hn & [Hq Hrs] & Hf).
  exists r, (e + n). split; [done|].
  assert (He' : e + n <= 0).
  { destruct Hf as [->| ->]; [lia|]. by apply fexp_nonpos. }
  split; [done|].
  assert (Hpn : 0 < 2 ^ n) by (apply Z.pow_pos_nonneg; lia).
  assert (Hpe : 0 < 2 ^ (- (e + n))) by (apply Z.pow_pos_nonneg; lia).
  assert (Hsplit : 2 ^ (- e) = 2 ^ (- (e + n)) * 2 ^ n).
  { rewrite <- Z.pow_add_r by lia. f_equal. lia. }
  rewrite Hsplit in Hb.
  pose proof (Z.div_mod m (2 ^ n) ltac:(lia)) as Hdm.
  pose proof (Z.mod_pos_bound m (2 ^ n) Hpn) as Hmod.
  rewrite <- Hq in Hdm.
  assert (Hle : shr_m r <= 255 * 2 ^ (- (e + n))) by nia.
  repeat split.
  - rewrite Hq. apply Z.div_pos; lia.
  - done.
  - intros Hrs'. destruct (decide (m mod 2 ^ n = 0)) as [H0|H0].
    + apply Hrs in H0. congruence.
    + nia.
  - intros _ ->. rewrite Hq. apply Z.div_0_l. lia.
Qed.

Lemma round_nearest_even_le (r : shr_record) (K : Z) :
  0 <= shr_m r <= K →
  (orb (shr_r r) (shr_s r) = true → shr_m r < K) →
  0 <= round_nearest_even (shr_m r) (loc_of_shr_record r) <= K.
Proof.
  destruct r as [q [|] [|]]; simpl; intros Hq Hlt;
    try destruct (Z.even q); try specialize (Hlt eq_refl); lia.
Qed.

(** Rounding a non-negative value that is at most 255 to binary32 gives
    a float whose integer part is in [0, 255]. *)
Lemma binary_round_aux_le (M E : Z) :
  0 <= M → E <= 0 → M <= 255 * 2 ^ (- E) →
  ∃ z, trunc (binary_round_aux prec emax false M E loc_Exact) = Some z
       ∧ 0 <= z <= 255.
Proof.
  intros HM HE Hb. unfold binary_round_aux.
  destruct (shr_fexp_le M E HM HE Hb) as (r1 & e1 & -> & He1 & Hq1 & Hlt1 & _).
  pose proof (round_nearest_even_le r1 _ Hq1 Hlt1) as Hm1.
  destruct (shr_fexp_le _ e1 (proj1 Hm1) He1 (proj2 Hm1))
    as (r2 & e2 & -> & He2 & Hq2 & _ & _).
  destruct (shr_m r2) as [|p|p] eqn:Hp; [exists 0; split; [reflexivity | lia] | | lia].
  replace (e2 <=? emax - prec) with true
    by (symmetry; apply Z.leb_le; unfold emax, prec; lia).
  simpl trunc. destruct e2 as [|pe|pe]; [ | lia | ].
  - exists (Zpos p * 2 ^ 0). split; [done|]. simpl in *. lia.
  - exists (Zpos p / 2 ^ Zpos pe). split; [done|].
    assert (0 < 2 ^ Zpos pe) by (apply Z.pow_pos_nonneg; lia).
    change (- Zneg pe) with (Zpos pe) in Hq2. split.
    + apply Z.div_pos; lia.
    + apply Z.div_le_upper_bound; lia.
Qed.

(** A valid binary32 number below 1.0, as mantissa and exponent. *)
Lemma below_one_bound (m : positive) (e : Z) :
  valid (S754_finite false m e) = true →
  SFltb (S754_finite false m e) one = true →
  e <= 0 ∧ Zpos m <= 2 ^ (- e).
Proof.
  unfold valid, valid_binary, bounded, canonical_mantissa, fexp, emin, prec, emax.
  intros [Hc _]%andb_true_iff Hlt. apply Z.eqb_eq in Hc.
  pose proof (digits2_pos_bounds m) as [_ Hhi].
  assert (Hd : Zpos (digits2_pos m) <= 24) by lia.
  assert (H24 : Zpos m < 2 ^ 24).
  { eapply Z.lt_le_trans; [exact Hhi|]. apply Z.pow_le_mono_r; lia. }
  change one with (S754_finite false 8388608 (-23)) in Hlt.
  unfold SFltb, SFcompare in Hlt.
  destruct (Z.compare_spec e (-23)) as [->|He|He]; try discriminate.
  - split; [lia|]. change (2 ^ (- -23)) with 8388608.
    destruct (Pos.compare_cont Eq m 8388608) eqn:Hcmp; try discriminate.
    assert (Hm : Zpos m < 8388608) by exact Hcmp.
    lia.
  - split; [lia|]. apply Z.lt_le_incl. eapply Z.lt_le_trans; [exact H24|].
    apply Z.pow_le_mono_r; lia.
Qed.

(** The three shapes of a clamped element. *)
Lemma sanitized_cases (x : spec_float) :
  sanitized x = zero ∨ sanitized x = one
  ∨ ∃ m e, x = S754_finite false m e ∧ sanitized x = x ∧ SFltb x one = true.
Proof.
  destruct x as [s|[|]| |[|] m e].
  - left. by destruct s.
  - left. vm_compute. reflexivity.
  - right; left. vm_compute. reflexivity.
  - left. reflexivity.
  - left. reflexivity.
  - unfold sanitized, clip; simpl nan_to_num.
    change (npy_max (S754_finite false m e) zero) with (S754_finite false m e).
    unfold npy_min; simpl isnan.
    destruct (SFltb (S754_finite false m e) one) eqn:Hlt.
    + right; right. by exists m, e.
    + right; left; reflexivity.
Qed.

Lemma mul255_trunc (x : spec_float) :
  valid x = true →
  ∃ z, trunc (mul255 (sanitized x)) = Some z ∧ 0 <= z <= 255.
Proof.
  intros Hv. destruct (sanitized_cases x) as [-> | [-> | (m & e & -> & -> & Hlt)]].
  - exists 0. split; [reflexivity | lia].
  - exists 255. split; [vm_compute; reflexivity | lia].
  - destruct (below_one_bound m e Hv Hlt) as [He Hm].
    unfold mul255. change (of_Z 255) with (S754_finite false 16711680 (-16)).
    simpl SFmul. apply binary_round_aux_le; [lia | lia |].
    rewrite Pos2Z.inj_mul. replace (- (e + -16)) with (- e + 16) by lia.
    rewrite Z.pow_add_r by lia. change (2 ^ 16) with 65536.
    assert (0 < 2 ^ (- e)) by (apply Z.pow_pos_nonneg; lia). nia.
Qed.

Lemma sanitized_unit_range (x : spec_float) :
  SFleb zero (sanitized x) = true ∧ SFleb (sanitized x) one = true.
Proof.
  destruct (sanitized_cases x) as [-> | [-> | (m & e & -> & -> & Hlt)]].
  - split; reflexivity.
  - split; reflexivity.
  - split; [reflexivity|]. unfold SFltb in Hlt. unfold SFleb.
    destruct (SFcompare (S754_finite false m e) one) as [[| |]|]; done.
Qed.

Lemma quantize_spec_agree (x : spec_float) :
  x ≠ S754_infinity false → quantize x = spec_quantize x.
Proof.
  destruct x as [s|[|]| |s m e]; intros Hx.
  - reflexivity.
  - vm_compute. reflexivity.
  - done.
  - reflexivity.
  - reflexivity.
Qed.
End Float32Facts.

(** ** The decoder *)

Section DecoderFacts.
Import PyStr Decoder.

Lemma first3_length_eq (nch npix : nat) (d d' : list Z) :
  length d = length d' → length (first3 nch npix d) = length (first3 nch npix d').
Proof.
  revert d d'. induction npix as [|k IH]; intros d d' Hlen; [done|].
  simpl. rewrite !length_app, !length_take, Hlen. f_equal.
  apply IH. by rewrite !length_drop, Hlen.
Qed.

Lemma first3_length (nch npix : nat) (d : list Z) :
  3 ≤ nch → length d = npix * nch → length (first3 nch npix d) = npix * 3.
Proof.
  intros Hn. revert d. induction npix as [|k IH]; intros d Hlen; [done|].
  simpl. rewrite length_app, length_take, IH by (rewrite length_drop; lia). lia.
Qed.

(** Channel [c < 3] of pixel [k] survives the slice, at its new offset. *)
Lemma first3_lookup (nch npix : nat) (d : list Z) (k c : nat) :
  3 ≤ nch → length d = npix * nch → k < npix → c < 3 →
  first3 nch npix d !! (k * 3 + c) = d !! (k * nch + c).
Proof.
  intros Hn. revert d k. induction npix as [|n IH]; intros d k Hlen Hk Hc; [lia|].
  simpl. destruct k as [|k].
  - simpl. rewrite lookup_app_l by (rewrite length_take; lia).
    by rewrite lookup_take_lt.
  - rewrite lookup_app_r by (rewrite length_take; lia).
    rewrite length_take.
    replace (S k * 3 + c - 3 `min` length d) with (k * 3 + c) by lia.
    rewrite IH by (rewrite ?length_drop; lia).
    rewrite lookup_drop. f_equal. lia.
Qed.

Lemma run_kind_length (path : pystr) (spec : ImageSpec) (img img' : list spec_float) :
  length img = length img' →
  kind_of (run path (image spec img)) = kind_of (run path (image spec img')).
Proof.
  intros Hlen. unfold run, reshape, to_pixmap.
  rewrite !length_fmap, Hlen.
  destruct (nchannels spec =? 1).
  - by destruct (length img' =? _).
  - by destruct (length img' =? _).
Qed.

Lemma run_grayscale (path : pystr) (spec : ImageSpec) (img : list spec_float) :
  nchannels spec = 1 → length img = height spec * width spec →
  run path (image spec img)
  = finished path
      (scaled_220 {| format := Format_Grayscale8;
                     qwidth := width spec; qheight := height spec;
                     bits := Float32.quantize <$> img; overread := 0 |})
      (info_text_of spec).
Proof.
  intros Hn Hlen. unfold run, reshape. rewrite Hn. simpl.
  rewrite length_fmap, Hlen, Nat.mul_1_r, Nat.eqb_refl.
  unfold to_pixmap, QImage_copy. rewrite length_fmap, Hlen, Nat.sub_diag.
  rewrite take_ge by (rewrite length_fmap; lia). done.
Qed.

Lemma run_rgb (path : pystr) (spec : ImageSpec) (img : list spec_float) :
  3 ≤ nchannels spec →
  length img = height spec * width spec * nchannels spec →
  run path (image spec img)
  = finished path
      (scaled_220 {| format := Format_RGB888;
                     qwidth := width spec; qheight := height spec;
                     bits := first3 (nchannels spec) (height spec * width spec)
                               (Float32.quantize <$> img);
                     overread := 0 |})
      (info_text_of spec).
Proof.
  intros Hn Hlen. unfold run, reshape.
  destruct (nchannels spec =? 1) eqn:H1; [apply Nat.eqb_eq in H1; lia|].
  simpl foldr. rewrite length_fmap, Hlen, Nat.mul_1_r, Nat.mul_assoc, Nat.eqb_refl.
  replace (3 <=? nchannels spec) with true by (symmetry; apply Nat.leb_le; lia).
  unfold to_pixmap, QImage_copy.
  rewrite first3_length by (rewrite ?length_fmap; lia).
  replace (height spec * (width spec * 3) - height spec * width spec * 3) with 0 by lia.
  rewrite take_ge; [done|].
  rewrite first3_length by (rewrite ?length_fmap; lia). lia.
Qed.


(** [run] always emits exactly one of the two signals, for its own
    path. *)
Lemma run_signal_path (path : pystr) (o : opened) :
  Browser.signal_path (run path o) = path.
Proof.
  unfold run, to_pixmap. destruct o as [e|spec img]; [done|].
  destruct (nchannels spec =? 1); by destruct (reshape _ _).
Qed.

Lemma error_message_short (path : pystr) (o : opened) (p msg : pystr) :
  run path o = error p msg → p = path ∧ length msg ≤ 30.
Proof.
  unfold run, to_pixmap. destruct o as [e|spec img].
  - intros [= <- <-]. split; [done|]. rewrite length_take. lia.
  - destruct (nchannels spec =? 1).
    + destruct (reshape _ _) as [e|d]; [|done].
      intros [= <- <-]. split; [done|]. rewrite length_take. lia.
    + destruct (reshape _ _) as [e|d]; [|done].
      intros [= <- <-]. split; [done|]. rewrite length_take. lia.
Qed.
End DecoderFacts.

(** ** The scene *)

Section HouFacts.
Import PyStr Hou.

Lemma set_parm_type (n : node) (name : pystr) (v : parm_value) :
  type_name (set_parm n name v) = type_name n.
Proof. unfold set_parm. by destruct (parms n !! name). Qed.

Lemma set_parm_lookup (n : node) (name : pystr) (v old : parm_value) :
  parms n !! name = Some old → parms (set_parm n name v) !! name = Some v.
Proof. unfold set_parm. intros ->. simpl. apply lookup_insert_eq. Qed.

Lemma find_envlight_insert (children : list node) (i : nat) (n n' : node) :
  find_envlight children = Some (i, n) →
  type_name n' = type_name n →
  find_envlight (<[i := n']> children) = Some (i, n').
Proof.
  unfold find_envlight. intros (Hi & Hn & Hbefore)%list_find_Some Hty.
  apply list_find_Some. split; [|split].
  - apply list_lookup_insert_eq. by eapply lookup_lt_Some.
  - by rewrite Hty.
  - intros j y Hj Hlt. rewrite list_lookup_insert_ne in Hj by lia. eauto.
Qed.

Lemma count_insert_same_type (children : list node) (i : nat) (n n' : node) :
  children !! i = Some n → type_name n' = type_name n →
  length (filter (λ n, type_name n = py "envlight") (<[i := n']> children))
  = length (filter (λ n, type_name n = py "envlight") children).
Proof.
  revert i. induction children as [|c children IH]; intros i Hi Hty; [done|].
  destruct i as [|i]; simpl in *.
  - injection Hi as ->. rewrite !filter_cons, Hty. by destruct (decide _).
  - rewrite !filter_cons. destruct (decide _); simpl; by rewrite (IH i).
Qed.

Lemma find_envlight_None (children : list node) :
  find_envlight children = None ↔
  length (filter (λ n, type_name n = py "envlight") children) = 0.
Proof.
  unfold find_envlight. rewrite list_find_None.
  induction children as [|c children IH]; [by split|].
  rewrite Forall_cons, filter_cons. destruct (decide _); simpl.
  - split; [by intros [? _] | lia].
  - rewrite IH. split; [by intros [_ ?] | by split].
Qed.

(** The sliders never add or remove a node. *)
Lemma set_on_envlight_count (name : pystr) (v : parm_value) (sc : scene) :
  count_envlight (set_on_envlight name v sc) = count_envlight sc.
Proof.
  unfold set_on_envlight, count_envlight.
  destruct (obj sc) as [children|] eqn:Hobj; [|by rewrite Hobj].
  destruct (find_envlight children) as [[i env]|] eqn:Hf; [|by rewrite Hobj].
  simpl. apply list_find_Some in Hf as (Hi & _ & _).
  by apply (count_insert_same_type _ _ env), set_parm_type.
Qed.

(** Selecting an image adds a light exactly when there is none. *)
Lemma apply_env_light_count (path : pystr) (sc : scene) :
  count_envlight (_apply_env_light path sc)
  = match obj sc with
    | Some _ => if decide (count_envlight sc = 0) then 1 else count_envlight sc
    | None => 0
    end.
Proof.
  unfold _apply_env_light, count_envlight.
  destruct (obj sc) as [children|] eqn:Hobj; [|by rewrite Hobj].
  destruct (find_envlight children) as [[i env]|] eqn:Hf; simpl.
  - pose proof Hf as (Hi & Hty & _)%list_find_Some.
    rewrite (count_insert_same_type _ _ env) by (done || apply set_parm_type).
    destruct (decide _) as [H0|]; [|done].
    apply find_envlight_None in H0. congruence.
  - apply find_envlight_None in Hf.
    rewrite filter_app, length_app, Hf, filter_cons, set_parm_type. done.
Qed.

Lemma apply_op_count (houdini : bool) (sc : scene) (op : host_op) :
  count_envlight (apply_op houdini sc op)
  = match op with
    | select_image LeftButton _ =>
        if houdini && bool_decide (is_Some (obj sc)) && bool_decide (count_envlight sc = 0)
        then 1 else count_envlight sc
    | _ => count_envlight sc
    end.
Proof.
  destruct op as [button path|value|value]; simpl.
  - unfold mousePressEvent, ENABLE_ENV_LIGHT_CLICK.
    destruct button, houdini; simpl; try done.
    rewrite apply_env_light_count. unfold count_envlight.
    destruct (obj sc) as [children|]; simpl.
    + destruct (decide _); [by rewrite bool_decide_true | by rewrite bool_decide_false].
    + done.
  - unfold apply_rotation. destruct houdini; [apply set_on_envlight_count | done].
  - unfold apply_intensity. destruct houdini; [apply set_on_envlight_count | done].
Qed.

Lemma set_on_envlight_lookup (name : pystr) (v old : parm_value) (sc : scene) :
  envlight_parm name sc = Some old →
  envlight_parm name (set_on_envlight name v sc) = Some v.
Proof.
  unfold envlight_parm, set_on_envlight.
  destruct (obj sc) as [children|] eqn:Hobj; [|done].
  destruct (find_envlight children) as [[i env]|] eqn:Hf; [|done].
  intros Hold. simpl.
  rewrite (find_envlight_insert _ _ env) by (done || apply set_parm_type).
  by eapply set_parm_lookup.
Qed.

Lemma set_on_envlight_absent (name : pystr) (v : parm_value) (sc : scene) :
  count_envlight sc = 0 → set_on_envlight name v sc = sc.
Proof.
  unfold count_envlight, set_on_envlight.
  destruct (obj sc) as [children|] eqn:Hobj; [|done].
  intros H0%find_envlight_None. by rewrite H0.
Qed.

(** [v / 5.0] stays in [0.0, 20.0] for every position of the slider. *)
Lemma intensity_range (v : Z) :
  (0 ≤ v ≤ 100)%Z → in_intensity_range (intensity_value v) = true.
Proof.
  intros Hv.
  assert (Hall : forallb (λ n, in_intensity_range (intensity_value (Z.of_nat n)))
                   (seq 0 101) = true) by (vm_compute; reflexivity).
  rewrite forallb_forall in Hall.
  specialize (Hall (Z.to_nat v)). rewrite Z2Nat.id in Hall by lia.
  apply Hall, in_seq. lia.
Qed.

(** On the multiples of 5 the quotient is the exact integer. *)
Lemma intensity_exact_on_fifths (k : Z) :
  (0 ≤ k ≤ 20)%Z → intensity_value (5 * k) = Float64.of_Z k.
Proof.
  intros Hk.
  assert (Hn : ∃ n, k = Z.of_nat n ∧ n < 21) by (exists (Z.to_nat k); lia).
  destruct Hn as (n & -> & Hn).
  do 21 (destruct n as [|n]; [vm_compute; reflexivity|]). lia.
Qed.
End HouFacts.

(** ** The panel *)

Section BrowserFacts.
Import PyStr Decoder Browser.

Lemma place_cards_spec (folder : pystr) (files : list pystr) :
  ∀ row col s,
    (place_cards folder files row col s).1 = pool_start <$> (join folder <$> files)
    ∧ loaded_count (place_cards folder files row col s).2 = loaded_count s
    ∧ total_count (place_cards folder files row col s).2 = total_count s
    ∧ count_label (place_cards folder files row col s).2 = count_label s
    ∧ count_label_style (place_cards folder files row col s).2 = count_label_style s
    ∧ dom (card_data (place_cards folder files row col s).2)
      = dom (card_data s) ∪ list_to_set (join folder <$> files).
Proof.
  induction files as [|f files IH]; intros row col s.
  - simpl. repeat split; try done. set_solver.
  - simpl. destruct (col + 1 =? 4);
      match goal with |- context [place_cards folder files ?r ?c ?st] =>
        destruct (IH r c st) as (He & Hl & Ht & Hc & Hs & Hd);
        destruct (place_cards folder files r c st) as [e2 s2]
      end; simpl in *; subst e2; rewrite Hl, Ht, Hc, Hs, Hd;
      (repeat split; try done); rewrite dom_insert_L; set_solver.
Qed.

(** What a successful directory check leads to. *)
Lemma load_exrs_dir (w : world) (folder : pystr) (s : EXRBrowser) :
  isdir w folder = true →
  (load_exrs w folder s).1
    = [fs_isdir folder; pool_clear; fs_listdir folder]
      ++ (pool_start <$> listed_paths w folder)
  ∧ loaded_count (load_exrs w folder s).2 = 0
  ∧ total_count (load_exrs w folder s).2 = length (listed_paths w folder)
  ∧ dom (card_data (load_exrs w folder s).2) = list_to_set (listed_paths w folder)
  ∧ (listed_paths w folder ≠ [] →
     count_label (load_exrs w folder s).2
     = loading_text 0 (length (listed_paths w folder))).
Proof.
  intros Hdir. unfold load_exrs, listed_paths. rewrite Hdir. simpl.
  destruct (List.filter is_hdri_name (listdir w folder)) as [|f files] eqn:Hfiles.
  - simpl. repeat split; try done.
  - match goal with |- context [place_cards folder ?fs ?r ?c ?st] =>
      destruct (place_cards_spec folder fs r c st) as (He & Hl & Ht & Hc & _ & Hd);
      destruct (place_cards folder fs r c st) as [e2 s2] eqn:Hp
    end.
    simpl in *. rewrite He, Hl, Ht, Hc, Hd. rewrite length_fmap. simpl.
    repeat split; try done. set_solver.
Qed.

Lemma deliver_unknown (sig : signal) (s : EXRBrowser) :
  card_data s !! signal_path sig = None → deliver sig s = s.
Proof.
  destruct sig; simpl; unfold _on_thumbnail_loaded, _on_thumbnail_error;
    by intros ->.
Qed.

Lemma update_progress_fields (s : EXRBrowser) :
  card_data (_update_progress s) = card_data s
  ∧ loaded_count (_update_progress s) = loaded_count s
  ∧ total_count (_update_progress s) = total_count s
  ∧ thread_pool (_update_progress s) = thread_pool s
  ∧ grid (_update_progress s) = grid s
  ∧ count_label (_update_progress s)
    = if total_count s <=? loaded_count s then loaded_text (total_count s)
      else loading_text (loaded_count s) (total_count s).
Proof. unfold _update_progress. by destruct (_ <=? _). Qed.

(** A result for a card of the table: that card becomes terminal, the
    counter advances by one, nothing else in the table moves. *)
Lemma deliver_known (sig : signal) (s : EXRBrowser) (c : card) :
  card_data s !! signal_path sig = Some c →
  ∃ c', card_data (deliver sig s) = <[signal_path sig := c']> (card_data s)
        ∧ state_of c' = match sig with finished _ _ _ => Loaded | error _ _ => Failed end
        ∧ info c' = match sig with finished _ _ i => i | error _ m => m end
        ∧ loaded_count (deliver sig s) = S (loaded_count s)
        ∧ total_count (deliver sig s) = total_count s
        ∧ thread_pool (deliver sig s) = thread_pool s
        ∧ grid (deliver sig s) = grid s
        ∧ count_label (deliver sig s)
          = if total_count s <=? S (loaded_count s) then loaded_text (total_count s)
            else loading_text (S (loaded_count s)) (total_count s).
Proof.
  destruct sig as [path pix i|path m]; simpl;
    unfold _on_thumbnail_loaded, _on_thumbnail_error; intros ->;
    match goal with |- context [_update_progress ?st] =>
      destruct (update_progress_fields st) as (-> & -> & -> & -> & -> & ->)
    end; simpl; rewrite Nat.add_1_r; eauto 10.
Qed.

Lemma deliver_dom (sig : signal) (s : EXRBrowser) :
  dom (card_data (deliver sig s)) = dom (card_data s)
  ∧ total_count (deliver sig s) = total_count s.
Proof.
  destruct (card_data s !! signal_path sig) as [c|] eqn:Hc.
  - destruct (deliver_known sig s c Hc) as (c' & -> & _ & _ & _ & -> & _).
    split; [|done]. rewrite dom_insert_L.
    assert (signal_path sig ∈ dom (card_data s)) by (apply elem_of_dom; eauto).
    set_solver.
  - by rewrite deliver_unknown.
Qed.

Lemma deliver_all_dom (sigs : list signal) (s : EXRBrowser) :
  dom (card_data (deliver_all sigs s)) = dom (card_data s)
  ∧ total_count (deliver_all sigs s) = total_count s.
Proof.
  revert s. induction sigs as [|sig sigs IH]; intros s; [done|].
  simpl. destruct (IH (deliver sig s)) as [-> ->]. apply deliver_dom.
Qed.

End BrowserFacts.

Section DeliveryFacts.
Import PyStr Decoder Browser.

Lemma deliver_keeps_terminal (sig : signal) (s : EXRBrowser) (p : pystr) (c : card) :
  card_data s !! p = Some c → terminal c →
  ∃ c', card_data (deliver sig s) !! p = Some c' ∧ terminal c'.
Proof.
  intros Hp Hc. destruct (card_data s !! signal_path sig) as [c0|] eqn:H0.
  - destruct (deliver_known sig s c0 H0) as (c' & -> & Hst & _).
    destruct (decide (p = signal_path sig)) as [->|Hne].
    + exists c'. rewrite lookup_insert_eq. split; [done|].
      unfold terminal. rewrite Hst. destruct sig; auto.
    + exists c. by rewrite lookup_insert_ne.
  - rewrite deliver_unknown by done. eauto.
Qed.

Lemma deliver_makes_terminal (sig : signal) (s : EXRBrowser) :
  is_Some (card_data s !! signal_path sig) →
  ∃ c', card_data (deliver sig s) !! signal_path sig = Some c' ∧ terminal c'.
Proof.
  intros [c0 H0]. destruct (deliver_known sig s c0 H0) as (c' & -> & Hst & _).
  exists c'. rewrite lookup_insert_eq. split; [done|].
  unfold terminal. rewrite Hst. destruct sig; auto.
Qed.

Lemma deliver_all_keeps_terminal (sigs : list signal) :
  ∀ s p c, card_data s !! p = Some c → terminal c →
           ∃ c', card_data (deliver_all sigs s) !! p = Some c' ∧ terminal c'.
Proof.
  induction sigs as [|sig sigs IH]; intros s p c Hp Hc; [eauto|].
  destruct (deliver_keeps_terminal sig s p c Hp Hc) as (c1 & Hp1 & Hc1).
  simpl. eauto.
Qed.

Lemma deliver_all_makes_terminal (sigs : list signal) :
  ∀ s p, p ∈ signal_path <$> sigs → is_Some (card_data s !! p) →
         ∃ c', card_data (deliver_all sigs s) !! p = Some c' ∧ terminal c'.
Proof.
  induction sigs as [|sig sigs IH]; intros s p Hin Hp; [by apply elem_of_nil in Hin|].
  rewrite fmap_cons, elem_of_cons in Hin. simpl.
  destruct (decide (p = signal_path sig)) as [->|Hne].
  - destruct (deliver_makes_terminal sig s Hp) as (c1 & Hp1 & Hc1).
    by eapply deliver_all_keeps_terminal.
  - destruct Hin as [?|Hin]; [done|]. apply IH; [done|].
    apply elem_of_dom. rewrite (proj1 (deliver_dom sig s)). by apply elem_of_dom.
Qed.

Lemma deliver_all_counts (sigs : list signal) :
  ∀ s, (∀ sig, sig ∈ sigs → signal_path sig ∈ dom (card_data s)) →
       loaded_count (deliver_all sigs s) = loaded_count s + length sigs
       ∧ (sigs ≠ [] →
          count_label (deliver_all sigs s)
          = progress_text (loaded_count s + length sigs) (total_count s)).
Proof.
  induction sigs as [|sig sigs IH]; intros s Hall.
  - simpl. split; [lia | done].
  - assert (Hsig : is_Some (card_data s !! signal_path sig)).
    { apply elem_of_dom, Hall. by left. }
    destruct Hsig as [c Hc].
    destruct (deliver_known sig s c Hc) as (c' & _ & _ & _ & Hl & Ht & _ & _ & Hlabel).
    destruct (IH (deliver sig s)) as [Hcount Htext].
    { intros sig' Hin. rewrite (proj1 (deliver_dom sig s)). apply Hall. by right. }
    simpl. rewrite Hcount, Hl. split; [lia|]. intros _.
    destruct sigs as [|sig2 sigs].
    + simpl. rewrite Hlabel. unfold progress_text.
      by replace (loaded_count s + 1) with (S (loaded_count s)) by lia.
    + rewrite Htext by done. rewrite Hl, Ht. f_equal. simpl. lia.
Qed.

Lemma loaded_text_not_loading (n k total : nat) : loaded_text n ≠ loading_text k total.
Proof. unfold loaded_text, loading_text. simpl. discriminate. Qed.

Lemma progress_text_done (k n : nat) :
  k ≤ n → (progress_text k n = loaded_text n ↔ k = n).
Proof.
  intros Hk. unfold progress_text. destruct (n <=? k) eqn:Hle.
  - apply Nat.leb_le in Hle. split; [lia | done].
  - apply Nat.leb_gt in Hle. split; [|lia].
    intros Heq. symmetry in Heq. by apply loaded_text_not_loading in Heq.
Qed.
End DeliveryFacts.

(** ** The model on small inputs *)

Example quantize_samples :
  Float32.quantize Examples.half = 127%Z
  ∧ Float32.quantize (S754_finite false 16777215 (-24)) = 254%Z
  ∧ Float32.quantize (Float32.of_Z 3) = 255%Z
  ∧ Float32.quantize (S754_finite true 8388608 (-24)) = 0%Z
  ∧ Float32.quantize S754_nan = 0%Z
  ∧ Float32.quantize (S754_infinity true) = 0%Z.
Proof. repeat split; vm_compute; reflexivity. Qed.

Example four_channels_keep_rgb :
  Decoder.run (PyStr.py "d/a.exr") Examples.rgba_1x1
  = Decoder.finished (PyStr.py "d/a.exr")
      (Decoder.scaled_220
         {| Decoder.format := Decoder.Format_RGB888;
            Decoder.qwidth := 1; Decoder.qheight := 1;
            Decoder.bits := [127; 255; 0]%Z; Decoder.overread := 0 |})
      (PyStr.py "1" ++ [215%N] ++ PyStr.py "1 " ++ [183%N] ++ PyStr.py " 4ch").
Proof. vm_compute. reflexivity. Qed.

Example hdri_names :
  Browser.is_hdri_name (PyStr.py "SKY.EXR") = true
  ∧ Browser.is_hdri_name (PyStr.py "dawn.Hdr") = true
  ∧ Browser.is_hdri_name (PyStr.py "a.exr.bak") = false
  ∧ Browser.is_hdri_name (PyStr.py "exr") = false.
Proof. repeat split; vm_compute; reflexivity. Qed.

Example join_samples :
  PyStr.join (PyStr.py "d") (PyStr.py "a.exr") = PyStr.py "d/a.exr"
  ∧ PyStr.join (PyStr.py "d/") (PyStr.py "a.exr") = PyStr.py "d/a.exr".
Proof. repeat split; vm_compute; reflexivity. Qed.

Example intensity_samples :
  Hou.intensity_value 10 = Float64.of_Z 2
  ∧ Hou.intensity_value 5 = Float64.of_Z 1
  ∧ Hou.intensity_value 7 = S754_finite false 6305039478318694 (-52).
Proof. repeat split; vm_compute; reflexivity. Qed.

(** The scenario of the specification with a one-channel [a.exr]: both
    results applied, the label reads "✓ Loaded 2 HDRI files". *)
Example mixed_folder_end_state :
  Browser.item (PyStr.py "d/a.exr")
    (Browser.deliver_all Examples.mixed_results Examples.loaded_panel)
  = Some Browser.Loaded
  ∧ Browser.item (PyStr.py "d/b.hdr")
      (Browser.deliver_all Examples.mixed_results Examples.loaded_panel)
    = Some Browser.Failed
  ∧ Browser.count_label
      (Browser.deliver_all Examples.mixed_results Examples.loaded_panel)
    = [10003%N] ++ PyStr.py " Loaded 2 HDRI files".
Proof. repeat split; vm_compute; reflexivity. Qed.

(* ================================================================== *)
(** * The claims *)
(* ================================================================== *)

Import PyStr Decoder Browser Runtime Examples.

(** C1, counterexample.  Folder [d] is loaded and then re-opened while
    the worker of the first load for [d/a.exr] is still running.  When
    that worker finishes, its signal belongs to the previous load, yet
    the main thread applies it to the new session: the new card of
    [d/a.exr] goes from [Loading] to [Loaded] and [loaded_count] from 0
    to 1. *)
Lemma stale_result_applied_after_reload :
  ∃ sys sys' sender sig,
    steps reopen_world [user_load (py "d"); user_load (py "d"); worker_done 0]
      (boot reopen_world) = Some sys
    ∧ mailbox sys = [(sender, sig)]
    ∧ stale sys sender
    ∧ item (py "d/a.exr") (ui sys) = Some Loading
    ∧ loaded_count (ui sys) = 0
    ∧ step reopen_world deliver_next sys = Some sys'
    ∧ item (py "d/a.exr") (ui sys') = Some Loaded
    ∧ loaded_count (ui sys') = 1.
Proof.
  eexists _, _, _, _.
  split; [vm_compute; reflexivity|].
  split; [vm_compute; reflexivity|].
  split; [unfold stale; vm_compute; lia|].
  split; [vm_compute; reflexivity|].
  split; [vm_compute; reflexivity|].
  split; [vm_compute; reflexivity|].
  split; vm_compute; reflexivity.
Qed.

(** C1, as the code has it.  After a folder was re-opened, a result
    whose path is not one of the paths listed by the new load is
    discarded, whenever it arrives before the next load: the panel (card
    table, counters, status label) is exactly what it was.  The handlers
    filter by path, not by load. *)
Theorem unlisted_result_discarded (w : world) (folder : pystr) (s0 : EXRBrowser)
    (sig : signal) (earlier : list signal) :
  isdir w folder = true →
  signal_path sig ∉ listed_paths w folder →
  deliver sig (deliver_all earlier (load_exrs w folder s0).2)
  = deliver_all earlier (load_exrs w folder s0).2.
Proof.
  intros Hdir Hnot. apply deliver_unknown, not_elem_of_dom.
  rewrite (proj1 (deliver_all_dom _ _)).
  destruct (load_exrs_dir w folder s0 Hdir) as (_ & _ & _ & -> & _).
  by rewrite elem_of_list_to_set.
Qed.

Lemma unlisted_result_discarded_witness :
  isdir two_folders (py "d2") = true
  ∧ (signal_path (error (py "d1/a.exr") (py "late")) ∉ listed_paths two_folders (py "d2"))
  ∧ (deliver (error (py "d1/a.exr") (py "late"))
       (deliver_all [] (load_exrs two_folders (py "d2")
                          (load_exrs two_folders (py "d1") (init two_folders)).2).2)
     = deliver_all [] (load_exrs two_folders (py "d2")
                         (load_exrs two_folders (py "d1") (init two_folders)).2).2).
Proof.
  assert (H1 : isdir two_folders (py "d2") = true) by reflexivity.
  assert (H2 : signal_path (error (py "d1/a.exr") (py "late"))
               ∉ listed_paths two_folders (py "d2")).
  { apply (bool_decide_unpack _). vm_compute. reflexivity. }
  split; [exact H1|]. split; [exact H2|].
  exact (unlisted_result_discarded two_folders (py "d2") _ _ [] H1 H2).
Defined.

(** C2, counterexample.  On a +inf sample the decoder does not do what
    the claim says: [np.nan_to_num] turns +inf into the largest finite
    float, which clamps to 1.0 and quantizes to 255, where replacing it
    by 0 would give 0. *)
Lemma positive_infinity_becomes_white :
  Float32.nan_to_num (S754_infinity false) = Float32.finfo_max
  ∧ Float32.quantize (S754_infinity false) = 255%Z
  ∧ Float32.spec_quantize (S754_infinity false) = 0%Z.
Proof. repeat split; vm_compute; reflexivity. Qed.

(** C2, as the code has it.  For every decoded array of float32 values,
    NaN, infinities and out-of-range values included: each element is
    clamped into [0.0, 1.0]; multiplied by 255 it is a finite float
    whose integer part lies in [0, 255], so the cast to uint8 neither
    wraps nor meets a NaN, and that integer part is the output byte; the
    byte is the one the claim describes (NaN and -inf give 0), except
    for +inf, which gives 255; and whether [run] ends in [finished] or
    in [error] does not depend on the pixel values (it is the same as
    for an all-zero array of that size). *)
Theorem sanitize_quantize_bounds (path : pystr) (spec : ImageSpec)
    (img : list spec_float) :
  Forall (λ x, Float32.valid x = true) img →
  Forall (λ x,
      SFleb Float32.zero (Float32.sanitized x) = true
      ∧ SFleb (Float32.sanitized x) Float32.one = true
      ∧ (∃ z, Float32.trunc (Float32.mul255 (Float32.sanitized x)) = Some z
              ∧ (0 ≤ z ≤ 255)%Z ∧ Float32.quantize x = z)
      ∧ Float32.quantize x
        = match x with
          | S754_infinity false => 255%Z
          | _ => Float32.spec_quantize x
          end) img
  ∧ kind_of (run path (image spec img))
    = kind_of (run path (image spec (replicate (length img) Float32.zero))).
Proof.
  intros Hvalid. split.
  - eapply Forall_impl; [exact Hvalid|]. intros x Hx. simpl in Hx.
    destruct (sanitized_unit_range x) as [Hlo Hhi].
    destruct (mul255_trunc x Hx) as (z & Hz & Hrange).
    repeat split; try done.
    + exists z. repeat split; try done; try lia.
      unfold Float32.quantize, Float32.astype_uint8. rewrite Hz.
      apply Z.mod_small. lia.
    + destruct x as [s|[|]| |s m e]; try (by apply quantize_spec_agree).
      vm_compute. reflexivity.
  - apply run_kind_length. by rewrite length_replicate.
Qed.

Lemma sanitize_quantize_bounds_witness :
  Forall (λ x, Float32.valid x = true)
    [half; S754_nan; S754_infinity false; S754_infinity true; Float32.of_Z 3]
  ∧ (Forall (λ x,
        SFleb Float32.zero (Float32.sanitized x) = true
        ∧ SFleb (Float32.sanitized x) Float32.one = true
        ∧ (∃ z, Float32.trunc (Float32.mul255 (Float32.sanitized x)) = Some z
                ∧ (0 ≤ z ≤ 255)%Z ∧ Float32.quantize x = z)
        ∧ Float32.quantize x
          = match x with
            | S754_infinity false => 255%Z
            | _ => Float32.spec_quantize x
            end)
       [half; S754_nan; S754_infinity false; S754_infinity true; Float32.of_Z 3]
     ∧ kind_of (run (py "a.exr")
                  (image {| width := 5; height := 1; nchannels := 1 |}
                     [half; S754_nan; S754_infinity false; S754_infinity true;
                      Float32.of_Z 3]))
       = kind_of (run (py "a.exr")
                    (image {| width := 5; height := 1; nchannels := 1 |}
                       (replicate
                          (length [half; S754_nan; S754_infinity false;
                                   S754_infinity true; Float32.of_Z 3])
                          Float32.zero)))).
Proof.
  assert (Hv : Forall (λ x, Float32.valid x = true)
                 [half; S754_nan; S754_infinity false; S754_infinity true;
                  Float32.of_Z 3])
    by (repeat constructor).
  split; [exact Hv|].
  exact (sanitize_quantize_bounds (py "a.exr")
           {| width := 5; height := 1; nchannels := 1 |} _ Hv).
Defined.



(** The counters, the card states and the label after the first [k]
    of the results of a load, with the label as [_update_progress]
    names it. *)
Lemma results_applied_progress (w : world) (folder : pystr) (s0 : EXRBrowser)
    (results : list signal) :
  isdir w folder = true →
  signal_path <$> results ≡ₚ listed_paths w folder →
  let N := length (listed_paths w folder) in
  let s := (load_exrs w folder s0).2 in
  (loaded_count (deliver_all results s) = N
   ∧ total_count (deliver_all results s) = N
   ∧ ∀ p c, card_data (deliver_all results s) !! p = Some c → terminal c)
  ∧ (∀ p, p ∈ listed_paths w folder ↔ is_Some (card_data (deliver_all results s) !! p))
  ∧ ∀ k, 0 < N → k ≤ N →
      loaded_count (deliver_all (take k results) s) = k
      ∧ total_count (deliver_all (take k results) s) = N
      ∧ (count_label (deliver_all (take k results) s) = loaded_text N ↔ k = N)
      ∧ (k < N →
         count_label (deliver_all (take k results) s) = loading_text k N).
Proof.
  intros Hdir Hperm N s.
  destruct (load_exrs_dir w folder s0 Hdir) as (_ & Hl & Ht & Hd & Hlabel).
  fold s in Hl, Ht, Hd, Hlabel. fold N in Ht, Hlabel.
  assert (Hlen : length results = N).
  { unfold N. rewrite <- Hperm. by rewrite length_fmap. }
  assert (Hknown : ∀ sigs, sigs ⊆ results →
                    ∀ sig, sig ∈ sigs → signal_path sig ∈ dom (card_data s)).
  { intros sigs Hsub sig Hin. rewrite Hd, elem_of_list_to_set, <- Hperm.
    apply list_elem_of_fmap. exists sig. split; [done|]. by apply Hsub. }
  split; [|split].
  - destruct (deliver_all_counts results s (Hknown results (reflexivity _))) as [Hc _].
    rewrite Hc, Hl, (proj2 (deliver_all_dom results s)), Ht, Hlen.
    repeat split; try done.
    intros p c Hp.
    assert (Hin : p ∈ dom (card_data s)).
    { rewrite <- (proj1 (deliver_all_dom results s)). apply elem_of_dom. eauto. }
    destruct (deliver_all_makes_terminal results s p) as (c' & Hp' & Hc').
    + rewrite Hperm. by rewrite Hd, elem_of_list_to_set in Hin.
    + by apply elem_of_dom.
    + congruence.
  - intros p. rewrite <- elem_of_dom, (proj1 (deliver_all_dom results s)), Hd.
    by rewrite elem_of_list_to_set.
  - intros k HN Hk.
    assert (Hsub : take k results ⊆ results) by apply subseteq_take.
    destruct (deliver_all_counts (take k results) s (Hknown _ Hsub)) as [Hc Htext].
    rewrite length_take, Hl in Hc, Htext.
    replace (k `min` length results) with k in Hc, Htext by lia.
    rewrite Hc, (proj2 (deliver_all_dom _ s)), Ht. simpl in Htext.
    split; [done|]. split; [done|].
    destruct k as [|k].
    + rewrite take_0. simpl. rewrite Hlabel.
      * split; [|done]. split; [|lia].
        intros Heq. symmetry in Heq. by apply loaded_text_not_loading in Heq.
      * intros Hnil. unfold N in HN. rewrite Hnil in HN. simpl in HN. lia.
    + rewrite Htext, Ht.
      * split; [by apply progress_text_done|].
        intros Hlt. unfold progress_text.
        by replace (N <=? S k) with false by (symmetry; apply Nat.leb_gt; lia).
      * destruct results; [simpl in Hlen; lia | done].
Qed.

(** C4, counterexample (the label at N = 0).  A folder without matching
    files: all (zero) results have been applied and
    [loaded_count = total_count = 0], yet the label reads
    "No HDRI files found", not the success summary. *)
Theorem empty_folder_label_is_not_summary :
  isdir text_folder (py "docs") = true
  ∧ listed_paths text_folder (py "docs") = []
  ∧ loaded_count (deliver_all [] (load_exrs text_folder (py "docs") (init text_folder)).2)
    = 0
  ∧ total_count (deliver_all [] (load_exrs text_folder (py "docs") (init text_folder)).2)
    = 0
  ∧ count_label (deliver_all [] (load_exrs text_folder (py "docs") (init text_folder)).2)
    = py "No HDRI files found"
  ∧ count_label (deliver_all [] (load_exrs text_folder (py "docs") (init text_folder)).2)
    ≠ [10003%N] ++ py " Loaded 0 HDRI files".
Proof.
  split; [reflexivity|]. split; [vm_compute; reflexivity|].
  split; [vm_compute; reflexivity|]. split; [vm_compute; reflexivity|].
  split; [vm_compute; reflexivity|].
  intros H. vm_compute in H. discriminate H.
Qed.

(** C4, as the code has it.  A folder load lists N matching files; the
    N results, one per listed path, arrive in any order.  After all of
    them: [loaded_count = total_count = N], the items are exactly the
    listed paths and each is [Loaded] or [Failed].  For N = 0 the label
    reads "No HDRI files found".  For N > 0, after the first k results
    (0 <= k <= N): [loaded_count = k], and the label is the summary
    "(check mark) Loaded N HDRI file(s)" exactly when k = N and the
    running text "Loading k/N HDRI files..." while k < N. *)
Theorem all_results_applied (w : world) (folder : pystr) (s0 : EXRBrowser)
    (results : list signal) :
  isdir w folder = true →
  signal_path <$> results ≡ₚ listed_paths w folder →
  let N := length (listed_paths w folder) in
  let s := (load_exrs w folder s0).2 in
  (loaded_count (deliver_all results s) = N
   ∧ total_count (deliver_all results s) = N
   ∧ ∀ p c, card_data (deliver_all results s) !! p = Some c → terminal c)
  ∧ (∀ p, p ∈ listed_paths w folder ↔ is_Some (card_data (deliver_all results s) !! p))
  ∧ (N = 0 → count_label (deliver_all results s) = py "No HDRI files found")
  ∧ ∀ k, 0 < N → k ≤ N →
      loaded_count (deliver_all (take k results) s) = k
      ∧ total_count (deliver_all (take k results) s) = N
      ∧ (count_label (deliver_all (take k results) s)
         = [10003%N] ++ py " Loaded " ++ str_of_nat N ++ py " HDRI file"
           ++ (if N =? 1 then [] else py "s")
         ↔ k = N)
      ∧ (k < N →
         count_label (deliver_all (take k results) s)
         = py "Loading " ++ str_of_nat k ++ py "/" ++ str_of_nat N
           ++ py " HDRI files...").
Proof.
  intros Hdir Hperm N s.
  destruct (results_applied_progress w folder s0 results Hdir Hperm)
    as (Hall & Hitems & Hprogress).
  split; [exact Hall|]. split; [exact Hitems|]. split; [|exact Hprogress].
  intros HN. unfold N in HN. apply length_zero_iff_nil in HN.
  rewrite HN in Hperm. apply Permutation_nil_r in Hperm.
  apply fmap_nil_inv in Hperm. subst results. simpl.
  unfold s, load_exrs. rewrite Hdir. simpl.
  unfold listed_paths in HN. apply fmap_nil_inv in HN. by rewrite HN.
Qed.

Lemma all_results_applied_witness :
  isdir mixed_folder (py "d") = true
  ∧ (signal_path <$> mixed_results ≡ₚ listed_paths mixed_folder (py "d"))
  ∧ loaded_count (deliver_all mixed_results loaded_panel) = 2
  ∧ count_label (deliver_all (take 1 mixed_results) loaded_panel)
    = py "Loading 1/2 HDRI files..."
  ∧ count_label (deliver_all (take 2 mixed_results) loaded_panel)
    = [10003%N] ++ py " Loaded 2 HDRI files".
Proof.
  assert (H1 : isdir mixed_folder (py "d") = true) by reflexivity.
  assert (H2 : signal_path <$> mixed_results ≡ₚ listed_paths mixed_folder (py "d"))
    by (vm_compute; reflexivity).
  destruct (all_results_applied mixed_folder (py "d") (init mixed_folder) mixed_results
              H1 H2) as ((Hl & _) & _ & _ & Hk).
  split; [exact H1|]. split; [exact H2|]. split; [exact Hl|].
  split.
  - exact (proj2 (proj2 (proj2 (Hk 1 ltac:(vm_compute; lia) ltac:(vm_compute; lia))))
             ltac:(vm_compute; lia)).
  - exact (proj2 (proj1 (proj2 (proj2 (Hk 2 ltac:(vm_compute; lia)
                                         ltac:(vm_compute; lia)))))
             eq_refl).
Defined.

(** C5.  With the slider values in their ranges (0 <= v <= 100,
    -360 <= r <= 360) and an environment light present: the intensity
    handler leaves [light_intensity] at exactly [v / 5.0], a float in
    [0.0, 20.0] (the exact integer k at v = 5 k, so 0.0 at v = 0 and
    20.0 at v = 100), and the rotation handler leaves [ry] at exactly r.  Neither handler ever changes the number
    of lights, and without a light, or without Houdini, the scene is
    returned as it was. *)
Theorem sliders_drive_existing_light (houdini : bool) (v r : Z)
    (panel : EXRBrowser) (sc : Hou.scene) :
  (0 ≤ v ≤ 100)%Z → (-360 ≤ r ≤ 360)%Z →
  ((∀ old, Hou.envlight_parm (py "light_intensity") sc = Some old →
      Hou.envlight_parm (py "light_intensity") (on_intensity_changed true v (panel, sc)).2
      = Some (Hou.parm_float (Float64.truediv (Float64.of_Z v) (Float64.of_Z 5))))
   ∧ Hou.in_intensity_range (Float64.truediv (Float64.of_Z v) (Float64.of_Z 5)) = true
   ∧ (∀ k, (0 ≤ k ≤ 20)%Z →
        Float64.truediv (Float64.of_Z (5 * k)) (Float64.of_Z 5) = Float64.of_Z k))
  ∧ (∀ old, Hou.envlight_parm (py "ry") sc = Some old →
       Hou.envlight_parm (py "ry") (on_location_changed true r (panel, sc)).2
       = Some (Hou.parm_int r))
  ∧ (Hou.count_envlight (on_intensity_changed houdini v (panel, sc)).2
     = Hou.count_envlight sc
     ∧ Hou.count_envlight (on_location_changed houdini r (panel, sc)).2
       = Hou.count_envlight sc)
  ∧ (Hou.count_envlight sc = 0 ∨ houdini = false →
     (on_intensity_changed houdini v (panel, sc)).2 = sc
     ∧ (on_location_changed houdini r (panel, sc)).2 = sc).
Proof.
  intros Hv Hr. split; [|split; [|split]].
  - split; [|split].
    + intros old Hold. simpl. by eapply set_on_envlight_lookup.
    + by apply intensity_range.
    + apply intensity_exact_on_fifths.
  - intros old Hold. simpl. by eapply set_on_envlight_lookup.
  - simpl. unfold Hou.apply_intensity, Hou.apply_rotation.
    destruct houdini; [|done]. by rewrite !set_on_envlight_count.
  - simpl. unfold Hou.apply_intensity, Hou.apply_rotation.
    intros [H0| ->]; [|done]. destruct houdini; [|done].
    by rewrite !set_on_envlight_absent.
Qed.

Lemma sliders_drive_existing_light_witness :
  (0 ≤ 10 ≤ 100)%Z ∧ (-360 ≤ 90 ≤ 360)%Z
  ∧ Hou.envlight_parm (py "light_intensity") lit_scene
    = Some (Hou.parm_float (Float64.of_Z 1))
  ∧ Hou.envlight_parm (py "ry") lit_scene = Some (Hou.parm_int 0)
  ∧ Hou.envlight_parm (py "light_intensity")
      (on_intensity_changed true 10 (loaded_panel, lit_scene)).2
    = Some (Hou.parm_float (Float64.truediv (Float64.of_Z 10) (Float64.of_Z 5)))
  ∧ Hou.in_intensity_range (Float64.truediv (Float64.of_Z 10) (Float64.of_Z 5)) = true
  ∧ Hou.envlight_parm (py "ry") (on_location_changed true 90 (loaded_panel, lit_scene)).2
    = Some (Hou.parm_int 90)
  ∧ Hou.count_envlight (on_intensity_changed true 10 (loaded_panel, lit_scene)).2
    = Hou.count_envlight lit_scene
  ∧ Hou.count_envlight (on_location_changed true 90 (loaded_panel, lit_scene)).2
    = Hou.count_envlight lit_scene.
Proof.
  assert (H1 : (0 ≤ 10 ≤ 100)%Z) by lia.
  assert (H2 : (-360 ≤ 90 ≤ 360)%Z) by lia.
  assert (H3 : Hou.envlight_parm (py "light_intensity") lit_scene
               = Some (Hou.parm_float (Float64.of_Z 1))) by (vm_compute; reflexivity).
  assert (H4 : Hou.envlight_parm (py "ry") lit_scene = Some (Hou.parm_int 0))
    by (vm_compute; reflexivity).
  destruct (sliders_drive_existing_light true 10 90 loaded_panel lit_scene H1 H2)
    as ((Hi & Hrange & _) & Hry & (Hc1 & Hc2) & _).
  split; [exact H1|]. split; [exact H2|]. split; [exact H3|]. split; [exact H4|].
  split; [exact (Hi _ H3)|]. split; [exact Hrange|]. split; [exact (Hry _ H4)|].
  split; [exact Hc1 | exact Hc2].
Defined.

(** C6.  A decode that fails (OpenImageIO raised [e] for the file) is
    recovered locally.  The worker emits the [error] signal with the
    first 30 characters of [str(e)], and any [error] signal [run] can
    emit, for any input, carries its own path and at most 30
    characters.  Handling the signal turns exactly the card of that path
    [Failed], with that message as its info text; every other card, the
    set of cards, [total_count], the grid and the thread pool are as
    before, and [loaded_count] advances by one. *)
Theorem decode_failure_is_local (w : world) (s : EXRBrowser) (p e : pystr) (c : card) :
  open_image w p = raises e →
  card_data s !! p = Some c →
  run p (open_image w p) = error p (take 30 e)
  ∧ length (take 30 e) ≤ 30
  ∧ (∀ path o p' msg, run path o = error p' msg → p' = path ∧ length msg ≤ 30)
  ∧ item p (deliver (error p (take 30 e)) s) = Some Failed
  ∧ info <$> card_data (deliver (error p (take 30 e)) s) !! p = Some (take 30 e)
  ∧ (∀ q, q ≠ p →
       card_data (deliver (error p (take 30 e)) s) !! q = card_data s !! q)
  ∧ dom (card_data (deliver (error p (take 30 e)) s)) = dom (card_data s)
  ∧ total_count (deliver (error p (take 30 e)) s) = total_count s
  ∧ loaded_count (deliver (error p (take 30 e)) s) = S (loaded_count s)
  ∧ grid (deliver (error p (take 30 e)) s) = grid s
  ∧ thread_pool (deliver (error p (take 30 e)) s) = thread_pool s.
Proof.
  intros Hopen Hc. rewrite Hopen.
  destruct (deliver_known (error p (take 30 e)) s c Hc)
    as (c' & Hcards & Hst & Hinfo & Hl & Ht & Hpool & Hgrid & _).
  simpl signal_path in Hcards.
  split; [done|]. split; [rewrite length_take; lia|].
  split; [intros path o p' msg; apply error_message_short|].
  unfold item. rewrite Hcards, lookup_insert_eq. simpl. rewrite Hst, Hinfo.
  repeat split; try done.
  - intros q Hq. by rewrite lookup_insert_ne.
  - rewrite dom_insert_L.
    assert (p ∈ dom (card_data s)) by (apply elem_of_dom; eauto). set_solver.
Qed.

Lemma decode_failure_is_local_witness :
  open_image mixed_folder (py "d/b.hdr") = raises corrupt_message
  ∧ card_data loaded_panel !! py "d/b.hdr" = Some (new_card (py "b.hdr"))
  ∧ (run (py "d/b.hdr") (open_image mixed_folder (py "d/b.hdr"))
     = error (py "d/b.hdr") (take 30 corrupt_message)
     ∧ length (take 30 corrupt_message) ≤ 30
     ∧ (∀ path o p' msg, run path o = error p' msg → p' = path ∧ length msg ≤ 30)
     ∧ item (py "d/b.hdr")
         (deliver (error (py "d/b.hdr") (take 30 corrupt_message)) loaded_panel)
       = Some Failed
     ∧ info <$> card_data (deliver (error (py "d/b.hdr") (take 30 corrupt_message))
                             loaded_panel) !! py "d/b.hdr"
       = Some (take 30 corrupt_message)
     ∧ (∀ q, q ≠ py "d/b.hdr" →
          card_data (deliver (error (py "d/b.hdr") (take 30 corrupt_message))
                       loaded_panel) !! q
          = card_data loaded_panel !! q)
     ∧ dom (card_data (deliver (error (py "d/b.hdr") (take 30 corrupt_message))
                         loaded_panel))
       = dom (card_data loaded_panel)
     ∧ total_count (deliver (error (py "d/b.hdr") (take 30 corrupt_message)) loaded_panel)
       = total_count loaded_panel
     ∧ loaded_count (deliver (error (py "d/b.hdr") (take 30 corrupt_message)) loaded_panel)
       = S (loaded_count loaded_panel)
     ∧ grid (deliver (error (py "d/b.hdr") (take 30 corrupt_message)) loaded_panel)
       = grid loaded_panel
     ∧ thread_pool (deliver (error (py "d/b.hdr") (take 30 corrupt_message)) loaded_panel)
       = thread_pool loaded_panel).
Proof.
  assert (H1 : open_image mixed_folder (py "d/b.hdr") = raises corrupt_message)
    by reflexivity.
  assert (H2 : card_data loaded_panel !! py "d/b.hdr" = Some (new_card (py "b.hdr")))
    by (vm_compute; reflexivity).
  split; [exact H1|]. split; [exact H2|].
  exact (decode_failure_is_local mixed_folder loaded_panel (py "d/b.hdr")
           corrupt_message _ H1 H2).
Defined.

(** C7.  For a path that is not a directory, [load_exrs] only asks
    [os.path.isdir], writes "Invalid folder path" (in red) to the status
    label and returns: the folder is not listed, no worker is
    constructed and none is handed to the pool. *)
Theorem invalid_folder_reports_and_returns (w : world) (folder : pystr) (s : EXRBrowser) :
  isdir w folder = false →
  (load_exrs w folder s).1 = [fs_isdir folder]
  ∧ (fs_listdir folder ∉ (load_exrs w folder s).1)
  ∧ Forall (λ e, is_start e = false) (load_exrs w folder s).1
  ∧ count_label (load_exrs w folder s).2 = py "Invalid folder path"
  ∧ count_label_style (load_exrs w folder s).2 = count_invalid
  ∧ worker_serial (load_exrs w folder s).2 = worker_serial s
  ∧ thread_pool (load_exrs w folder s).2 = thread_pool s.
Proof.
  intros Hdir. unfold load_exrs. rewrite Hdir. simpl.
  repeat split; try done.
  - intros Hin. apply list_elem_of_singleton in Hin. discriminate.
  - by repeat constructor.
Qed.

Lemma invalid_folder_reports_and_returns_witness :
  isdir text_folder (py "docs/notes.txt") = false
  ∧ ((load_exrs text_folder (py "docs/notes.txt") loaded_panel).1
     = [fs_isdir (py "docs/notes.txt")]
     ∧ (fs_listdir (py "docs/notes.txt")
        ∉ (load_exrs text_folder (py "docs/notes.txt") loaded_panel).1)
     ∧ Forall (λ e, is_start e = false)
         (load_exrs text_folder (py "docs/notes.txt") loaded_panel).1
     ∧ count_label (load_exrs text_folder (py "docs/notes.txt") loaded_panel).2
       = py "Invalid folder path"
     ∧ count_label_style (load_exrs text_folder (py "docs/notes.txt") loaded_panel).2
       = count_invalid
     ∧ worker_serial (load_exrs text_folder (py "docs/notes.txt") loaded_panel).2
       = worker_serial loaded_panel
     ∧ thread_pool (load_exrs text_folder (py "docs/notes.txt") loaded_panel).2
       = thread_pool loaded_panel).
Proof.
  assert (H1 : isdir text_folder (py "docs/notes.txt") = false) by reflexivity.
  split; [exact H1|].
  exact (invalid_folder_reports_and_returns text_folder (py "docs/notes.txt")
           loaded_panel H1).
Defined.

(** C8.  For a directory: if no entry of its listing has a name ending
    in .exr or .hdr (compared in lower case), [load_exrs] writes
    "No HDRI files found" to the status label, constructs no worker and
    starts none, and leaves the pool queue and the card table empty.
    In every case a worker is started only for [join folder f] where [f]
    is an entry of the listing whose lower-cased name ends in .exr or
    .hdr, and the test depends on the name only up to case. *)
Theorem empty_folder_submits_nothing (w : world) (folder : pystr) (s : EXRBrowser) :
  isdir w folder = true →
  (Forall (λ f, is_hdri_name f = false) (listdir w folder) →
   count_label (load_exrs w folder s).2 = py "No HDRI files found"
   ∧ count_label_style (load_exrs w folder s).2 = count_empty
   ∧ Forall (λ e, is_start e = false) (load_exrs w folder s).1
   ∧ worker_serial (load_exrs w folder s).2 = worker_serial s
   ∧ Pool.queued (thread_pool (load_exrs w folder s).2) = []
   ∧ Pool.active (thread_pool (load_exrs w folder s).2) = Pool.active (thread_pool s)
   ∧ card_data (load_exrs w folder s).2 = ∅)
  ∧ (∀ p, pool_start p ∈ (load_exrs w folder s).1 →
       ∃ f, f ∈ listdir w folder ∧ p = join folder f
            ∧ (endswith (lower f) (py ".exr") = true
               ∨ endswith (lower f) (py ".hdr") = true))
  ∧ (∀ f g, lower f = lower g → is_hdri_name f = is_hdri_name g).
Proof.
  intros Hdir. split; [|split].
  - intros Hnone.
    assert (Hfiles : List.filter is_hdri_name (listdir w folder) = []).
    { induction (listdir w folder) as [|f l IH]; [done|].
      apply Forall_cons in Hnone as [Hf Hl]. simpl. rewrite Hf. by apply IH. }
    unfold load_exrs. rewrite Hdir. simpl. rewrite Hfiles. simpl.
    repeat split; try done. by repeat constructor.
  - intros p Hin.
    destruct (load_exrs_dir w folder s Hdir) as (He & _). rewrite He in Hin.
    apply elem_of_app in Hin as [Hin|Hin].
    + repeat (apply elem_of_cons in Hin as [Hin|Hin]; [discriminate|]).
      by apply elem_of_nil in Hin.
    + apply list_elem_of_fmap in Hin as (p' & [= <-] & Hin).
      unfold listed_paths in Hin.
      apply list_elem_of_fmap in Hin as (f & -> & Hin).
      apply list_elem_of_In, filter_In in Hin as [Hin Hname].
      exists f. split; [by apply list_elem_of_In|]. split; [done|].
      unfold is_hdri_name, endswith_any in Hname. simpl in Hname.
      rewrite orb_false_r in Hname. by apply orb_true_iff in Hname.
  - intros f g Heq. unfold is_hdri_name. by rewrite Heq.
Qed.

Lemma empty_folder_submits_nothing_witness :
  isdir text_folder (py "docs") = true
  ∧ Forall (λ f, is_hdri_name f = false) (listdir text_folder (py "docs"))
  ∧ (count_label (load_exrs text_folder (py "docs") loaded_panel).2
     = py "No HDRI files found"
     ∧ count_label_style (load_exrs text_folder (py "docs") loaded_panel).2 = count_empty
     ∧ Forall (λ e, is_start e = false) (load_exrs text_folder (py "docs") loaded_panel).1
     ∧ worker_serial (load_exrs text_folder (py "docs") loaded_panel).2
       = worker_serial loaded_panel
     ∧ Pool.queued (thread_pool (load_exrs text_folder (py "docs") loaded_panel).2) = []
     ∧ Pool.active (thread_pool (load_exrs text_folder (py "docs") loaded_panel).2)
       = Pool.active (thread_pool loaded_panel)
     ∧ card_data (load_exrs text_folder (py "docs") loaded_panel).2 = ∅)
  ∧ (∀ p, pool_start p ∈ (load_exrs text_folder (py "docs") loaded_panel).1 →
       ∃ f, f ∈ listdir text_folder (py "docs") ∧ p = join (py "docs") f
            ∧ (endswith (lower f) (py ".exr") = true
               ∨ endswith (lower f) (py ".hdr") = true))
  ∧ (∀ f g, lower f = lower g → is_hdri_name f = is_hdri_name g).
Proof.
  assert (H1 : isdir text_folder (py "docs") = true) by reflexivity.
  assert (H2 : Forall (λ f, is_hdri_name f = false) (listdir text_folder (py "docs")))
    by (repeat constructor).
  destruct (empty_folder_submits_nothing text_folder (py "docs") loaded_panel H1)
    as (Hempty & Honly & Hcase).
  split; [exact H1|]. split; [exact H2|]. split; [exact (Hempty H2)|].
  split; [exact Honly | exact Hcase].
Defined.

(** C9.  The rotation and intensity handlers only look the light up:
    they never change the number of [envlight] children.  Selecting an
    image creates a light exactly when Houdini is available, the click
    is a left click, [/obj] exists and it has no [envlight] child, and
    then there is one.  Hence a scene with at most one environment light
    still has at most one after any sequence of these operations. *)
Theorem at_most_one_envlight (houdini : bool) (ops : list Hou.host_op) (sc : Hou.scene) :
  Hou.count_envlight sc ≤ 1 →
  Hou.count_envlight (foldl (Hou.apply_op houdini) sc ops) ≤ 1
  ∧ ∀ sc' op,
      Hou.count_envlight (Hou.apply_op houdini sc' op)
      = match op with
        | Hou.select_image Hou.LeftButton _ =>
            if houdini && bool_decide (is_Some (Hou.obj sc'))
               && bool_decide (Hou.count_envlight sc' = 0)
            then 1 else Hou.count_envlight sc'
        | _ => Hou.count_envlight sc'
        end.
Proof.
  intros Hone. split; [|intros; apply apply_op_count].
  revert sc Hone. induction ops as [|op ops IH]; intros sc Hone; [done|].
  simpl. apply IH. rewrite apply_op_count.
  destruct op as [[| |] path| |]; try done.
  by destruct (_ && _).
Qed.

Lemma at_most_one_envlight_witness :
  Hou.count_envlight unlit_scene ≤ 1
  ∧ Hou.count_envlight
      (foldl (Hou.apply_op true) unlit_scene
         [Hou.change_rotation 45; Hou.select_image Hou.LeftButton (py "d/a.exr");
          Hou.change_intensity 10; Hou.select_image Hou.LeftButton (py "d/b.hdr")]) ≤ 1
  ∧ ∀ sc' op,
      Hou.count_envlight (Hou.apply_op true sc' op)
      = match op with
        | Hou.select_image Hou.LeftButton _ =>
            if true && bool_decide (is_Some (Hou.obj sc'))
               && bool_decide (Hou.count_envlight sc' = 0)
            then 1 else Hou.count_envlight sc'
        | _ => Hou.count_envlight sc'
        end.
Proof.
  assert (H1 : Hou.count_envlight unlit_scene ≤ 1) by (vm_compute; lia).
  split; [exact H1|].
  exact (at_most_one_envlight true _ unlit_scene H1).
Defined.

(** C10.  When [load_exrs] is given a path that is not a directory,
    only the status label changes: the card table, both counters, the
    grid, the thread pool with its queue, the worker count and the
    slider labels are what they were, so every item the panel showed is
    still shown in the same state. *)
Theorem invalid_folder_keeps_session (w : world) (folder : pystr) (s : EXRBrowser) :
  isdir w folder = false →
  card_data (load_exrs w folder s).2 = card_data s
  ∧ loaded_count (load_exrs w folder s).2 = loaded_count s
  ∧ total_count (load_exrs w folder s).2 = total_count s
  ∧ grid (load_exrs w folder s).2 = grid s
  ∧ thread_pool (load_exrs w folder s).2 = thread_pool s
  ∧ worker_serial (load_exrs w folder s).2 = worker_serial s
  ∧ intensity_value_label (load_exrs w folder s).2 = intensity_value_label s
  ∧ location_value_label (load_exrs w folder s).2 = location_value_label s
  ∧ (∀ p, item p (load_exrs w folder s).2 = item p s)
  ∧ (load_exrs w folder s).2
    = set_count_label (count_label (load_exrs w folder s).2)
        (count_label_style (load_exrs w folder s).2) s.
Proof.
  intros Hdir. unfold load_exrs. rewrite Hdir. simpl. by repeat split.
Qed.

Lemma invalid_folder_keeps_session_witness :
  isdir mixed_folder (py "nowhere") = false
  ∧ (card_data (load_exrs mixed_folder (py "nowhere") loaded_panel).2
     = card_data loaded_panel
     ∧ loaded_count (load_exrs mixed_folder (py "nowhere") loaded_panel).2
       = loaded_count loaded_panel
     ∧ total_count (load_exrs mixed_folder (py "nowhere") loaded_panel).2
       = total_count loaded_panel
     ∧ grid (load_exrs mixed_folder (py "nowhere") loaded_panel).2 = grid loaded_panel
     ∧ thread_pool (load_exrs mixed_folder (py "nowhere") loaded_panel).2
       = thread_pool loaded_panel
     ∧ worker_serial (load_exrs mixed_folder (py "nowhere") loaded_panel).2
       = worker_serial loaded_panel
     ∧ intensity_value_label (load_exrs mixed_folder (py "nowhere") loaded_panel).2
       = intensity_value_label loaded_panel
     ∧ location_value_label (load_exrs mixed_folder (py "nowhere") loaded_panel).2
       = location_value_label loaded_panel
     ∧ (∀ p, item p (load_exrs mixed_folder (py "nowhere") loaded_panel).2
             = item p loaded_panel)
     ∧ (load_exrs mixed_folder (py "nowhere") loaded_panel).2
       = set_count_label
           (count_label (load_exrs mixed_folder (py "nowhere") loaded_panel).2)
           (count_label_style (load_exrs mixed_folder (py "nowhere") loaded_panel).2)
           loaded_panel).
Proof.
  assert (H1 : isdir mixed_folder (py "nowhere") = false) by reflexivity.
  split; [exact H1|].
  exact (invalid_folder_keeps_session mixed_folder (py "nowhere") loaded_panel H1).
Defined.

(* ================================================================== *)
(** * Further properties of the code *)
(* ================================================================== *)

(** ** Clipping and the decoded bitmap *)

Section ClipFacts.
Import Float32.

Lemma SFcompare_antisym (x y : spec_float) (c : comparison) :
  SFcompare x y = Some c → SFcompare y x = Some (CompOpp c).
Proof.
  destruct x as [sx|sx| |sx mx ex], y as [sy|sy| |sy my ey]; simpl;
    try discriminate; intros [= <-];
    try (destruct sx; reflexivity); try (destruct sy; reflexivity);
    try (destruct sx, sy; reflexivity).
  f_equal. destruct sx, sy; try reflexivity.
  - rewrite (Z.compare_antisym ex ey).
    destruct (ex ?= ey)%Z; simpl; try reflexivity.
    rewrite CompOpp_involutive. apply (Pos.compare_cont_antisym my mx Eq).
  - rewrite (Z.compare_antisym ex ey).
    destruct (ex ?= ey)%Z; simpl; try reflexivity.
    symmetry. apply (Pos.compare_cont_antisym mx my Eq).
Qed.

Lemma SFltb_not_leb (x y : spec_float) : SFltb x y = true → SFleb y x = false.
Proof.
  unfold SFltb, SFleb. destruct (SFcompare x y) as [[| |]|] eqn:Hc; try discriminate.
  intros _. by rewrite (SFcompare_antisym x y Lt Hc).
Qed.
End ClipFacts.

(** X1.  [np.clip(img, 0.0, 1.0)] followed by the quantization
    saturates: a float32 sample at or below 0.0 gives byte 0, a sample
    at or above 1.0 (an HDR highlight) gives byte 255. *)
Theorem out_of_range_saturates (x : spec_float) :
  Float32.valid x = true →
  (SFleb x Float32.zero = true → Float32.quantize x = 0%Z)
  ∧ (SFleb Float32.one x = true → Float32.quantize x = 255%Z).
Proof.
  intros _. split.
  - destruct x as [s|[|]| |[|] m e]; try discriminate; intros _.
    + by destruct s.
    + vm_compute. reflexivity.
    + reflexivity.
  - destruct x as [s|[|]| |[|] m e]; try discriminate; intros Hle.
    + vm_compute. reflexivity.
    + destruct (sanitized_cases (S754_finite false m e))
        as [Hz | [H1 | (m' & e' & _ & _ & Hlt)]].
      * unfold Float32.sanitized, Float32.clip in Hz. simpl Float32.nan_to_num in Hz.
        change (Float32.npy_max (S754_finite false m e) Float32.zero)
          with (S754_finite false m e) in Hz.
        unfold Float32.npy_min in Hz. simpl Float32.isnan in Hz.
        destruct (SFltb (S754_finite false m e) Float32.one) eqn:Hlt.
        -- discriminate.
        -- vm_compute in Hz. discriminate.
      * unfold Float32.quantize. rewrite H1. vm_compute. reflexivity.
      * apply SFltb_not_leb in Hlt. congruence.
Qed.

Lemma out_of_range_saturates_witness :
  Float32.valid (Float32.of_Z 3) = true
  ∧ SFleb Float32.one (Float32.of_Z 3) = true
  ∧ Float32.quantize (Float32.of_Z 3) = 255%Z
  ∧ Float32.valid (S754_finite true 8388608 (-24)) = true
  ∧ SFleb (S754_finite true 8388608 (-24)) Float32.zero = true
  ∧ Float32.quantize (S754_finite true 8388608 (-24)) = 0%Z.
Proof.
  assert (H1 : Float32.valid (Float32.of_Z 3) = true) by reflexivity.
  assert (H2 : SFleb Float32.one (Float32.of_Z 3) = true) by reflexivity.
  assert (H3 : Float32.valid (S754_finite true 8388608 (-24)) = true) by reflexivity.
  assert (H4 : SFleb (S754_finite true 8388608 (-24)) Float32.zero = true) by reflexivity.
  split; [exact H1|]. split; [exact H2|].
  split; [exact (proj2 (out_of_range_saturates _ H1) H2)|].
  split; [exact H3|]. split; [exact H4|].
  exact (proj1 (out_of_range_saturates _ H3) H4).
Defined.

Section BitmapFacts.
Import PyStr Decoder.

Lemma first3_subseteq (nch npix : nat) (d : list Z) : first3 nch npix d ⊆ d.
Proof.
  revert d. induction npix as [|k IH]; intros d; simpl; [apply list_subseteq_nil|].
  intros x [Hx|Hx]%elem_of_app.
  - by eapply subseteq_take.
  - eapply subseteq_drop. by apply IH.
Qed.

Lemma first3_three_channels (npix : nat) (d : list Z) :
  length d = npix * 3 → first3 3 npix d = d.
Proof.
  revert d. induction npix as [|k IH]; intros d Hlen; simpl.
  - by destruct d.
  - rewrite IH by (rewrite length_drop; lia). apply take_drop.
Qed.

Lemma quantize_byte (x : spec_float) :
  Float32.valid x = true → (0 ≤ Float32.quantize x ≤ 255)%Z.
Proof.
  intros Hx. destruct (mul255_trunc x Hx) as (z & Hz & Hrange).
  unfold Float32.quantize, Float32.astype_uint8. rewrite Hz.
  rewrite Z.mod_small; lia.
Qed.
End BitmapFacts.

(** X2.  For an image with one channel, or with three or more, whose
    data has [height * width * nchannels] float32 elements, [run] emits
    [finished] carrying the pixmap that
    [QPixmap.fromImage(qimg).scaled(220, 220, KeepAspectRatio,
    SmoothTransformation)] makes of a bitmap [qimg].  That bitmap, the
    one handed to the scaling, has the image's width and height and
    holds exactly one byte per pixel (Grayscale8) or three (RGB888),
    every byte in [0, 255] and none read from behind the array; byte
    [c] of pixel [k] is the quantized channel [c] of pixel [k] of the
    source, so channels past the third are dropped and a three-channel
    image is passed through whole.  Nothing is said of the size or the
    pixels of the scaled pixmap. *)
Theorem finished_bitmap_well_formed (path : pystr) (spec : ImageSpec)
    (img : list spec_float) :
  Forall (λ x, Float32.valid x = true) img →
  length img = height spec * width spec * nchannels spec →
  nchannels spec = 1 ∨ 3 ≤ nchannels spec →
  ∃ qimg,
    run path (image spec img)
    = finished path (scaled_220 qimg) (info_text_of spec)
    ∧ qwidth qimg = width spec ∧ qheight qimg = height spec
    ∧ format qimg = (if nchannels spec =? 1 then Format_Grayscale8 else Format_RGB888)
    ∧ overread qimg = 0
    ∧ length (bits qimg)
      = height spec * width spec * (if nchannels spec =? 1 then 1 else 3)
    ∧ Forall (λ b, (0 ≤ b ≤ 255)%Z) (bits qimg)
    ∧ (∀ k c, k < height spec * width spec →
              c < (if nchannels spec =? 1 then 1 else 3) →
              bits qimg !! (k * (if nchannels spec =? 1 then 1 else 3) + c)
              = (Float32.quantize <$> img) !! (k * nchannels spec + c))
    ∧ (nchannels spec ≤ 3 → bits qimg = Float32.quantize <$> img).
Proof.
  intros Hvalid Hlen Hn.
  assert (Hbytes : Forall (λ b, (0 ≤ b ≤ 255)%Z) (Float32.quantize <$> img)).
  { apply Forall_fmap. eapply Forall_impl; [exact Hvalid|].
    intros x Hx. by apply quantize_byte. }
  destruct Hn as [H1|H3].
  - eexists. split; [apply run_grayscale; [done|lia]|].
    rewrite H1. simpl. rewrite length_fmap.
    repeat split; try done; try lia.
  - eexists. split; [by apply run_rgb|].
    replace (nchannels spec =? 1) with false by (symmetry; apply Nat.eqb_neq; lia).
    simpl. rewrite first3_length by (rewrite ?length_fmap; lia).
    repeat split; try done.
    + eapply Forall_forall. intros b Hb.
      eapply Forall_forall in Hbytes; [exact Hbytes|]. by eapply first3_subseteq.
    + intros k c Hk Hc. apply first3_lookup; rewrite ?length_fmap; lia.
    + intros Hle. assert (Hn3 : nchannels spec = 3) by lia. rewrite Hn3 in *.
      apply first3_three_channels. rewrite length_fmap. lia.
Qed.

Lemma finished_bitmap_well_formed_witness :
  Forall (λ x, Float32.valid x = true) Samples.rgba_1x2
  ∧ length Samples.rgba_1x2
    = height Samples.rgba_1x2_spec * width Samples.rgba_1x2_spec
      * nchannels Samples.rgba_1x2_spec
  ∧ (nchannels Samples.rgba_1x2_spec = 1 ∨ 3 ≤ nchannels Samples.rgba_1x2_spec)
  ∧ ∃ qimg,
      run (py "d/a.exr") (image Samples.rgba_1x2_spec Samples.rgba_1x2)
      = finished (py "d/a.exr") (scaled_220 qimg)
          (info_text_of Samples.rgba_1x2_spec)
      ∧ bits qimg = [127; 255; 0; 0; 127; 255]%Z.
Proof.
  assert (H1 : Forall (λ x, Float32.valid x = true) Samples.rgba_1x2)
    by (repeat constructor).
  assert (H2 : length Samples.rgba_1x2
               = height Samples.rgba_1x2_spec * width Samples.rgba_1x2_spec
                 * nchannels Samples.rgba_1x2_spec) by reflexivity.
  assert (H3 : nchannels Samples.rgba_1x2_spec = 1 ∨ 3 ≤ nchannels Samples.rgba_1x2_spec)
    by (right; vm_compute; lia).
  split; [exact H1|]. split; [exact H2|]. split; [exact H3|].
  destruct (finished_bitmap_well_formed (py "d/a.exr") _ _ H1 H2 H3)
    as (qimg & Hrun & _).
  exists qimg. split; [exact Hrun|].
  vm_compute in Hrun. by injection Hrun as <-.
Defined.

(** ** The scene, continued *)

Section SceneFacts.
Import PyStr Hou.

Lemma set_parm_name (n : node) (k : pystr) (v : parm_value) :
  node_name (set_parm n k v) = node_name n.
Proof. unfold set_parm. by destruct (parms n !! k). Qed.

Lemma set_parm_lookup_ne (n : node) (k k' : pystr) (v : parm_value) :
  k ≠ k' → parms (set_parm n k v) !! k' = parms n !! k'.
Proof.
  intros Hne. unfold set_parm. destruct (parms n !! k); [|done].
  simpl. by rewrite lookup_insert_ne.
Qed.

Lemma set_parm_commute (n : node) (a b : pystr) (va vb : parm_value) :
  a ≠ b → set_parm (set_parm n a va) b vb = set_parm (set_parm n b vb) a va.
Proof.
  intros Hne. unfold set_parm.
  destruct (parms n !! a) as [oa|] eqn:Ha, (parms n !! b) as [ob|] eqn:Hb; simpl;
    rewrite ?lookup_insert_ne, ?Ha, ?Hb by done; simpl; try done.
  f_equal. by apply insert_insert_ne.
Qed.

Lemma set_parm_twice (n : node) (a : pystr) (v v' : parm_value) :
  set_parm (set_parm n a v) a v' = set_parm n a v'.
Proof.
  unfold set_parm. destruct (parms n !! a) as [oa|] eqn:Ha; simpl.
  - rewrite lookup_insert_eq. simpl. f_equal. apply insert_insert_eq.
  - by rewrite Ha.
Qed.

Lemma find_envlight_snoc (children : list node) (x : node) :
  find_envlight children = None → type_name x = py "envlight" →
  find_envlight (children ++ [x]) = Some (length children, x).
Proof.
  unfold find_envlight. intros Hnone Hx. apply list_find_Some.
  split; [|split; [done|]].
  - by rewrite lookup_app_r, Nat.sub_diag.
  - intros j y Hj Hlt. rewrite lookup_app_l in Hj by done.
    apply list_find_None in Hnone. rewrite Forall_forall in Hnone.
    apply Hnone. by eapply list_elem_of_lookup_2.
Qed.

Lemma set_on_envlight_commute (a b : pystr) (va vb : parm_value) (sc : scene) :
  a ≠ b →
  set_on_envlight b vb (set_on_envlight a va sc)
  = set_on_envlight a va (set_on_envlight b vb sc).
Proof.
  intros Hne. unfold set_on_envlight.
  destruct (obj sc) as [children|] eqn:Hobj; [|by rewrite Hobj].
  destruct (find_envlight children) as [[i env]|] eqn:Hf; [|by rewrite Hobj, Hf].
  simpl. rewrite !(find_envlight_insert _ _ env) by (done || apply set_parm_type).
  unfold with_children. simpl. rewrite !list_insert_insert_eq.
  by rewrite set_parm_commute.
Qed.

Lemma set_on_envlight_twice (a : pystr) (v v' : parm_value) (sc : scene) :
  set_on_envlight a v' (set_on_envlight a v sc) = set_on_envlight a v' sc.
Proof.
  unfold set_on_envlight.
  destruct (obj sc) as [children|] eqn:Hobj; [|by rewrite Hobj].
  destruct (find_envlight children) as [[i env]|] eqn:Hf; [|by rewrite Hobj, Hf].
  simpl. rewrite (find_envlight_insert _ _ env) by (done || apply set_parm_type).
  unfold with_children. simpl. by rewrite list_insert_insert_eq, set_parm_twice.
Qed.

Lemma set_on_envlight_other_parm (a b : pystr) (v : parm_value) (sc : scene) :
  a ≠ b → envlight_parm b (set_on_envlight a v sc) = envlight_parm b sc.
Proof.
  intros Hne. unfold envlight_parm, set_on_envlight.
  destruct (obj sc) as [children|] eqn:Hobj; [|by rewrite Hobj].
  destruct (find_envlight children) as [[i env]|] eqn:Hf; [|by rewrite Hobj, Hf].
  simpl. rewrite (find_envlight_insert _ _ env) by (done || apply set_parm_type).
  by apply set_parm_lookup_ne.
Qed.

(** What an operation does to the children of [/obj]: nothing, an
    update of the first environment light in place, or one light
    appended when there was none. *)
Lemma apply_op_shape (houdini : bool) (sc : scene) (op : host_op) (children : list node) :
  obj sc = Some children →
  apply_op houdini sc op = sc
  ∨ (∃ i env k v, find_envlight children = Some (i, env)
                  ∧ apply_op houdini sc op
                    = with_children sc (<[i := set_parm env k v]> children))
  ∨ (∃ x, find_envlight children = None ∧ type_name x = py "envlight"
          ∧ apply_op houdini sc op = with_children sc (children ++ [x])).
Proof.
  intros Hobj. destruct op as [button path|value|value]; simpl.
  - unfold mousePressEvent. destruct (negb _); [by left|].
    unfold _apply_env_light. rewrite Hobj.
    destruct (find_envlight children) as [[i env]|] eqn:Hf.
    + right; left. by eexists i, env, _, _.
    + right; right. eexists. split; [done|]. split; [|done]. by rewrite set_parm_type.
  - unfold apply_rotation, set_on_envlight. destruct houdini; [|by left].
    rewrite Hobj. destruct (find_envlight children) as [[i env]|] eqn:Hf; [|by left].
    right; left. by eexists i, env, _, _.
  - unfold apply_intensity, set_on_envlight. destruct houdini; [|by left].
    rewrite Hobj. destruct (find_envlight children) as [[i env]|] eqn:Hf; [|by left].
    right; left. by eexists i, env, _, _.
Qed.
End SceneFacts.

Section KeptFacts.
Import PyStr Hou SceneFrame.

Lemma kept_refl (c : list node) : kept c c.
Proof.
  repeat split; eauto.
  intros Hnone i env' Hf. congruence.
Qed.

Lemma kept_trans (c c1 c2 : list node) : kept c c1 → kept c1 c2 → kept c c2.
Proof.
  intros (Hl & Hty & Hsame & Hfirst & Hnew) (Hl' & Hty' & Hsame' & Hfirst' & Hnew').
  split; [lia|]. split; [|split; [|split]].
  - intros j n Hj. destruct (Hty j n Hj) as (n1 & Hj1 & Ht1 & Hn1).
    destruct (Hty' j n1 Hj1) as (n2 & Hj2 & Ht2 & Hn2).
    exists n2. split; [done|]. split; congruence.
  - intros j n Hj Hnot. apply Hsame'; [by apply Hsame|].
    intros env1 Hf1. destruct (find_envlight c) as [[i env]|] eqn:Hf.
    + destruct (Hfirst i env eq_refl) as (env' & Hf').
      rewrite Hf' in Hf1. injection Hf1 as <- <-. by eapply Hnot.
    + specialize (Hnew eq_refl j env1 Hf1). apply lookup_lt_Some in Hj. lia.
  - intros i env Hf. destruct (Hfirst i env Hf) as (env1 & Hf1). eauto.
  - intros Hnone i env2 Hf2. destruct (find_envlight c1) as [[i1 env1]|] eqn:Hf1.
    + destruct (Hfirst' i1 env1 eq_refl) as (env' & Hf').
      rewrite Hf' in Hf2. injection Hf2 as <- <-. by eapply Hnew.
    + specialize (Hnew' eq_refl i env2 Hf2). lia.
Qed.

Lemma kept_update (c : list node) (i : nat) (env : node) (k : pystr) (v : parm_value) :
  find_envlight c = Some (i, env) → kept c (<[i := set_parm env k v]> c).
Proof.
  intros Hf. pose proof Hf as (Hi & _ & _)%list_find_Some.
  split; [by rewrite length_insert|]. split; [|split; [|split]].
  - intros j n Hj. destruct (decide (j = i)) as [->|Hne].
    + rewrite Hi in Hj. injection Hj as <-. eexists.
      rewrite list_lookup_insert_eq by (by eapply lookup_lt_Some).
      split; [done|]. by rewrite set_parm_type, set_parm_name.
    + exists n. by rewrite list_lookup_insert_ne.
  - intros j n Hj Hnot. rewrite list_lookup_insert_ne; [done|].
    intros <-. by eapply Hnot.
  - intros i' env' Hf'. rewrite Hf in Hf'. injection Hf' as <- <-.
    eexists. apply (find_envlight_insert _ _ env); [done | apply set_parm_type].
  - congruence.
Qed.

Lemma kept_append (c : list node) (x : node) :
  find_envlight c = None → type_name x = py "envlight" → kept c (c ++ [x]).
Proof.
  intros Hnone Hx. split; [rewrite length_app; lia|]. split; [|split; [|split]].
  - intros j n Hj. exists n. split; [|done].
    rewrite lookup_app_l; [done | by eapply lookup_lt_Some].
  - intros j n Hj _. rewrite lookup_app_l; [done | by eapply lookup_lt_Some].
  - congruence.
  - intros _ i env' Hf. rewrite (find_envlight_snoc c x Hnone Hx) in Hf.
    injection Hf as <- <-. done.
Qed.

Lemma kept_apply_op (houdini : bool) (sc : scene) (op : host_op) (c : list node) :
  obj sc = Some c →
  ∃ c', obj (apply_op houdini sc op) = Some c' ∧ kept c c'.
Proof.
  intros Hobj.
  destruct (apply_op_shape houdini sc op c Hobj)
    as [-> | [(i & env & k & v & Hf & ->) | (x & Hf & Hx & ->)]].
  - exists c. split; [done | apply kept_refl].
  - eexists. split; [done | by apply kept_update].
  - eexists. split; [done | by apply kept_append].
Qed.

Lemma kept_apply_ops (houdini : bool) (ops : list host_op) :
  ∀ sc c, obj sc = Some c →
          ∃ c', obj (foldl (apply_op houdini) sc ops) = Some c' ∧ kept c c'.
Proof.
  induction ops as [|op ops IH]; intros sc c Hobj; simpl.
  - exists c. split; [done | apply kept_refl].
  - destruct (kept_apply_op houdini sc op c Hobj) as (c1 & Hobj1 & Hk1).
    destruct (IH _ c1 Hobj1) as (c2 & Hobj2 & Hk2).
    exists c2. split; [done | by eapply kept_trans].
Qed.
End KeptFacts.

(** X3.  Selecting an image leaves the path in the [env_map] parameter
    of the environment light, whether the light existed or was just
    created, provided lights carry that parameter; every other
    parameter of the light is what it was (an existing light keeps its
    rotation and intensity) or, for a new light, Houdini's default. *)
Theorem selection_sets_env_map (path : pystr) (sc : Hou.scene) (children : list Hou.node) :
  Hou.obj sc = Some children →
  is_Some (Hou.envlight_parms sc !! py "env_map") →
  Forall (λ n, Hou.type_name n = py "envlight" → is_Some (Hou.parms n !! py "env_map"))
    children →
  Hou.envlight_parm (py "env_map") (Hou._apply_env_light path sc)
  = Some (Hou.parm_str path)
  ∧ ∀ name, name ≠ py "env_map" →
      Hou.envlight_parm name (Hou._apply_env_light path sc)
      = if decide (Hou.count_envlight sc = 0)
        then Hou.envlight_parms sc !! name
        else Hou.envlight_parm name sc.
Proof.
  intros Hobj [d Hd] Hall.
  unfold Hou._apply_env_light, Hou.envlight_parm, Hou.count_envlight. rewrite Hobj.
  destruct (Hou.find_envlight children) as [[i env]|] eqn:Hf; simpl.
  - rewrite (find_envlight_insert _ _ env) by (done || apply set_parm_type).
    pose proof Hf as (Hi & Hty & _)%list_find_Some.
    rewrite Forall_forall in Hall.
    destruct (Hall env (list_elem_of_lookup_2 _ _ _ Hi) Hty) as [old Hold].
    split; [by eapply set_parm_lookup|].
    intros name Hne. rewrite set_parm_lookup_ne by done.
    destruct (decide _) as [H0|]; [|done].
    apply find_envlight_None in H0. congruence.
  - rewrite find_envlight_snoc by (done || by rewrite set_parm_type).
    split.
    + eapply set_parm_lookup. exact Hd.
    + intros name Hne. rewrite set_parm_lookup_ne by done. simpl.
      apply find_envlight_None in Hf. by rewrite decide_True.
Qed.

Lemma selection_sets_env_map_witness :
  Hou.obj lit_scene = Some [geo; light]
  ∧ is_Some (Hou.envlight_parms lit_scene !! py "env_map")
  ∧ Forall (λ n, Hou.type_name n = py "envlight" → is_Some (Hou.parms n !! py "env_map"))
      [geo; light]
  ∧ Hou.envlight_parm (py "env_map") (Hou._apply_env_light (py "d/a.exr") lit_scene)
    = Some (Hou.parm_str (py "d/a.exr"))
  ∧ ∀ name, name ≠ py "env_map" →
      Hou.envlight_parm name (Hou._apply_env_light (py "d/a.exr") lit_scene)
      = if decide (Hou.count_envlight lit_scene = 0)
        then Hou.envlight_parms lit_scene !! name
        else Hou.envlight_parm name lit_scene.
Proof.
  assert (H1 : Hou.obj lit_scene = Some [geo; light]) by reflexivity.
  assert (H2 : is_Some (Hou.envlight_parms lit_scene !! py "env_map"))
    by (vm_compute; eauto).
  assert (H3 : Forall (λ n, Hou.type_name n = py "envlight"
                            → is_Some (Hou.parms n !! py "env_map")) [geo; light]).
  { apply Forall_cons. split; [intros H; vm_compute in H; discriminate|].
    apply Forall_cons. split; [intros _; vm_compute; eauto | constructor]. }
  split; [exact H1|]. split; [exact H2|]. split; [exact H3|].
  exact (selection_sets_env_map (py "d/a.exr") lit_scene _ H1 H2 H3).
Defined.

(** X4.  The two slider handlers act on different parameters of the
    same light: they commute, the last value of a slider wins, and
    neither changes the [env_map] a selection has set. *)
Theorem slider_updates_compose (houdini : bool) (r r' v v' : Z) (sc : Hou.scene) :
  Hou.apply_rotation houdini r (Hou.apply_intensity houdini v sc)
  = Hou.apply_intensity houdini v (Hou.apply_rotation houdini r sc)
  ∧ Hou.apply_rotation houdini r' (Hou.apply_rotation houdini r sc)
    = Hou.apply_rotation houdini r' sc
  ∧ Hou.apply_intensity houdini v' (Hou.apply_intensity houdini v sc)
    = Hou.apply_intensity houdini v' sc
  ∧ Hou.envlight_parm (py "env_map") (Hou.apply_rotation houdini r sc)
    = Hou.envlight_parm (py "env_map") sc
  ∧ Hou.envlight_parm (py "env_map") (Hou.apply_intensity houdini v sc)
    = Hou.envlight_parm (py "env_map") sc
  ∧ Hou.envlight_parm (py "ry") (Hou.apply_intensity houdini v sc)
    = Hou.envlight_parm (py "ry") sc
  ∧ Hou.envlight_parm (py "light_intensity") (Hou.apply_rotation houdini r sc)
    = Hou.envlight_parm (py "light_intensity") sc.
Proof.
  unfold Hou.apply_rotation, Hou.apply_intensity. destruct houdini; [|done].
  repeat split.
  - by apply set_on_envlight_commute.
  - apply set_on_envlight_twice.
  - apply set_on_envlight_twice.
  - by apply set_on_envlight_other_parm.
  - by apply set_on_envlight_other_parm.
  - by apply set_on_envlight_other_parm.
  - by apply set_on_envlight_other_parm.
Qed.

(** X5.  Whatever sequence of selections and slider moves is applied,
    the panel never removes, moves, renames or retypes a child of
    [/obj], and it changes no node other than the first environment
    light: every other node, further environment lights included, is
    found unchanged at its index.  Without Houdini, and for clicks that
    are not left clicks, the scene is not touched at all. *)
Theorem other_nodes_untouched (houdini : bool) (ops : list Hou.host_op)
    (sc : Hou.scene) (children : list Hou.node) :
  Hou.obj sc = Some children →
  (∃ children',
     Hou.obj (foldl (Hou.apply_op houdini) sc ops) = Some children'
     ∧ length children ≤ length children'
     ∧ (∀ j n, children !! j = Some n →
          ∃ n', children' !! j = Some n'
                ∧ Hou.type_name n' = Hou.type_name n
                ∧ Hou.node_name n' = Hou.node_name n)
     ∧ (∀ j n, children !! j = Some n →
          (∀ env, Hou.find_envlight children ≠ Some (j, env)) →
          children' !! j = Some n))
  ∧ foldl (Hou.apply_op false) sc ops = sc
  ∧ (∀ path, Hou.apply_op houdini sc (Hou.select_image Hou.RightButton path) = sc
             ∧ Hou.apply_op houdini sc (Hou.select_image Hou.MiddleButton path) = sc).
Proof.
  intros Hobj. split; [|split].
  - destruct (kept_apply_ops houdini ops sc children Hobj)
      as (c' & Hobj' & Hl & Hty & Hsame & _).
    exists c'. eauto.
  - clear Hobj. induction ops as [|op ops IH]; [done|].
    simpl. by destruct op.
  - intros path. simpl. unfold Hou.mousePressEvent. by destruct houdini.
Qed.

Lemma other_nodes_untouched_witness :
  Hou.obj Samples.two_lights = Some [geo; light; Samples.second_light]
  ∧ ∃ children',
      Hou.obj (foldl (Hou.apply_op true) Samples.two_lights
                 [Hou.select_image Hou.LeftButton (py "d/a.exr");
                  Hou.change_rotation 90; Hou.change_intensity 50])
      = Some children'
      ∧ children' !! 0 = Some geo
      ∧ children' !! 2 = Some Samples.second_light.
Proof.
  assert (H1 : Hou.obj Samples.two_lights = Some [geo; light; Samples.second_light])
    by reflexivity.
  split; [exact H1|].
  destruct (other_nodes_untouched true
              [Hou.select_image Hou.LeftButton (py "d/a.exr");
               Hou.change_rotation 90; Hou.change_intensity 50]
              Samples.two_lights _ H1)
    as ((children' & Hobj & _ & _ & Hsame) & _).
  exists children'. split; [exact Hobj|]. split.
  - apply (Hsame 0 geo); [reflexivity|]. intros env. vm_compute. discriminate.
  - apply (Hsame 2 Samples.second_light); [reflexivity|].
    intros env. vm_compute. discriminate.
Defined.

(** ** What a folder load builds *)

Section LoadFacts.
Import PyStr Decoder Browser Submission.

Local Arguments Nat.div : simpl never.
Local Arguments Nat.modulo : simpl never.
Local Arguments Nat.mul : simpl never.


(** The loop of [load_exrs], field by field. *)
Lemma place_cards_exact (folder : pystr) (files : list pystr) :
  ∀ row col s, col < 4 →
    card_data (place_cards folder files row col s).2
    = foldl (λ m f, <[join folder f := new_card f]> m) (card_data s) files
    ∧ grid (place_cards folder files row col s).2
      = grid s ++ imap (λ k f, {| cell_path := join folder f;
                                  cell_row := (4 * row + col + k) / 4;
                                  cell_col := (4 * row + col + k) mod 4 |}) files
    ∧ thread_pool (place_cards folder files row col s).2
      = foldl (λ p wk, Pool.start wk p) (thread_pool s)
          (workers_for (worker_serial s) (join folder <$> files))
    ∧ worker_serial (place_cards folder files row col s).2
      = worker_serial s + length files
    ∧ intensity_value_label (place_cards folder files row col s).2
      = intensity_value_label s
    ∧ location_value_label (place_cards folder files row col s).2
      = location_value_label s.
Proof.
  induction files as [|f files IH]; intros row col s Hcol.
  - simpl. rewrite app_nil_r, Nat.add_0_r. done.
  - unfold workers_for in *. rewrite fmap_cons, !imap_cons.
    assert (Hcell : (4 * row + col + 0) / 4 = row ∧ (4 * row + col + 0) mod 4 = col).
    { rewrite Nat.add_0_r. split.
      - rewrite Nat.mul_comm, Nat.div_add_l by lia. rewrite Nat.div_small; lia.
      - rewrite Nat.add_comm, Nat.mul_comm, Nat.Div0.mod_add. by apply Nat.mod_small. }
    destruct Hcell as [Hr Hc]. rewrite Hr, Hc. simpl.
    destruct (Nat.eqb_spec (col + 1) 4) as [Hwrap|Hwrap];
      match goal with |- context [place_cards folder files ?r ?c ?st] =>
        destruct (IH r c st) as (Hcd & Hg & Hp & Hs & Hi & Hl); [lia|];
        destruct (place_cards folder files r c st) as [e2 s2]
      end; simpl in *; rewrite Hcd, Hg, Hp, Hs, Hi, Hl, <- app_assoc, Nat.add_0_r; simpl.
    + split; [done|]. split.
      { do 2 f_equal. apply imap_ext. intros k x _. simpl. f_equal; f_equal; lia. }
      split; [|repeat split; try done; lia].
      f_equal; try (f_equal; f_equal; lia).
      apply imap_ext. intros k x _. simpl. f_equal. lia.
    + split; [done|]. split.
      { do 2 f_equal. apply imap_ext. intros k x _. simpl. f_equal; f_equal; lia. }
      split; [|repeat split; try done; lia].
      f_equal; try (f_equal; f_equal; lia).
      apply imap_ext. intros k x _. simpl. f_equal. lia.
Qed.

Lemma foldl_insert_lookup (folder : pystr) (files : list pystr) (m : gmap pystr card)
    (p : pystr) (c : card) :
  foldl (λ m f, <[join folder f := new_card f]> m) m files !! p = Some c →
  m !! p = Some c ∨ ∃ f, f ∈ files ∧ p = join folder f ∧ c = new_card f.
Proof.
  revert m. induction files as [|f files IH]; intros m Hp; simpl in Hp; [by left|].
  destruct (IH _ Hp) as [Hm | (g & Hg & -> & ->)].
  - destruct (decide (join folder f = p)) as [<-|Hne].
    + rewrite lookup_insert_eq in Hm. injection Hm as <-.
      right. exists f. split; [by left | done].
    + rewrite lookup_insert_ne in Hm by done. by left.
  - right. exists g. split; [by right | done].
Qed.

Lemma foldl_start_ok (ws : list Pool.worker) :
  ∀ p, pool_ok p →
       pool_ok (foldl (λ p wk, Pool.start wk p) p ws)
       ∧ Pool.maxThreadCount (foldl (λ p wk, Pool.start wk p) p ws)
         = Pool.maxThreadCount p
       ∧ Pool.active (foldl (λ p wk, Pool.start wk p) p ws)
         ++ Pool.queued (foldl (λ p wk, Pool.start wk p) p ws)
         = (Pool.active p ++ Pool.queued p) ++ ws
       ∧ Pool.active p `prefix_of` Pool.active (foldl (λ p wk, Pool.start wk p) p ws).
Proof.
  induction ws as [|wk ws IH]; intros p [Hle Hq].
  - simpl. rewrite app_nil_r. done.
  - simpl.
    assert (Hstart : pool_ok (Pool.start wk p)
                     ∧ Pool.maxThreadCount (Pool.start wk p) = Pool.maxThreadCount p
                     ∧ Pool.active (Pool.start wk p) ++ Pool.queued (Pool.start wk p)
                       = (Pool.active p ++ Pool.queued p) ++ [wk]
                     ∧ Pool.active p `prefix_of` Pool.active (Pool.start wk p)).
    { unfold Pool.start, pool_ok.
      destruct (length (Pool.active p) <? Pool.maxThreadCount p) eqn:Hfree; simpl.
      - apply Nat.ltb_lt in Hfree.
        assert (Pool.queued p = []) as ->.
        { destruct (Pool.queued p); [done|]. specialize (Hq ltac:(done)). lia. }
        rewrite length_app, !app_nil_r. simpl.
        repeat split; try done; try lia. by apply prefix_app_r.
      - apply Nat.ltb_ge in Hfree. rewrite app_assoc.
        repeat split; try done; try lia. }
    destruct Hstart as (Hok & Hmax & Happ & Hpre).
    destruct (IH _ Hok) as (Hok' & Hmax' & Happ' & Hpre').
    rewrite Hmax', Hmax, Happ', Happ, <- !app_assoc. simpl.
    split; [exact Hok'|]. split; [done|]. split; [done|]. by etrans.
Qed.

(** A directory load, field by field. *)
Lemma load_exrs_exact (w : world) (folder : pystr) (s : EXRBrowser) :
  isdir w folder = true →
  card_data (load_exrs w folder s).2
  = foldl (λ m f, <[join folder f := new_card f]> m) ∅
      (List.filter is_hdri_name (listdir w folder))
  ∧ grid (load_exrs w folder s).2 = cells_for (listed_paths w folder)
  ∧ thread_pool (load_exrs w folder s).2
    = foldl (λ p wk, Pool.start wk p) (Pool.clear (thread_pool s))
        (workers_for (worker_serial s) (listed_paths w folder))
  ∧ worker_serial (load_exrs w folder s).2
    = worker_serial s + length (listed_paths w folder)
  ∧ count_label_style (load_exrs w folder s).2
    = (if bool_decide (listed_paths w folder = []) then count_empty else count_loading)
  ∧ count_label (load_exrs w folder s).2
    = (if bool_decide (listed_paths w folder = []) then py "No HDRI files found"
       else loading_text 0 (length (listed_paths w folder)))
  ∧ intensity_value_label (load_exrs w folder s).2 = intensity_value_label s
  ∧ location_value_label (load_exrs w folder s).2 = location_value_label s.
Proof.
  intros Hdir. unfold load_exrs, listed_paths, cells_for. rewrite Hdir. simpl.
  destruct (List.filter is_hdri_name (listdir w folder)) as [|f files] eqn:Hfiles.
  - simpl. rewrite Nat.add_0_r. done.
  - match goal with |- context [place_cards folder ?fs ?r ?c ?st] =>
      destruct (place_cards_exact folder fs r c st) as (Hcd & Hg & Hp & Hs & Hi & Hl);
        [lia|];
      destruct (place_cards_spec folder fs r c st) as (_ & _ & _ & Hlab & Hsty & _);
      destruct (place_cards folder fs r c st) as [e2 s2]
    end.
    simpl in *. rewrite Hcd, Hg, Hp, Hs, Hi, Hl, Hlab, Hsty. simpl.
    rewrite length_fmap. repeat split; try done.
    f_equal. rewrite imap_fmap. by apply imap_ext.
Qed.
End LoadFacts.

Section ItemFacts.
Import PyStr Decoder Browser Submission.

Lemma join_inj (folder f g : pystr) :
  startswith f [sep] = false → startswith g [sep] = false →
  join folder f = join folder g → f = g.
Proof.
  unfold join. intros -> ->.
  destruct (bool_decide (folder = []) || endswith folder [sep]); intros Heq.
  - by apply app_inv_head in Heq.
  - apply app_inv_head in Heq. by injection Heq.
Qed.

Lemma foldl_insert_other (folder : pystr) (files : list pystr) (m : gmap pystr card)
    (p : pystr) :
  p ∉ join folder <$> files →
  foldl (λ m f, <[join folder f := new_card f]> m) m files !! p = m !! p.
Proof.
  revert m. induction files as [|f files IH]; intros m Hnot; [done|].
  rewrite fmap_cons, not_elem_of_cons in Hnot. destruct Hnot as [Hne Hnot].
  simpl. rewrite IH by done. by rewrite lookup_insert_ne.
Qed.

Lemma foldl_insert_listed (folder : pystr) (files : list pystr) (m : gmap pystr card)
    (f : pystr) :
  NoDup (join folder <$> files) → f ∈ files →
  foldl (λ m f, <[join folder f := new_card f]> m) m files !! join folder f
  = Some (new_card f).
Proof.
  revert m. induction files as [|g files IH]; intros m Hnd Hin.
  - by apply elem_of_nil in Hin.
  - rewrite fmap_cons in Hnd. apply NoDup_cons in Hnd as [Hg Hnd].
    simpl. apply elem_of_cons in Hin as [->|Hin].
    + rewrite foldl_insert_other by done. apply lookup_insert_eq.
    + by apply IH.
Qed.

Lemma NoDup_List_filter {A : Type} (f : A → bool) (l : list A) :
  NoDup l → NoDup (List.filter f l).
Proof.
  induction 1 as [|x l Hx Hnd IH]; simpl; [constructor|].
  destruct (f x); [|done]. constructor; [|done].
  intros Hin. apply Hx.
  apply list_elem_of_In, filter_In in Hin as [Hin _]. by apply list_elem_of_In.
Qed.

Lemma listed_paths_NoDup (w : world) (folder : pystr) :
  NoDup (listdir w folder) →
  Forall (λ f, startswith f [sep] = false) (listdir w folder) →
  NoDup (listed_paths w folder).
Proof.
  intros Hnd Hrel. unfold listed_paths. apply NoDup_fmap_2_strong.
  - intros f g Hf Hg. rewrite Forall_forall in Hrel.
    apply list_elem_of_In, filter_In in Hf as [Hf _].
    apply list_elem_of_In, filter_In in Hg as [Hg _].
    apply join_inj; apply Hrel; by apply list_elem_of_In.
  - by apply NoDup_List_filter.
Qed.
End ItemFacts.

(** X6.  When the names [os.listdir] returns are distinct and none
    starts with a slash, a directory load creates exactly one item per
    matching file: the joined paths are distinct, the card table has as
    many entries as [total_count], the entry of [join folder f] is the
    card built for [f] and shows its file name, and there is no other
    entry. *)
Theorem one_card_per_file (w : world) (folder : pystr) (s : EXRBrowser) :
  isdir w folder = true →
  NoDup (listdir w folder) →
  Forall (λ f, startswith f [sep] = false) (listdir w folder) →
  NoDup (listed_paths w folder)
  ∧ size (card_data (load_exrs w folder s).2) = total_count (load_exrs w folder s).2
  ∧ (∀ f, f ∈ listdir w folder → is_hdri_name f = true →
       card_data (load_exrs w folder s).2 !! join folder f = Some (new_card f))
  ∧ (∀ p c, card_data (load_exrs w folder s).2 !! p = Some c →
       ∃ f, f ∈ listdir w folder ∧ is_hdri_name f = true
            ∧ p = join folder f ∧ c = new_card f ∧ name_label c = f).
Proof.
  intros Hdir Hnd Hrel.
  pose proof (listed_paths_NoDup w folder Hnd Hrel) as Hpaths.
  destruct (load_exrs_dir w folder s Hdir) as (_ & _ & Ht & Hd & _).
  destruct (load_exrs_exact w folder s Hdir) as (Hcd & _).
  split; [done|]. split; [|split].
  - rewrite <- size_dom, Hd, Ht. by apply size_list_to_set.
  - intros f Hf Hname. rewrite Hcd. apply foldl_insert_listed; [done|].
    apply list_elem_of_In, filter_In. split; [by apply list_elem_of_In | done].
  - intros p c Hp. rewrite Hcd in Hp.
    destruct (foldl_insert_lookup _ _ _ _ _ Hp) as [Hempty | (f & Hf & -> & ->)].
    + by rewrite lookup_empty in Hempty.
    + apply list_elem_of_In, filter_In in Hf as [Hf Hname].
      exists f. split; [by apply list_elem_of_In | done].
Qed.

Lemma one_card_per_file_witness :
  isdir Samples.six_files (py "hdris") = true
  ∧ NoDup (listdir Samples.six_files (py "hdris"))
  ∧ Forall (λ f, startswith f [sep] = false) (listdir Samples.six_files (py "hdris"))
  ∧ NoDup (listed_paths Samples.six_files (py "hdris"))
  ∧ size (card_data (load_exrs Samples.six_files (py "hdris") loaded_panel).2)
    = total_count (load_exrs Samples.six_files (py "hdris") loaded_panel).2
  ∧ (∀ f, f ∈ listdir Samples.six_files (py "hdris") → is_hdri_name f = true →
       card_data (load_exrs Samples.six_files (py "hdris") loaded_panel).2
         !! join (py "hdris") f = Some (new_card f))
  ∧ (∀ p c, card_data (load_exrs Samples.six_files (py "hdris") loaded_panel).2 !! p
            = Some c →
       ∃ f, f ∈ listdir Samples.six_files (py "hdris") ∧ is_hdri_name f = true
            ∧ p = join (py "hdris") f ∧ c = new_card f ∧ name_label c = f).
Proof.
  assert (H1 : isdir Samples.six_files (py "hdris") = true) by reflexivity.
  assert (H2 : NoDup (listdir Samples.six_files (py "hdris"))).
  { apply (bool_decide_unpack _). vm_compute. reflexivity. }
  assert (H3 : Forall (λ f, startswith f [sep] = false)
                 (listdir Samples.six_files (py "hdris"))) by (repeat constructor).
  split; [exact H1|]. split; [exact H2|]. split; [exact H3|].
  exact (one_card_per_file Samples.six_files (py "hdris") loaded_panel H1 H2 H3).
Defined.

(** X7.  Right after a directory load every item is in the [Loading]
    state: each card is a freshly built one (pulsing placeholder alive,
    no pixmap, info text "Loading...", not animated), every listed path
    has such a card, and [loaded_count] is 0. *)
Theorem every_item_starts_loading (w : world) (folder : pystr) (s : EXRBrowser) :
  isdir w folder = true →
  loaded_count (load_exrs w folder s).2 = 0
  ∧ (∀ p, p ∈ listed_paths w folder → item p (load_exrs w folder s).2 = Some Loading)
  ∧ (∀ p c, card_data (load_exrs w folder s).2 !! p = Some c →
       state_of c = Loading ∧ loading_label c = true ∧ label c = thumb_empty
       ∧ info c = py "Loading..." ∧ animated c = false
       ∧ ∃ f, f ∈ listdir w folder ∧ p = join folder f ∧ name_label c = f).
Proof.
  intros Hdir.
  destruct (load_exrs_dir w folder s Hdir) as (_ & Hl & _ & Hd & _).
  destruct (load_exrs_exact w folder s Hdir) as (Hcd & _).
  assert (Hcards : ∀ p c, card_data (load_exrs w folder s).2 !! p = Some c →
                          state_of c = Loading ∧ loading_label c = true
                          ∧ label c = thumb_empty ∧ info c = py "Loading..."
                          ∧ animated c = false
                          ∧ ∃ f, f ∈ listdir w folder ∧ p = join folder f
                                 ∧ name_label c = f).
  { intros p c Hp. rewrite Hcd in Hp.
    destruct (foldl_insert_lookup _ _ _ _ _ Hp) as [Hempty | (f & Hf & -> & ->)].
    - by rewrite lookup_empty in Hempty.
    - apply list_elem_of_In, filter_In in Hf as [Hf _].
      repeat split; try done. exists f. split; [by apply list_elem_of_In | done]. }
  split; [done|]. split; [|done].
  intros p Hp. unfold item.
  assert (Hin : p ∈ dom (card_data (load_exrs w folder s).2))
    by (by rewrite Hd, elem_of_list_to_set).
  apply elem_of_dom in Hin as [c Hc]. rewrite Hc. simpl.
  by destruct (Hcards p c Hc) as (-> & _).
Qed.

Lemma every_item_starts_loading_witness :
  isdir mixed_folder (py "d") = true
  ∧ loaded_count (load_exrs mixed_folder (py "d") (init mixed_folder)).2 = 0
  ∧ item (py "d/a.exr") (load_exrs mixed_folder (py "d") (init mixed_folder)).2
    = Some Loading
  ∧ item (py "d/b.hdr") (load_exrs mixed_folder (py "d") (init mixed_folder)).2
    = Some Loading.
Proof.
  assert (H1 : isdir mixed_folder (py "d") = true) by reflexivity.
  destruct (every_item_starts_loading mixed_folder (py "d") (init mixed_folder) H1)
    as (Hl & Hitems & _).
  split; [exact H1|]. split; [exact Hl|]. split.
  - apply Hitems. apply (bool_decide_unpack _). vm_compute. reflexivity.
  - apply Hitems. apply (bool_decide_unpack _). vm_compute. reflexivity.
Defined.

(** X8.  A directory load lays the cards out in four columns, row by
    row, in listing order: the grid has one cell per listed path, cell
    number k holds the k-th path at row k // 4 and column k % 4, and no
    two cells share a position. *)
Theorem cards_fill_four_columns (w : world) (folder : pystr) (s : EXRBrowser) :
  isdir w folder = true →
  length (grid (load_exrs w folder s).2) = length (listed_paths w folder)
  ∧ (∀ k cell, grid (load_exrs w folder s).2 !! k = Some cell →
       listed_paths w folder !! k = Some (cell_path cell)
       ∧ cell_row cell = k / 4 ∧ cell_col cell = k mod 4 ∧ cell_col cell < 4)
  ∧ (∀ i j a b, grid (load_exrs w folder s).2 !! i = Some a →
       grid (load_exrs w folder s).2 !! j = Some b →
       cell_row a = cell_row b → cell_col a = cell_col b → i = j).
Proof.
  intros Hdir. destruct (load_exrs_exact w folder s Hdir) as (_ & Hg & _).
  rewrite Hg. unfold Submission.cells_for.
  assert (Hcell : ∀ k cell,
             imap (λ k path, {| cell_path := path; cell_row := k / 4;
                                cell_col := k mod 4 |}) (listed_paths w folder) !! k
             = Some cell →
             listed_paths w folder !! k = Some (cell_path cell)
             ∧ cell_row cell = k / 4 ∧ cell_col cell = k mod 4 ∧ cell_col cell < 4).
  { intros k cell Hk. rewrite list_lookup_imap in Hk.
    destruct (listed_paths w folder !! k) as [p|]; [|done].
    apply (inj Some) in Hk. subst cell. cbn [cell_path cell_row cell_col].
    repeat split. apply Nat.mod_upper_bound. lia. }
  split; [apply length_imap|]. split; [done|].
  intros i j a b Ha Hb Hrow Hcol.
  destruct (Hcell i a Ha) as (_ & Hra & Hca & _).
  destruct (Hcell j b Hb) as (_ & Hrb & Hcb & _).
  rewrite (Nat.div_mod i 4), (Nat.div_mod j 4) by lia. congruence.
Qed.

Lemma cards_fill_four_columns_witness :
  isdir Samples.six_files (py "hdris") = true
  ∧ length (grid (load_exrs Samples.six_files (py "hdris") loaded_panel).2) = 6
  ∧ grid (load_exrs Samples.six_files (py "hdris") loaded_panel).2 !! 5
    = Some {| cell_path := py "hdris/f.exr"; cell_row := 1; cell_col := 1 |}.
Proof.
  assert (H1 : isdir Samples.six_files (py "hdris") = true) by reflexivity.
  destruct (cards_fill_four_columns Samples.six_files (py "hdris") loaded_panel H1)
    as (Hlen & _ & _).
  split; [exact H1|]. split; [exact Hlen|]. vm_compute. reflexivity.
Defined.

(** X9.  What a directory load shows depends on the folder alone:
    [clear()] leaves no trace of the previous folder, so the card
    table, both counters, the status label with its style, the grid and
    the trace of effects are the same whatever state the panel was in. *)
Theorem load_forgets_previous_folder (w : world) (folder : pystr)
    (s1 s2 : EXRBrowser) :
  isdir w folder = true →
  (load_exrs w folder s1).1 = (load_exrs w folder s2).1
  ∧ card_data (load_exrs w folder s1).2 = card_data (load_exrs w folder s2).2
  ∧ loaded_count (load_exrs w folder s1).2 = loaded_count (load_exrs w folder s2).2
  ∧ total_count (load_exrs w folder s1).2 = total_count (load_exrs w folder s2).2
  ∧ count_label (load_exrs w folder s1).2 = count_label (load_exrs w folder s2).2
  ∧ count_label_style (load_exrs w folder s1).2
    = count_label_style (load_exrs w folder s2).2
  ∧ grid (load_exrs w folder s1).2 = grid (load_exrs w folder s2).2.
Proof.
  intros Hdir.
  destruct (load_exrs_dir w folder s1 Hdir) as (-> & -> & -> & _).
  destruct (load_exrs_dir w folder s2 Hdir) as (-> & -> & -> & _).
  destruct (load_exrs_exact w folder s1 Hdir) as (-> & -> & _ & _ & -> & -> & _).
  destruct (load_exrs_exact w folder s2 Hdir) as (-> & -> & _ & _ & -> & -> & _).
  done.
Qed.

Lemma load_forgets_previous_folder_witness :
  isdir Samples.six_files (py "hdris") = true
  ∧ card_data (load_exrs Samples.six_files (py "hdris") loaded_panel).2
    = card_data (load_exrs Samples.six_files (py "hdris") (init Samples.six_files)).2
  ∧ grid (load_exrs Samples.six_files (py "hdris") loaded_panel).2
    = grid (load_exrs Samples.six_files (py "hdris") (init Samples.six_files)).2.
Proof.
  assert (H1 : isdir Samples.six_files (py "hdris") = true) by reflexivity.
  destruct (load_forgets_previous_folder Samples.six_files (py "hdris") loaded_panel
              (init Samples.six_files) H1) as (_ & Hc & _ & _ & _ & _ & Hg).
  split; [exact H1|]. split; [exact Hc | exact Hg].
Defined.

(** X10.  A directory load keeps the pool sound and loses no worker:
    the workers that were running keep running, the ones that were only
    waiting are dropped, and one new worker per listed path is appended
    in listing order with a fresh identity; the pool never runs more
    than its thread count, and a worker waits only when every thread is
    busy. *)
Theorem load_submits_one_worker_per_path (w : world) (folder : pystr)
    (s : EXRBrowser) :
  isdir w folder = true →
  Submission.pool_ok (thread_pool s) →
  Submission.pool_ok (thread_pool (load_exrs w folder s).2)
  ∧ Pool.maxThreadCount (thread_pool (load_exrs w folder s).2)
    = Pool.maxThreadCount (thread_pool s)
  ∧ Pool.active (thread_pool (load_exrs w folder s).2)
    ++ Pool.queued (thread_pool (load_exrs w folder s).2)
    = Pool.active (thread_pool s)
      ++ Submission.workers_for (worker_serial s) (listed_paths w folder)
  ∧ Pool.active (thread_pool s)
    `prefix_of` Pool.active (thread_pool (load_exrs w folder s).2)
  ∧ length (Pool.active (thread_pool (load_exrs w folder s).2))
    = Nat.min (Pool.maxThreadCount (thread_pool s))
        (length (Pool.active (thread_pool s)) + length (listed_paths w folder))
  ∧ worker_serial (load_exrs w folder s).2
    = worker_serial s + length (listed_paths w folder).
Proof.
  intros Hdir [Hle Hq].
  destruct (load_exrs_exact w folder s Hdir) as (_ & _ & Hp & Hs & _).
  assert (Hclear : Submission.pool_ok (Pool.clear (thread_pool s))) by (by split).
  destruct (foldl_start_ok
              (Submission.workers_for (worker_serial s) (listed_paths w folder))
              _ Hclear) as (Hok & Hmax & Hall & Hpre).
  rewrite <- Hp in Hok, Hmax, Hall, Hpre. simpl in Hmax, Hall, Hpre.
  rewrite app_nil_r in Hall.
  split; [exact Hok|]. split; [exact Hmax|]. split; [exact Hall|].
  split; [exact Hpre|]. split; [|exact Hs].
  destruct Hok as [Hle' Hq']. rewrite Hmax in Hle', Hq'.
  apply (f_equal length) in Hall. rewrite !length_app in Hall.
  unfold Submission.workers_for in Hall. rewrite length_imap in Hall.
  destruct (Pool.queued (thread_pool (load_exrs w folder s).2)) as [|q qs].
  - simpl in Hall. lia.
  - rewrite Hq' by done. simpl in Hall. rewrite Hq' in Hall by done. lia.
Qed.

Lemma load_submits_one_worker_per_path_witness :
  isdir Samples.six_files (py "hdris") = true
  ∧ Submission.pool_ok (thread_pool loaded_panel)
  ∧ length (Pool.active
              (thread_pool (load_exrs Samples.six_files (py "hdris") loaded_panel).2))
    = 4
  ∧ worker_serial (load_exrs Samples.six_files (py "hdris") loaded_panel).2 = 8.
Proof.
  assert (H1 : isdir Samples.six_files (py "hdris") = true) by reflexivity.
  assert (H2 : Submission.pool_ok (thread_pool loaded_panel)).
  { split; [vm_compute; lia | intros Hq; vm_compute in Hq; done]. }
  destruct (load_submits_one_worker_per_path Samples.six_files (py "hdris")
              loaded_panel H1 H2) as (_ & _ & _ & _ & Hlen & Hs).
  split; [exact H1|]. split; [exact H2|]. split; [exact Hlen | exact Hs].
Defined.

(** X11.  Handling a result touches one card at most: every other card
    is the same object as before, the card of the path keeps its file
    name and exists afterwards only if it existed before, the counter
    moves by at most one, and the pool, the grid, the total and the
    slider labels are not touched. *)
Theorem result_touches_only_its_card (sig : signal) (s : EXRBrowser) :
  (∀ q, q ≠ signal_path sig → card_data (deliver sig s) !! q = card_data s !! q)
  ∧ (∀ c', card_data (deliver sig s) !! signal_path sig = Some c' →
       ∃ c, card_data s !! signal_path sig = Some c ∧ name_label c' = name_label c)
  ∧ loaded_count s ≤ loaded_count (deliver sig s) ≤ loaded_count s + 1
  ∧ total_count (deliver sig s) = total_count s
  ∧ thread_pool (deliver sig s) = thread_pool s
  ∧ worker_serial (deliver sig s) = worker_serial s
  ∧ grid (deliver sig s) = grid s
  ∧ intensity_value_label (deliver sig s) = intensity_value_label s
  ∧ location_value_label (deliver sig s) = location_value_label s.
Proof.
  destruct sig as [path pix i|path m]; simpl;
    unfold _on_thumbnail_loaded, _on_thumbnail_error;
    (destruct (card_data s !! path) as [c|] eqn:Hc;
     [unfold _update_progress; destruct (_ <=? _); simpl;
      (split; [intros q Hq; by rewrite lookup_insert_ne|]);
      (split; [intros c'; rewrite lookup_insert_eq; intros [= <-]; by exists c|]);
      repeat split; lia
     |split; [done|]; split; [intros c'; by rewrite Hc|]; repeat split; lia]).
Qed.

(** X12.  Once every expected result is in and the label shows the
    summary, further results (late ones of an earlier load, or repeated
    ones) never bring the progress text back: the label stays at the
    summary and the counter never drops below the total. *)
Theorem summary_survives_late_results (sigs : list signal) (s : EXRBrowser) :
  total_count s ≤ loaded_count s →
  count_label s = loaded_text (total_count s) →
  count_label (deliver_all sigs s) = loaded_text (total_count s)
  ∧ total_count (deliver_all sigs s) = total_count s
  ∧ total_count s ≤ loaded_count (deliver_all sigs s).
Proof.
  revert s. induction sigs as [|sig sigs IH]; intros s Hle Hlab; [done|].
  unfold deliver_all. simpl. fold (deliver_all sigs (deliver sig s)).
  assert (Hstep : total_count (deliver sig s) = total_count s
                  ∧ total_count s ≤ loaded_count (deliver sig s)
                  ∧ count_label (deliver sig s) = loaded_text (total_count s)).
  { destruct (card_data s !! signal_path sig) as [c|] eqn:Hc.
    - destruct (deliver_known sig s c Hc) as (c' & _ & _ & _ & Hl & Ht & _ & _ & Hlb).
      rewrite Hl, Ht, Hlb. split; [done|]. split; [lia|].
      by rewrite (proj2 (Nat.leb_le _ _)) by lia.
    - by rewrite deliver_unknown. }
  destruct Hstep as (Ht & Hl & Hlb).
  destruct (IH (deliver sig s)) as (H1 & H2 & H3); rewrite ?Ht; try done.
  rewrite Ht in H1, H2, H3. done.
Qed.

Lemma summary_survives_late_results_witness :
  total_count (deliver_all mixed_results loaded_panel)
  ≤ loaded_count (deliver_all mixed_results loaded_panel)
  ∧ count_label (deliver_all mixed_results loaded_panel)
    = loaded_text (total_count (deliver_all mixed_results loaded_panel))
  ∧ count_label (deliver_all [error (py "d/a.exr") (py "late")]
                   (deliver_all mixed_results loaded_panel))
    = loaded_text 2
  ∧ loaded_count (deliver_all [error (py "d/a.exr") (py "late")]
                    (deliver_all mixed_results loaded_panel)) = 3.
Proof.
  assert (H1 : total_count (deliver_all mixed_results loaded_panel)
               ≤ loaded_count (deliver_all mixed_results loaded_panel))
    by (vm_compute; lia).
  assert (H2 : count_label (deliver_all mixed_results loaded_panel)
               = loaded_text (total_count (deliver_all mixed_results loaded_panel)))
    by (vm_compute; reflexivity).
  destruct (summary_survives_late_results [error (py "d/a.exr") (py "late")]
              (deliver_all mixed_results loaded_panel) H1 H2) as (Hl & _ & _).
  split; [exact H1|]. split; [exact H2|]. split; [exact Hl|].
  vm_compute. reflexivity.
Defined.

Section SyncFacts.
Import PyStr Decoder Browser Submission.

Local Arguments Nat.div : simpl never.
Local Arguments Nat.modulo : simpl never.
Local Arguments Nat.mul : simpl never.

(** What a result leaves alone, whether its card is known or not. *)
Lemma deliver_frame (sig : signal) (s : EXRBrowser) :
  worker_serial (deliver sig s) = worker_serial s
  ∧ intensity_value_label (deliver sig s) = intensity_value_label s
  ∧ location_value_label (deliver sig s) = location_value_label s
  ∧ thread_pool (deliver sig s) = thread_pool s
  ∧ grid (deliver sig s) = grid s.
Proof.
  destruct sig as [path pix i|path m]; simpl;
    unfold _on_thumbnail_loaded, _on_thumbnail_error;
    (destruct (card_data s !! path); [|done]);
    unfold _update_progress; by destruct (_ <=? _).
Qed.

Lemma deliver_known_style (sig : signal) (s : EXRBrowser) (c : card) :
  card_data s !! signal_path sig = Some c →
  count_label_style (deliver sig s)
  = if total_count s <=? S (loaded_count s) then count_done else count_label_style s.
Proof.
  destruct sig as [path pix i|path m]; simpl;
    unfold _on_thumbnail_loaded, _on_thumbnail_error; intros ->;
    unfold _update_progress; simpl; rewrite Nat.add_1_r; by destruct (_ <=? _).
Qed.

Lemma alter_known (f : card → card) (path : pystr) (m : gmap pystr card) (c : card) :
  m !! path = Some c → alter f path m = <[path := f c]> m.
Proof.
  intros Hc. apply map_eq. intros q. destruct (decide (q = path)) as [->|Hne].
  - by rewrite lookup_alter_eq, lookup_insert_eq, Hc.
  - by rewrite lookup_alter_ne, lookup_insert_ne.
Qed.

Lemma sync_failure_deliver (path e : pystr) (s : EXRBrowser) (c : card) :
  card_data s !! path = Some c →
  SyncLoad.sync_failure path e s = deliver (error path (take 30 e)) s.
Proof.
  intros Hc. unfold SyncLoad.sync_failure, SyncLoad.count_one. simpl.
  unfold _on_thumbnail_error. rewrite Hc, (alter_known _ _ _ c Hc). done.
Qed.

Lemma sync_success_deliver (path : pystr) (spec : ImageSpec) (qimg : QImage)
    (s : EXRBrowser) (c : card) :
  card_data s !! path = Some c →
  SyncLoad.sync_success path spec qimg s = deliver (to_pixmap path spec qimg) s.
Proof.
  intros Hc. unfold SyncLoad.sync_success, SyncLoad.count_one, to_pixmap. simpl.
  unfold _on_thumbnail_loaded. rewrite Hc, (alter_known _ _ _ c Hc). done.
Qed.

(** The fallback loader does what the worker and the slot of its
    signal do together, and opens the file itself. *)
Lemma load_thumbnail_sync_run (w : world) (path : pystr) (s : EXRBrowser) (c : card) :
  card_data s !! path = Some c →
  SyncLoad._load_thumbnail_sync w path s
  = ([image_open path], deliver (run path (open_image w path)) s).
Proof.
  intros Hc. unfold SyncLoad._load_thumbnail_sync, run. f_equal.
  destruct (open_image w path) as [e|spec img].
  - by apply sync_failure_deliver with c.
  - destruct (nchannels spec =? 1).
    + destruct (reshape _ _) as [e|img'].
      * by apply sync_failure_deliver with c.
      * by apply sync_success_deliver with c.
    + destruct (reshape _ _) as [e|img'].
      * by apply sync_failure_deliver with c.
      * by apply sync_success_deliver with c.
Qed.

(** The loop of [load_exrs] without the pool: every card it places is
    already terminal when the loop moves on. *)
Lemma place_cards_sync (w : world) (folder : pystr) (files : list pystr) :
  ∀ row col s, col < 4 →
    ∃ s', SyncLoad.place_cards false w folder files row col s
          = (image_open <$> (join folder <$> files), s')
      ∧ dom (card_data s') = dom (card_data s) ∪ list_to_set (join folder <$> files)
      ∧ (∀ p c, card_data s' !! p = Some c → terminal c ∨ card_data s !! p = Some c)
      ∧ loaded_count s' = loaded_count s + length files
      ∧ total_count s' = total_count s
      ∧ thread_pool s' = thread_pool s
      ∧ worker_serial s' = worker_serial s
      ∧ grid s' = grid s ++ imap (λ k f, {| cell_path := join folder f;
                                            cell_row := (4 * row + col + k) / 4;
                                            cell_col := (4 * row + col + k) mod 4 |}) files
      ∧ count_label s'
        = match files with
          | [] => count_label s
          | _ :: _ => progress_text (loaded_count s + length files) (total_count s)
          end
      ∧ count_label_style s'
        = match files with
          | [] => count_label_style s
          | _ :: _ => if total_count s <=? loaded_count s + length files
                      then count_done else count_label_style s
          end.
Proof.
  induction files as [|f files IH]; intros row col s Hcol.
  - exists s. simpl. rewrite app_nil_r, Nat.add_0_r.
    split; [done|]. split; [set_solver|]. split; [by right|]. done.
  - cbn [SyncLoad.place_cards]. unfold SyncLoad._build_card.
    set (s0 := set_card_data (<[join folder f := new_card f]> (card_data s)) s).
    assert (Hc0 : card_data s0 !! join folder f = Some (new_card f))
      by apply lookup_insert_eq.
    rewrite (load_thumbnail_sync_run w _ s0 _ Hc0).
    set (sig := run (join folder f) (open_image w (join folder f))).
    assert (Hpath : signal_path sig = join folder f) by apply run_signal_path.
    rewrite <- Hpath in Hc0.
    destruct (deliver_known sig s0 _ Hc0)
      as (c' & Hcd & Hst & _ & Hl & Ht & _ & _ & Hlab).
    pose proof (deliver_known_style sig s0 _ Hc0) as Hsty.
    destruct (deliver_frame sig s0) as (Hser & _ & _ & Hpool & Hgrid).
    rewrite Hpath in Hcd.
    set (s1 := deliver sig s0) in *.
    set (cell := {| cell_path := join folder f; cell_row := row; cell_col := col |}).
    assert (Hnext : ∃ r c, (if col + 1 =? 4 then (row + 1, 0) else (row, col + 1)) = (r, c)
                           ∧ c < 4 ∧ 4 * r + c = 4 * row + col + 1).
    { destruct (Nat.eqb_spec (col + 1) 4); eexists _, _; (split; [done|]); lia. }
    destruct Hnext as (r & c & -> & Hc4 & Hrc).
    destruct (IH r c (set_grid (grid s1 ++ [cell]) s1) Hc4)
      as (s' & -> & Hdom & Hterm & Hl' & Ht' & Hp' & Hs' & Hg' & Hlab' & Hsty').
    exists s'. simpl in *.
    split; [done|]. split.
    { rewrite Hdom, Hcd. simpl. rewrite !dom_insert_L. set_solver. }
    split.
    { intros p c0 Hp. destruct (Hterm p c0 Hp) as [Ht0|Hp0]; [by left|].
      rewrite Hcd in Hp0. destruct (decide (p = join folder f)) as [->|Hne].
      - rewrite lookup_insert_eq in Hp0. injection Hp0 as <-. left.
        unfold terminal. rewrite Hst. destruct sig; eauto.
      - rewrite !lookup_insert_ne in Hp0 by done. by right. }
    split; [lia|]. split; [congruence|]. split; [congruence|].
    split; [congruence|]. split.
    { rewrite Hg', Hgrid, <- app_assoc. simpl. f_equal. f_equal.
      - unfold cell. f_equal.
        + rewrite Nat.add_0_r.
          rewrite (Nat.add_comm (4 * row)), (Nat.mul_comm 4), Nat.div_add by lia.
          rewrite Nat.div_small; lia.
        + rewrite Nat.add_0_r.
          rewrite (Nat.add_comm (4 * row)), (Nat.mul_comm 4), Nat.Div0.mod_add.
          symmetry. by apply Nat.mod_small.
      - apply imap_ext. intros k x _. simpl. rewrite Hrc.
        f_equal; f_equal; lia. }
    destruct files as [|g files].
    + rewrite Hlab', Hsty'. simpl. rewrite Hlab, Hsty.
      unfold progress_text. by rewrite Nat.add_1_r.
    + rewrite Hlab', Hsty'. simpl. rewrite ?Hl, ?Ht, Hsty.
      replace (S (loaded_count s) + S (length files))
        with (loaded_count s + S (S (length files))) by lia.
      split; [done|].
      destruct (Nat.leb_spec (total_count s) (S (loaded_count s)));
        destruct (Nat.leb_spec (total_count s) (loaded_count s + S (S (length files))));
        (done || lia).
Qed.

(** With the flag set, the loader is the pooled one. *)
Lemma place_cards_with_pool (w : world) (folder : pystr) (files : list pystr) :
  ∀ row col s,
    SyncLoad.place_cards true w folder files row col s
    = place_cards folder files row col s.
Proof.
  induction files as [|f files IH]; intros row col s; [done|].
  cbn [SyncLoad.place_cards place_cards]. unfold SyncLoad._build_card, _build_card.
  destruct (_load_thumbnail_async _ _) as [e1 s1].
  destruct (col + 1 =? 4); by rewrite IH.
Qed.

Lemma load_exrs_with_pool (w : world) (folder : pystr) (s : EXRBrowser) :
  SyncLoad.load_exrs true w folder s = load_exrs w folder s.
Proof.
  unfold SyncLoad.load_exrs, load_exrs, SyncLoad.clear.
  destruct (isdir w folder); [|done]. simpl.
  destruct (List.filter is_hdri_name (listdir w folder)) as [|f files]; [done|].
  by rewrite place_cards_with_pool.
Qed.
End SyncFacts.

(** X13.  Without the thread pool, building a card is building the
    pooled card and handling the worker's result on the spot: the
    fallback loader leaves the panel exactly as the slot of the signal
    [run] emits for that path would, for every image, and the one
    thing it does outside the panel is to open and read the image file
    in the calling thread. *)
Theorem sync_card_is_decode_then_deliver (w : world) (path filename : pystr)
    (s : EXRBrowser) :
  SyncLoad._build_card false w path filename s
  = ([image_open path],
     deliver (run path (open_image w path))
       (set_card_data (<[path := new_card filename]> (card_data s)) s)).
Proof.
  unfold SyncLoad._build_card.
  by rewrite (load_thumbnail_sync_run w path _ (new_card filename))
    by apply lookup_insert_eq.
Qed.

(** X14.  Without the thread pool a directory load returns only when
    every card is terminal.  Outside the panel it tests the directory,
    lists it, and opens and reads every listed image itself, in listing
    order; the pool is not used.  On return the card table holds
    exactly the listed paths, every card is Loaded or Failed, both
    counters equal the number of listed files, the label reads
    "(check mark) Loaded N HDRI file(s)" (or "No HDRI files found" for
    an empty listing), and the grid is the four-column layout. *)
Theorem sync_load_finishes_every_card (w : world) (folder : pystr) (s : EXRBrowser) :
  isdir w folder = true →
  ∃ s', SyncLoad.load_exrs false w folder s
        = ([fs_isdir folder; fs_listdir folder]
           ++ (image_open <$> listed_paths w folder), s')
    ∧ Forall (λ e, is_start e = false) (SyncLoad.load_exrs false w folder s).1
    ∧ dom (card_data s') = list_to_set (listed_paths w folder)
    ∧ (∀ p c, card_data s' !! p = Some c → terminal c)
    ∧ loaded_count s' = length (listed_paths w folder)
    ∧ total_count s' = length (listed_paths w folder)
    ∧ count_label s'
      = (if bool_decide (listed_paths w folder = []) then py "No HDRI files found"
         else [10003%N] ++ py " Loaded " ++ str_of_nat (length (listed_paths w folder))
              ++ py " HDRI file"
              ++ (if length (listed_paths w folder) =? 1 then [] else py "s"))
    ∧ grid s' = Submission.cells_for (listed_paths w folder)
    ∧ thread_pool s' = thread_pool s
    ∧ worker_serial s' = worker_serial s.
Proof.
  intros Hdir.
  assert (Hload : ∃ s', SyncLoad.load_exrs false w folder s
                        = ([fs_isdir folder; fs_listdir folder]
                           ++ (image_open <$> listed_paths w folder), s')
                    ∧ dom (card_data s') = list_to_set (listed_paths w folder)
                    ∧ (∀ p c, card_data s' !! p = Some c → terminal c)
                    ∧ loaded_count s' = length (listed_paths w folder)
                    ∧ total_count s' = length (listed_paths w folder)
                    ∧ count_label s'
                      = (if bool_decide (listed_paths w folder = [])
                         then py "No HDRI files found"
                         else loaded_text (length (listed_paths w folder)))
                    ∧ grid s' = Submission.cells_for (listed_paths w folder)
                    ∧ thread_pool s' = thread_pool s
                    ∧ worker_serial s' = worker_serial s).
  { unfold SyncLoad.load_exrs, listed_paths in *. rewrite Hdir. simpl.
    destruct (List.filter is_hdri_name (listdir w folder)) as [|f files] eqn:Hfiles.
    - eexists. split; [done|]. simpl. repeat split; done.
    - match goal with |- context [SyncLoad.place_cards false w folder ?fs ?r ?c ?st] =>
        destruct (place_cards_sync w folder fs r c st)
          as (s' & -> & Hd & Ht & Hl & Htot & Hp & Hs & Hg & Hlab & _); [lia|]
      end.
      exists s'. cbn -[Nat.div Nat.modulo Nat.mul] in *.
      split; [done|]. split; [set_solver|]. split.
      { intros p c Hc. destruct (Ht p c Hc) as [Hterm|Hold]; [done|].
        by rewrite lookup_empty in Hold. }
      rewrite length_fmap.
      split; [done|]. split; [done|]. split.
      { rewrite Hlab. unfold progress_text. by rewrite Nat.leb_refl. }
      split; [|done].
      rewrite Hg. unfold Submission.cells_for.
      rewrite imap_fmap. by f_equal. }
  destruct Hload as (s' & Hload & Hrest). exists s'.
  split; [exact Hload|]. split; [|exact Hrest].
  rewrite Hload. simpl. do 2 (apply Forall_cons; split; [done|]).
  apply Forall_fmap, Forall_true. done.
Qed.

Lemma sync_load_finishes_every_card_witness :
  isdir Samples.six_files (py "hdris") = true
  ∧ ∃ s', SyncLoad.load_exrs false Samples.six_files (py "hdris") loaded_panel
          = ([fs_isdir (py "hdris"); fs_listdir (py "hdris")]
             ++ (image_open <$> listed_paths Samples.six_files (py "hdris")), s')
      ∧ (∀ p c, card_data s' !! p = Some c → terminal c)
      ∧ loaded_count s' = 6
      ∧ count_label s' = [10003%N] ++ py " Loaded 6 HDRI files".
Proof.
  assert (H1 : isdir Samples.six_files (py "hdris") = true) by reflexivity.
  destruct (sync_load_finishes_every_card Samples.six_files (py "hdris") loaded_panel H1)
    as (s' & Hload & _ & _ & Hterm & Hl & _ & Hlab & _).
  split; [exact H1|].
  exists s'. split; [exact Hload|]. split; [exact Hterm|]. split; [exact Hl | exact Hlab].
Defined.

Section PersistFacts.
Import PyStr Decoder Browser Persist.

Lemma universal_newlines_no_cr (s : pystr) :
  (13%N ∉ s) → universal_newlines s = s.
Proof.
  induction s as [|c s IH]; intros Hcr; [done|].
  apply not_elem_of_cons in Hcr as [Hc Hs]. simpl.
  destruct (N.eqb_spec c 13) as [->|_]; [done|]. by rewrite IH.
Qed.

Lemma keep_unless_lf (c : N) (s : pystr) :
  c ≠ 10%N →
  match c :: s with
  | 10%N :: rest' => rest'
  | _ => c :: s
  end = c :: s.
Proof.
  intros Hne. destruct c as [|p]; [done|].
  do 4 (try destruct p as [p|p|]; try done).
Qed.

Lemma universal_newlines_drops_cr (s : pystr) :
  (13%N ∉ universal_newlines s) ∧ ∀ c, 13%N ∉ universal_newlines (c :: s).
Proof.
  induction s as [|c s [IH1 IH2]].
  - split; [apply not_elem_of_nil|]. intros c. simpl.
    destruct (N.eqb_spec c 13) as [->|Hc]; set_solver.
  - split; [apply IH2|]. intros c'. cbn [universal_newlines].
    destruct (N.eqb_spec c' 13) as [->|Hc'].
    + apply not_elem_of_cons. split; [done|].
      destruct (decide (c = 10%N)) as [->|Hlf]; [apply IH1|].
      rewrite keep_unless_lf by done. apply IH2.
    + apply not_elem_of_cons. split; [done | apply IH2].
Qed.

Lemma lstrip_suffix (s : pystr) :
  ∃ ws, s = ws ++ lstrip s ∧ Forall (λ c, isspace c = true) ws.
Proof.
  induction s as [|c s (ws & Hs & Hws)]; [by exists []|]. simpl.
  destruct (isspace c) eqn:Hc.
  - exists (c :: ws). split; [by rewrite Hs at 1 | by constructor].
  - by exists [].
Qed.

Lemma lstrip_head (s : pystr) :
  lstrip s = [] ∨ ∃ c r, lstrip s = c :: r ∧ isspace c = false.
Proof.
  induction s as [|c s IH]; [by left|]. simpl.
  destruct (isspace c) eqn:Hc; [done|]. right. eauto.
Qed.

Lemma lstrip_fixed (s : pystr) :
  lstrip s = s ↔ s = [] ∨ ∃ c r, s = c :: r ∧ isspace c = false.
Proof.
  split.
  - intros Hs. rewrite <- Hs. apply lstrip_head.
  - intros [->|(c & r & -> & Hc)]; [done|]. simpl. by rewrite Hc.
Qed.

Lemma lstrip_idemp (s : pystr) : lstrip (lstrip s) = lstrip s.
Proof. apply lstrip_fixed, lstrip_head. Qed.

Lemma rstrip_idemp (s : pystr) : rstrip (rstrip s) = rstrip s.
Proof. unfold rstrip. by rewrite reverse_involutive, lstrip_idemp. Qed.

Lemma rstrip_prefix (s : pystr) :
  ∃ ws, s = rstrip s ++ ws ∧ Forall (λ c, isspace c = true) ws.
Proof.
  destruct (lstrip_suffix (reverse s)) as (ws & Hs & Hws).
  exists (reverse ws). split.
  - unfold rstrip. rewrite <- reverse_app, <- Hs. by rewrite reverse_involutive.
  - by apply Forall_reverse.
Qed.

Lemma lstrip_rstrip (s : pystr) : lstrip s = s → lstrip (rstrip s) = rstrip s.
Proof.
  intros Hs. apply lstrip_fixed.
  destruct (rstrip_prefix s) as (ws & Heq & _).
  destruct (rstrip s) as [|c r]; [by left|]. right. exists c, r. split; [done|].
  apply lstrip_fixed in Hs as [->|(c' & r' & -> & Hc')]; [done|].
  by injection Heq as -> _.
Qed.

Lemma strip_trimmed (s : pystr) :
  lstrip (strip s) = strip s ∧ rstrip (strip s) = strip s.
Proof.
  unfold strip. split.
  - apply lstrip_rstrip, lstrip_idemp.
  - apply rstrip_idemp.
Qed.

Lemma strip_sublist (s : pystr) : strip s ⊆ s.
Proof.
  unfold strip. intros c Hc.
  destruct (rstrip_prefix (lstrip s)) as (ws & Hs & _).
  destruct (lstrip_suffix s) as (ws' & Hs' & _).
  rewrite Hs', Hs. set_solver.
Qed.
End PersistFacts.

(** X15.  A folder written by [_save_last_folder] is read back
    unchanged by [_load_last_folder] when the file can be written, the
    text can be encoded, and the path has no carriage return and no
    white space at either end; in general the value read back is the
    saved text with line ends translated and then stripped. *)
Theorem saved_folder_is_read_back (folder : pystr) (d : Persist.disk) :
  Persist.writable d = true →
  Persist.encodable d folder = true →
  Persist._load_last_folder (Persist._save_last_folder folder d)
  = Persist.strip (Persist.universal_newlines folder)
  ∧ ((13%N ∉ folder) → Persist.strip folder = folder →
     Persist._load_last_folder (Persist._save_last_folder folder d) = folder).
Proof.
  intros Hw He. unfold Persist._save_last_folder, Persist._load_last_folder.
  rewrite Hw, He. simpl. split; [done|].
  intros Hcr Hstrip. by rewrite universal_newlines_no_cr.
Qed.

Lemma saved_folder_is_read_back_witness :
  Persist.writable Samples.home_disk = true
  ∧ Persist.encodable Samples.home_disk (py "hdris") = true
  ∧ Persist._load_last_folder (Persist._save_last_folder (py "hdris") Samples.home_disk)
    = py "hdris".
Proof.
  assert (H1 : Persist.writable Samples.home_disk = true) by reflexivity.
  assert (H2 : Persist.encodable Samples.home_disk (py "hdris") = true) by reflexivity.
  destruct (saved_folder_is_read_back (py "hdris") Samples.home_disk H1 H2) as [_ Hback].
  split; [exact H1|]. split; [exact H2|]. apply Hback.
  - apply (bool_decide_unpack _). vm_compute. reflexivity.
  - vm_compute. reflexivity.
Defined.

(** X16.  Whatever the last-folder file holds, and also when it is
    missing or unreadable, the folder the panel starts with has no
    white space at either end and no carriage return, and every
    character of it comes from the file with line ends translated. *)
Theorem last_folder_is_trimmed (d : Persist.disk) :
  Persist.lstrip (Persist._load_last_folder d) = Persist._load_last_folder d
  ∧ Persist.rstrip (Persist._load_last_folder d) = Persist._load_last_folder d
  ∧ (13%N ∉ Persist._load_last_folder d)
  ∧ (∀ content, Persist.last_folder_txt d = Persist.file_text content →
       Persist._load_last_folder d ⊆ Persist.universal_newlines content).
Proof.
  unfold Persist._load_last_folder.
  destruct (Persist.last_folder_txt d) as [| |content].
  - repeat split; try done. apply not_elem_of_nil.
  - repeat split; try done. apply not_elem_of_nil.
  - destruct (strip_trimmed (Persist.universal_newlines content)) as [Hl Hr].
    split; [done|]. split; [done|]. split.
    + intros Hin. apply strip_sublist in Hin.
      by apply (proj1 (universal_newlines_drops_cr content)).
    + intros c [= <-]. apply strip_sublist.
Qed.

(** X17.  Browse remembers the folder across sessions: after a folder
    was chosen in the dialog (file writable, path encodable, without
    carriage return or white space at its ends) and still exists, the
    next start shows that folder in the path field and loads it into a
    fresh panel; when it is a directory the cards, the counters, the
    label and the grid are the ones Browse itself had produced. *)
Theorem restart_reopens_browsed_folder (w : world) (folder : pystr)
    (win : Persist.window) :
  folder ≠ [] →
  Persist.writable (Persist.home win) = true →
  Persist.encodable (Persist.home win) folder = true →
  (13%N ∉ folder) →
  Persist.strip folder = folder →
  Persist.path_exists (Persist.home win) folder = true →
  Persist.path_le (Persist.startup w (Persist.home (Persist.browse w folder win)))
  = folder
  ∧ Persist.panel (Persist.startup w (Persist.home (Persist.browse w folder win)))
    = (load_exrs w folder (init w)).2
  ∧ (isdir w folder = true →
     card_data (Persist.panel
                  (Persist.startup w (Persist.home (Persist.browse w folder win))))
     = card_data (Persist.panel (Persist.browse w folder win))
     ∧ count_label (Persist.panel
                      (Persist.startup w (Persist.home (Persist.browse w folder win))))
       = count_label (Persist.panel (Persist.browse w folder win))
     ∧ grid (Persist.panel
               (Persist.startup w (Persist.home (Persist.browse w folder win))))
       = grid (Persist.panel (Persist.browse w folder win))).
Proof.
  intros Hne Hw He Hcr Hstrip Hex.
  assert (Hback : Persist._load_last_folder
                    (Persist._save_last_folder folder (Persist.home win)) = folder).
  { unfold Persist._save_last_folder, Persist._load_last_folder.
    rewrite Hw, He. simpl. by rewrite universal_newlines_no_cr. }
  assert (Hexists : Persist.path_exists
                      (Persist._save_last_folder folder (Persist.home win)) folder
                    = true).
  { unfold Persist._save_last_folder. rewrite Hw, He. done. }
  unfold Persist.browse. rewrite bool_decide_eq_false_2 by done.
  unfold Persist.startup. cbn [Persist.home Persist.panel Persist.path_le].
  rewrite Hback, Hexists, bool_decide_eq_false_2 by done.
  split; [done|]. split; [done|]. intros Hdir. simpl.
  destruct (load_exrs_exact w folder (init w) Hdir) as (-> & -> & _ & _ & _ & -> & _).
  destruct (load_exrs_exact w folder (Persist.panel win) Hdir)
    as (-> & -> & _ & _ & _ & -> & _).
  done.
Qed.

Lemma restart_reopens_browsed_folder_witness :
  Persist.path_le
    (Persist.startup mixed_folder
       (Persist.home (Persist.browse mixed_folder (py "d") Samples.fresh_window)))
  = py "d"
  ∧ Persist.panel
      (Persist.startup mixed_folder
         (Persist.home (Persist.browse mixed_folder (py "d") Samples.fresh_window)))
    = loaded_panel.
Proof.
  assert (H1 : py "d" ≠ []) by discriminate.
  assert (H2 : Persist.writable (Persist.home Samples.fresh_window) = true)
    by reflexivity.
  assert (H3 : Persist.encodable (Persist.home Samples.fresh_window) (py "d") = true)
    by reflexivity.
  assert (H4 : 13%N ∉ py "d").
  { apply (bool_decide_unpack _). vm_compute. reflexivity. }
  assert (H5 : Persist.strip (py "d") = py "d") by (vm_compute; reflexivity).
  assert (H6 : Persist.path_exists (Persist.home Samples.fresh_window) (py "d") = true)
    by reflexivity.
  destruct (restart_reopens_browsed_folder mixed_folder (py "d") Samples.fresh_window
              H1 H2 H3 H4 H5 H6) as (Hp & Hpanel & _).
  split; [exact Hp | exact Hpanel].
Defined.

(** X18.  The hover preview never appears: nothing assigns
    [original_pixmap], so whatever the mouse does, and whatever truth
    value a pixmap has, a thumbnail label stays exactly as it was
    created (not zoomed, no preview widget). *)
Theorem hover_preview_never_appears (truthy : QPixmap → bool) (path : pystr)
    (evs : list Hover.hover_event) :
  foldl (Hover.hover truthy) (Hover.new_label path) evs = Hover.new_label path
  ∧ Hover.preview_visible (foldl (Hover.hover truthy) (Hover.new_label path) evs)
    = false.
Proof.
  assert (Hfix : foldl (Hover.hover truthy) (Hover.new_label path) evs
                 = Hover.new_label path).
  { induction evs as [|ev evs IH]; [done|]. simpl. by destruct ev. }
  by rewrite Hfix.
Qed.

Section HoverFacts.
Import Hover.

(** The preview is visible exactly while the label is marked zoomed. *)
Lemma hover_keeps_sync (truthy : QPixmap → bool) (l : ClickableLabel)
    (ev : hover_event) :
  preview_visible l = zoomed l →
  preview_visible (hover truthy l ev) = zoomed (hover truthy l ev).
Proof.
  intros Hinv. destruct ev; simpl.
  - unfold enterEvent. destruct (original_pixmap l) as [pix|] eqn:Hpix; [|done].
    destruct (truthy pix && negb (zoomed l)); [|done].
    unfold _show_zoom_preview. simpl. by rewrite Hpix.
  - unfold leaveEvent. destruct (zoomed l) eqn:Hz; [|by rewrite Hz].
    unfold _hide_zoom_preview, preview_visible. simpl.
    destruct (zoom_label l) eqn:Hzl; simpl; by rewrite ?Hzl.
Qed.

Lemma hover_keeps_pixmap (truthy : QPixmap → bool) (l : ClickableLabel)
    (ev : hover_event) :
  original_pixmap (hover truthy l ev) = original_pixmap l
  ∧ label_path (hover truthy l ev) = label_path l.
Proof.
  destruct ev; simpl.
  - unfold enterEvent. destruct (original_pixmap l) as [pix|] eqn:Hpix; [|done].
    destruct (truthy pix && negb (zoomed l)); [|done].
    unfold _show_zoom_preview. simpl. by rewrite Hpix.
  - unfold leaveEvent. destruct (zoomed l); [|done].
    unfold _hide_zoom_preview. simpl. by destruct (zoom_label l).
Qed.

Lemma hover_all_keeps (truthy : QPixmap → bool) (evs : list hover_event) :
  ∀ l, preview_visible l = zoomed l →
       preview_visible (foldl (hover truthy) l evs)
       = zoomed (foldl (hover truthy) l evs)
       ∧ original_pixmap (foldl (hover truthy) l evs) = original_pixmap l
       ∧ label_path (foldl (hover truthy) l evs) = label_path l.
Proof.
  induction evs as [|ev evs IH]; intros l Hinv; [done|]. simpl.
  destruct (IH (hover truthy l ev) (hover_keeps_sync truthy l ev Hinv))
    as (-> & -> & ->).
  split; [done|]. apply hover_keeps_pixmap.
Qed.
End HoverFacts.

(** X19.  If a label did have a pixmap, the preview would follow the
    mouse: starting from a label whose preview is visible exactly when
    it is marked zoomed, that stays so after any sequence of enter and
    leave events; the preview is hidden whenever the last event was a
    leave and visible whenever it was an enter over a truthy pixmap;
    the pixmap and the path are never changed. *)
Theorem hover_preview_follows_mouse (truthy : QPixmap → bool)
    (l : Hover.ClickableLabel) (evs : list Hover.hover_event) :
  Hover.preview_visible l = Hover.zoomed l →
  Hover.preview_visible (foldl (Hover.hover truthy) l evs)
  = Hover.zoomed (foldl (Hover.hover truthy) l evs)
  ∧ Hover.preview_visible
      (foldl (Hover.hover truthy) l (evs ++ [Hover.mouse_leave])) = false
  ∧ (∀ pix, Hover.original_pixmap l = Some pix → truthy pix = true →
       Hover.preview_visible
         (foldl (Hover.hover truthy) l (evs ++ [Hover.mouse_enter])) = true)
  ∧ Hover.original_pixmap (foldl (Hover.hover truthy) l evs) = Hover.original_pixmap l
  ∧ Hover.label_path (foldl (Hover.hover truthy) l evs) = Hover.label_path l.
Proof.
  intros Hinv.
  destruct (hover_all_keeps truthy evs l Hinv) as (Hsync & Hpix & Hpath).
  split; [done|]. rewrite !foldl_snoc.
  set (l' := foldl (Hover.hover truthy) l evs) in *.
  split; [|split; [|done]].
  - simpl. unfold Hover.leaveEvent. destruct (Hover.zoomed l') eqn:Hz.
    + unfold Hover._hide_zoom_preview, Hover.preview_visible. simpl.
      destruct (Hover.zoom_label l') eqn:Hzl; simpl; by rewrite ?Hzl.
    + by rewrite Hsync.
  - intros pix Hp Ht. simpl. unfold Hover.enterEvent. rewrite Hpix, Hp, Ht. simpl.
    destruct (Hover.zoomed l') eqn:Hz; simpl; [by rewrite Hsync|].
    unfold Hover._show_zoom_preview. simpl. by rewrite Hpix, Hp.
Qed.

Lemma hover_preview_follows_mouse_witness :
  Hover.preview_visible
    (foldl (Hover.hover (λ _, true))
       {| Hover.label_path := py "d/a.exr"; Hover.zoomed := false;
          Hover.original_pixmap :=
            Some (scaled_220 {| format := Format_Grayscale8; qwidth := 1;
                                qheight := 1; bits := [127%Z]; overread := 0 |});
          Hover.zoom_label := None |}
       ([Hover.mouse_enter; Hover.mouse_enter] ++ [Hover.mouse_leave]))
  = false.
Proof.
  refine (proj1 (proj2 (hover_preview_follows_mouse (λ _, true) _
                          [Hover.mouse_enter; Hover.mouse_enter] _))).
  reflexivity.
Defined.

(** X20.  The fade-in of a card takes exactly twenty timer periods:
    adding 0.05 in binary64 keeps the opacity below 1.0 for nineteen
    steps (timer running, overlay painted), the twentieth reaches 1.0,
    sets the opacity to exactly 1.0, clears [animation_active] and
    stops the timer, and from then on nothing changes and the overlay
    is no longer painted. *)
Theorem fade_in_takes_twenty_steps (n : nat) :
  (n < 20 →
   Fade.timer_running (Fade.ticks n (Fade._start_fade Fade.new_card)) = true
   ∧ Fade.animation_active (Fade.ticks n (Fade._start_fade Fade.new_card)) = true
   ∧ SFltb (Fade.current_opacity (Fade.ticks n (Fade._start_fade Fade.new_card)))
       Fade.opacity_1 = true
   ∧ Fade.paints_overlay (Fade.ticks n (Fade._start_fade Fade.new_card)) = true)
  ∧ (20 ≤ n →
     Fade.ticks n (Fade._start_fade Fade.new_card)
     = {| Fade.current_opacity := Fade.opacity_1;
          Fade.target_opacity := Fade.opacity_1;
          Fade.animation_active := false; Fade.timer_running := false |}
     ∧ Fade.paints_overlay (Fade.ticks n (Fade._start_fade Fade.new_card)) = false).
Proof.
  split.
  - intros Hn.
    do 20 (destruct n as [|n]; [vm_compute; done|]). lia.
  - intros Hn. replace n with ((n - 20) + 20) by lia.
    unfold Fade.ticks. rewrite Nat.iter_add.
    assert (H20 : Nat.iter 20 Fade.tick (Fade._start_fade Fade.new_card)
                  = {| Fade.current_opacity := Fade.opacity_1;
                       Fade.target_opacity := Fade.opacity_1;
                       Fade.animation_active := false;
                       Fade.timer_running := false |})
      by (vm_compute; reflexivity).
    rewrite H20. clear H20 Hn.
    induction (n - 20) as [|k IH]; [by vm_compute|].
    simpl. destruct IH as [-> _]. by vm_compute.
Qed.

(** X21.  Starting the animation of a card whose opacity is not below
    its target (a card that has finished fading, say) never ends:
    [_animate_step] stops the timer only inside the branch that raises
    the opacity, so the timer keeps running, [animation_active] stays
    set and the overlay is painted at every repaint. *)
Theorem restarted_fade_never_stops (c : Fade.AnimatedCard) (n : nat) :
  SFltb (Fade.current_opacity c) (Fade.target_opacity c) = false →
  Fade.ticks n (Fade._start_fade c) = Fade._start_fade c
  ∧ Fade.timer_running (Fade.ticks n (Fade._start_fade c)) = true
  ∧ Fade.animation_active (Fade.ticks n (Fade._start_fade c)) = true
  ∧ Fade.paints_overlay (Fade.ticks n (Fade._start_fade c)) = true.
Proof.
  intros Hge.
  assert (Hfix : Fade.ticks n (Fade._start_fade c) = Fade._start_fade c).
  { induction n as [|n IH]; [done|].
    unfold Fade.ticks in *. simpl. rewrite IH.
    unfold Fade.tick, Fade._animate_step. simpl. by rewrite Hge. }
  by rewrite Hfix.
Qed.

Lemma restarted_fade_never_stops_witness :
  SFltb (Fade.current_opacity (Fade.ticks 20 (Fade._start_fade Fade.new_card)))
    (Fade.target_opacity (Fade.ticks 20 (Fade._start_fade Fade.new_card))) = false
  ∧ Fade.timer_running
      (Fade.ticks 1000
         (Fade._start_fade (Fade.ticks 20 (Fade._start_fade Fade.new_card)))) = true.
Proof.
  assert (H1 : SFltb (Fade.current_opacity
                        (Fade.ticks 20 (Fade._start_fade Fade.new_card)))
                 (Fade.target_opacity
                    (Fade.ticks 20 (Fade._start_fade Fade.new_card))) = false)
    by (vm_compute; reflexivity).
  split; [exact H1|].
  exact (proj1 (proj2 (restarted_fade_never_stops _ 1000 H1))).
Defined.

Section NameFacts.
Import PyStr.

Lemma endswith_lower (f suf : pystr) :
  endswith (lower f) suf = true
  ↔ ∃ stem ext, f = stem ++ ext ∧ lower ext = suf.
Proof.
  unfold endswith, lower. rewrite bool_decide_eq_true. split.
  - intros [k Hk]. apply fmap_app_inv in Hk as (stem & ext & _ & Hs & Hf).
    exists stem, ext. done.
  - intros (stem & ext & -> & <-). rewrite fmap_app. by eexists.
Qed.

Lemma lower_cp_idemp (c : N) : lower_cp (lower_cp c) = lower_cp c.
Proof.
  assert (Hc : lower_cp c = c ∨ (lower_cp c = c + 32 ∧ 65 <= c)%N).
  { unfold lower_cp. destruct (N.leb_spec 65 c), (N.leb_spec c 90); cbn [andb]; auto. }
  destruct Hc as [Hc|[Hc Hle]]; rewrite Hc; [exact Hc|].
  unfold lower_cp.
  destruct (N.leb_spec 65 (c + 32)), (N.leb_spec (c + 32) 90); cbn [andb];
    (done || lia).
Qed.

Lemma lower_idemp (s : pystr) : lower (lower s) = lower s.
Proof.
  unfold lower. rewrite <- list_fmap_compose. apply list_fmap_ext.
  intros _ c _. apply lower_cp_idemp.
Qed.

Lemma is_hdri_name_ext (f : pystr) :
  Browser.is_hdri_name f = true
  ↔ ∃ stem ext, f = stem ++ ext ∧ (lower ext = py ".exr" ∨ lower ext = py ".hdr").
Proof.
  unfold Browser.is_hdri_name, endswith_any. simpl.
  rewrite orb_false_r, orb_true_iff, !endswith_lower. split.
  - intros [(stem & ext & Hf & He)|(stem & ext & Hf & He)]; exists stem, ext; eauto.
  - intros (stem & ext & Hf & [He|He]); [left|right]; exists stem, ext; eauto.
Qed.
End NameFacts.

(** X22.  A directory entry is listed exactly when it ends in an
    extension that reads ".exr" or ".hdr" once lowered: the test looks
    at the end of the name only and ignores case, so a listed name has
    at least four characters, lowering a name does not change the
    answer, and a listed name stays listed whatever is put in front of
    it. *)
Theorem listed_name_has_hdri_extension (f : pystr) :
  (is_hdri_name f = true
   ↔ ∃ stem ext, f = stem ++ ext ∧ (lower ext = py ".exr" ∨ lower ext = py ".hdr"))
  ∧ (is_hdri_name f = true → 4 ≤ length f)
  ∧ is_hdri_name (lower f) = is_hdri_name f
  ∧ (is_hdri_name f = true → ∀ pre, is_hdri_name (pre ++ f) = true).
Proof.
  split; [apply is_hdri_name_ext|]. split; [|split].
  - intros Hf. apply is_hdri_name_ext in Hf as (stem & ext & -> & He).
    rewrite length_app.
    assert (Hlen : length (lower ext) = 4) by (by destruct He as [-> | ->]).
    unfold lower in Hlen. rewrite length_fmap in Hlen. lia.
  - unfold is_hdri_name. by rewrite lower_idemp.
  - intros Hf pre. apply is_hdri_name_ext in Hf as (stem & ext & -> & He).
    apply is_hdri_name_ext. exists (pre ++ stem), ext. by rewrite app_assoc.
Qed.

Section ReachableFacts.
Import PyStr Decoder Browser Runtime Submission Reachable.









Lemma deliver_set_pool (sig : signal) (p : Pool.QThreadPool) (n : nat) (s : EXRBrowser) :
  deliver sig (set_pool p n s) = set_pool p n (deliver sig s).
Proof.
  destruct sig as [path pix i|path m]; simpl;
    unfold _on_thumbnail_loaded, _on_thumbnail_error; simpl;
    (destruct (card_data s !! path); [|done]);
    unfold _update_progress; simpl; by destruct (_ <=? _).
Qed.

Lemma deliver_all_set_pool (sigs : list signal) (p : Pool.QThreadPool) (n : nat) :
  ∀ s, deliver_all sigs (set_pool p n s) = set_pool p n (deliver_all sigs s).
Proof.
  induction sigs as [|sig sigs IH]; intros s; [done|].
  simpl. rewrite deliver_set_pool. apply IH.
Qed.









End ReachableFacts.





Section SliderFacts.
Import Hou.

Lemma SFltb_irrefl (x : spec_float) : SFltb x x = false.
Proof.
  unfold SFltb. destruct (SFcompare x x) as [[| |]|] eqn:Hc; try done.
  pose proof (SFcompare_antisym x x Lt Hc) as Hc'. simpl in Hc'. congruence.
Qed.

Lemma intensity_increasing (a b : Z) :
  (0 ≤ a)%Z → (a < b)%Z → (b ≤ 100)%Z →
  SFltb (intensity_value a) (intensity_value b) = true.
Proof.
  intros Ha Hab Hb.
  assert (Hall : forallb (λ i, forallb (λ j, if i <? j
                                             then SFltb (intensity_value (Z.of_nat i))
                                                    (intensity_value (Z.of_nat j))
                                             else true) (seq 0 101)) (seq 0 101) = true)
    by (vm_compute; reflexivity).
  rewrite forallb_forall in Hall.
  specialize (Hall (Z.to_nat a)). rewrite forallb_forall in Hall.
  specialize (Hall ltac:(apply in_seq; lia) (Z.to_nat b) ltac:(apply in_seq; lia)).
  rewrite !Z2Nat.id in Hall by lia.
  by rewrite (proj2 (Nat.ltb_lt _ _)) in Hall by lia.
Qed.

Lemma intensity_below_position (a : Z) :
  (1 ≤ a ≤ 100)%Z → SFltb (intensity_value a) (Float64.of_Z a) = true.
Proof.
  intros Ha.
  assert (Hall : forallb (λ n, SFltb (intensity_value (Z.of_nat (S n)))
                                 (Float64.of_Z (Z.of_nat (S n)))) (seq 0 100) = true)
    by (vm_compute; reflexivity).
  rewrite forallb_forall in Hall.
  specialize (Hall (Z.to_nat (a - 1)) ltac:(apply in_seq; lia)).
  by replace (Z.of_nat (S (Z.to_nat (a - 1)))) with a in Hall by lia.
Qed.
End SliderFacts.

(** X25.  Over the range of the intensity slider (0 to 100) the
    intensity sent to the light grows strictly with the slider
    position, so different positions give different intensities; the
    label next to the slider shows the position followed by ".0", which
    is the intensity sent only at position 0 (the intensity is a fifth
    of the number shown). *)
Theorem intensity_follows_slider (houdini : bool) (a b : Z)
    (st : EXRBrowser * Hou.scene) :
  (0 ≤ a ≤ 100)%Z → (0 ≤ b ≤ 100)%Z →
  ((a < b)%Z → SFltb (Hou.intensity_value a) (Hou.intensity_value b) = true)
  ∧ (Hou.intensity_value a = Hou.intensity_value b → a = b)
  ∧ (Hou.intensity_value a = Float64.of_Z a ↔ a = 0%Z)
  ∧ intensity_value_label (on_intensity_changed houdini a st).1
    = str_of_Z a ++ py ".0".
Proof.
  intros Ha Hb. split; [|split; [|split; [|done]]].
  - intros Hab. apply intensity_increasing; lia.
  - intros Heq. destruct (Z.lt_trichotomy a b) as [Hlt|[Heq'|Hgt]]; [|done|].
    + pose proof (intensity_increasing a b) as Hinc.
      rewrite Heq, SFltb_irrefl in Hinc. specialize (Hinc ltac:(lia) Hlt ltac:(lia)).
      done.
    + pose proof (intensity_increasing b a) as Hinc.
      rewrite Heq, SFltb_irrefl in Hinc. specialize (Hinc ltac:(lia) Hgt ltac:(lia)).
      done.
  - split.
    + intros Heq. destruct (decide (a = 0%Z)) as [|Hne]; [done|].
      pose proof (intensity_below_position a ltac:(lia)) as Hlt.
      by rewrite Heq, SFltb_irrefl in Hlt.
    + intros ->. vm_compute. reflexivity.
Qed.

Lemma intensity_follows_slider_witness :
  SFltb (Hou.intensity_value 10) (Hou.intensity_value 11) = true
  ∧ intensity_value_label
      (on_intensity_changed true 10 (loaded_panel, lit_scene)).1 = py "10.0".
Proof.
  destruct (intensity_follows_slider true 10 11 (loaded_panel, lit_scene)
              ltac:(lia) ltac:(lia)) as (Hlt & _ & _ & Hlabel).
  split; [apply Hlt; lia | exact Hlabel].
Defined.
